(** * AurumOrchard trading bot: a shallow embedding of [bot/main.py]

    The development follows the source file top-down: Python values and
    exceptions, the byte and hex helpers the code relies on, the Uniswap V3
    path encoder, the slippage floor, the transaction submitter and the
    flash-loan orchestration flow.  Every call that leaves the process is a
    request to an abstract world and is recorded, with its answer, in a
    trace; the properties of the flows are statements about that trace.
    Console output ([print]) has no effect on control flow or on the chain
    and is left out of the model.  The process around the flows ([load_abi],
    [main] and the dust transfers it sends before the flash flow) is
    modelled over a host layer of its own: keys, files, contract bindings
    and balances. *)

From Stdlib Require Import ZArith NArith Lia Ascii String List Bool.
From Stdlib.Strings Require Import Byte.
From stdpp Require Import base option list strings gmap.

Local Open Scope string_scope.
Local Open Scope list_scope.
Local Open Scope Z_scope.

(** ** Python values *)

(** Exceptions the program can meet.  All of them derive from [Exception],
    so an [except Exception] clause catches every constructor. *)
Inductive exn : Type :=
| AssertionError (msg : string)
| ValueError
| OverflowError
| IndexError
| KeyError (key : string)
| TypeError
| ValueOutOfBounds            (* eth_abi: value does not fit the ABI type *)
| TransportError (msg : string). (* anything raised by the RPC layer *)

(** A computation that either raises or returns. *)
Abbreviation result := (sum exn).

#[global] Instance result_ret : MRet result := fun _ x => inr x.
#[global] Instance result_bind : MBind result :=
  fun _ _ f m => match m with inl e => inl e | inr x => f x end.

(** [bytes] / [bytearray] *)
Abbreviation bytes := (list byte).

Definition byte_to_Z (b : byte) : Z := Z.of_N (Byte.to_N b).

Definition byte_of_Z (z : Z) : byte :=
  match Byte.of_N (Z.to_N (z mod 256)) with
  | Some b => b
  | None => x00
  end.

(** Big-endian digits of [z] in base 256, [len] of them. *)
Fixpoint be_bytes (len : nat) (z : Z) : bytes :=
  match len with
  | O => []
  | S k => be_bytes k (z / 256) ++ [byte_of_Z (z mod 256)]
  end.

(** [int.to_bytes(len, byteorder="big")] with the default [signed=False]:
    a negative integer and an integer that needs more than [len] bytes both
    raise [OverflowError]. *)
Definition int_to_bytes (z : Z) (len : nat) : result bytes :=
  if z <? 0 then inl OverflowError
  else if 256 ^ Z.of_nat len <=? z then inl OverflowError
  else inr (be_bytes len z).

(** [int.from_bytes(b, "big")] *)
Definition int_from_bytes (b : bytes) : Z :=
  fold_left (fun acc x => acc * 256 + byte_to_Z x) b 0.

(** ** Hexadecimal text *)

Definition hex_val (c : ascii) : option N :=
  let n := N_of_ascii c in
  if ((48 <=? n) && (n <=? 57))%N then Some (n - 48)%N
  else if ((97 <=? n) && (n <=? 102))%N then Some (n - 87)%N
  else if ((65 <=? n) && (n <=? 70))%N then Some (n - 55)%N
  else None.

Definition is_hex_digit (c : ascii) : bool :=
  match hex_val c with Some _ => true | None => false end.

(** [str.lower] and [str.upper] on one ASCII character *)
Definition lower_ascii (c : ascii) : ascii :=
  let n := N_of_ascii c in
  if ((65 <=? n) && (n <=? 90))%N then ascii_of_N (n + 32) else c.

Definition upper_ascii (c : ascii) : ascii :=
  let n := N_of_ascii c in
  if ((97 <=? n) && (n <=? 122))%N then ascii_of_N (n - 32) else c.

(** [bytes.fromhex] on a string without white space: two hex digits per
    byte, [ValueError] on an odd length or on any other character. *)
Fixpoint fromhex (s : list ascii) : result bytes :=
  match s with
  | [] => inr []
  | c1 :: c2 :: rest =>
      match hex_val c1, hex_val c2 with
      | Some h, Some l =>
          match fromhex rest with
          | inr bs => inr (byte_of_Z (Z.of_N (16 * h + l)) :: bs)
          | inl e => inl e
          end
      | _, _ => inl ValueError
      end
  | [_] => inl ValueError
  end.

(** [bytes.hex]: lower-case digits *)
Definition hex_digit (n : N) : ascii :=
  if (n <? 10)%N then ascii_of_N (48 + n) else ascii_of_N (87 + n).

Fixpoint hexlify (b : bytes) : list ascii :=
  match b with
  | [] => []
  | x :: b' =>
      hex_digit (Byte.to_N x / 16) :: hex_digit (Byte.to_N x mod 16) :: hexlify b'
  end.

(** ** Addresses (eth_utils, reached through [Web3.to_checksum_address]) *)

Definition is_0x_prefixed (s : list ascii) : bool :=
  match s with
  | c0 :: c1 :: _ =>
      Ascii.eqb c0 "0" && (Ascii.eqb c1 "x" || Ascii.eqb c1 "X")
  | _ => false
  end.

Definition remove_0x_prefix (s : list ascii) : list ascii :=
  if is_0x_prefixed s then drop 2 s else s.

(** A string is accepted as an address when, after an optional [0x] prefix,
    it consists of exactly 40 hex digits. *)
Definition is_address (addr : string) : bool :=
  let digits := remove_0x_prefix (list_ascii_of_string addr) in
  forallb is_hex_digit digits && (length digits =? 40)%nat.

(** [to_normalized_address]: the lower-case, prefixed form, or [ValueError]. *)
Definition to_normalized_address (addr : string) : result (list ascii) :=
  if is_address addr
  then inr ("0" :: "x" :: map lower_ascii (remove_0x_prefix (list_ascii_of_string addr)))%char
  else inl ValueError.

(** ** Numbers handed to [w3.to_wei] *)

(** The amounts in ether are written in the source as float literals and as a
    decimal string.  [to_wei] converts its argument through
    [decimal.Decimal(str(number))], so what reaches the arithmetic is the
    decimal numeral [coef * 10^expo] that the literal prints as. *)
Record pydecimal := Dec { coef : Z; expo : Z }.

(** [w3.to_wei(number, "ether")]: multiply by 10^18, truncate, and reject a
    result outside [0, 2^256 - 1] with [ValueError]. *)
Definition to_wei_ether (number : pydecimal) : result Z :=
  let e := expo number + 18 in
  let wei := if 0 <=? e then coef number * 10 ^ e
             else Z.quot (coef number) (10 ^ (- e)) in
  if (wei <? 0) || (2 ^ 256 - 1 <? wei) then inl ValueError else inr wei.

(** ** ABI encoding (eth_abi) *)

(** [abi_encode(["bytes", "uint256"], [b, v])] for a non-empty [b]: two head
    words (the offset of the dynamic part, then [v]) followed by the length
    of [b] and [b] itself, padded with zeros to a multiple of 32 bytes.  A
    [v] outside [uint256] is refused. *)
Definition abi_encode_bytes_uint256 (b : bytes) (v : Z) : result bytes :=
  if (0 <=? v) && (v <? 2 ^ 256) then
    inr (be_bytes 32 64 ++ be_bytes 32 v
         ++ be_bytes 32 (Z.of_nat (length b)) ++ b
         ++ repeat x00 ((32 - length b mod 32) mod 32)%nat)
  else inl ValueOutOfBounds.

(** ** Chain objects *)

(** Values stored in a transaction dict. *)
Inductive val : Type :=
| VInt (z : Z)
| VStr (s : string)
| VBytes (b : bytes).

Abbreviation txdict := (gmap string val).

(** [d.setdefault(k, v)] *)
Definition setdefault (k : string) (v : val) (d : txdict) : txdict :=
  match d !! k with
  | Some _ => d
  | None => <[k := v]> d
  end.

Record account := { address : string; key : bytes }.

(** A bound contract; only its [.address] is read by this program. *)
Record contract := { contract_address : string }.

Record block := { baseFeePerGas : option Z }.

Record signed_tx := { rawTransaction : bytes }.

Record receipt := { status : Z; gasUsed : Z; logs : list bytes }.

(** One decoded [FlashCompleted] log: its named arguments. *)
Record event_data := { args : gmap string Z }.

(** The tuple returned by [QuoterV2.quoteExactInput]. *)
Record quote_result := {
  amountOut : Z;
  sqrtPriceX96AfterList : list Z;
  initializedTicksCrossedList : list Z;
  gasEstimate : Z
}.

(** ** The world outside the process *)

(** Every call that leaves the program: contract reads, transport requests,
    signing and log decoding, each indexed by the type of what it returns. *)
Inductive op : Type -> Type :=
| owner_call (c : contract) : op string
| quoteExactInput_call (quoter : string) (path : bytes) (amountIn : Z)
  : op quote_result
| runSimpleFlash_build (c : contract) (asset : string) (amount : Z)
    (params : bytes) (overrides : txdict) : op txdict
| get_transaction_count (a : string) : op Z
| chain_id : op Z
| max_priority_fee : op Z
| get_block_latest : op block
| gas_price : op Z
| estimate_gas (tx : txdict) : op Z
| sign_transaction (tx : txdict) (k : bytes) : op signed_tx
| send_raw_transaction (raw : bytes) : op bytes
| wait_for_transaction_receipt (txh : bytes) : op receipt
| process_receipt (c : contract) (rcpt : receipt) : op (list event_data).

(** One interaction: the request and what came back. *)
Inductive event : Type :=
| Ev {X : Type} (o : op X) (r : result X).

(** Module-level settings read from the environment. *)
Record config := {
  FLASH_EXECUTOR_ADDRESS : option string;
  FLASH_ASSET : option string;
  FLASH_AMOUNT_WEI : Z;
  MIN_PROFIT_WEI : Z;
  UNIV3_QUOTER : string;
  USDC : string
}.

(** Truth value of an [os.getenv] result: unset and empty are both false. *)
Definition truthy (v : option string) : bool :=
  match v with
  | Some s => negb (String.eqb s "")
  | None => false
  end.

(** ** Observations on a trace *)

Definition is_signing (e : event) : bool :=
  match e with
  | Ev (sign_transaction _ _) _ => true
  | _ => false
  end.

Definition is_broadcast (e : event) : bool :=
  match e with
  | Ev (send_raw_transaction _) _ => true
  | _ => false
  end.

(** [send_tx] starts with a nonce query and nothing else issues one, so the
    nonce queries of a trace count the invocations of [send_tx]. *)
Definition is_nonce_query (e : event) : bool :=
  match e with
  | Ev (get_transaction_count _) _ => true
  | _ => false
  end.

Definition is_decoding (e : event) : bool :=
  match e with
  | Ev (process_receipt _ _) _ => true
  | _ => false
  end.

Definition signed_txs (tr : list event) : list txdict :=
  omap (fun e => match e with
                 | Ev (sign_transaction tx _) _ => Some tx
                 | _ => None
                 end) tr.

Definition submitter_invocations (tr : list event) : nat :=
  length (List.filter is_nonce_query tr).

(** The receipts handed to the log decoder, each with the decoder's answer. *)
Definition decodings (tr : list event)
  : list (receipt * result (list event_data)) :=
  omap (fun e => match e with
                 | Ev (process_receipt _ rcpt) r => Some (rcpt, r)
                 | _ => None
                 end) tr.

(** The receipts the program obtained from [wait_for_transaction_receipt]. *)
Definition receipts (tr : list event) : list receipt :=
  omap (fun e => match e with
                 | Ev (wait_for_transaction_receipt _) (inr rcpt) => Some rcpt
                 | _ => None
                 end) tr.

(** What follows the first decoding in a trace. *)
Fixpoint after_decoding (tr : list event) : list event :=
  match tr with
  | [] => []
  | e :: tr' => if is_decoding e then tr' else after_decoding tr'
  end.

(** ** The Web3 handle *)

(** What the program reaches through [w3] and the [Web3] class.  The chain and
    the transport are a deterministic machine with state [W]: [handle]
    answers one request and moves to the next state.  [eip55_upper] is the
    one fact about Keccak-256 that address checksums need: EIP-55 capitalises
    the i-th hex digit of an address when the i-th nibble of the digest of its
    lower-case text is above 7.  Nothing is assumed about either. *)
Class Web3 := {
  W : Type;
  handle : forall X : Type, op X -> W -> result X * W;
  eip55_upper : list ascii -> nat -> bool
}.

Section Bot.

Context `{w3 : Web3}.

Definition to_checksum (addr : string) : result string :=
  norm ← to_normalized_address addr;
  let body := remove_0x_prefix norm in
  mret (string_of_list_ascii
          ("0" :: "x" ::
           imap (fun i c => if eip55_upper body i then upper_ascii c else c) body)%char).

(** ** Uniswap V3 helpers *)

Definition _to20 (addr : string) : result bytes :=
  s ← to_checksum addr;
  fromhex (drop 2 (list_ascii_of_string s)).

Definition _fee3 (fee : Z) : result bytes :=
  int_to_bytes fee 3.

(** The loop of [encode_v3_path], with the bytearray [out] threaded through.
    The pair returned is the content of [out] when the loop stops and the
    exception that stopped it, if any. *)
Fixpoint encode_hops (tokens : list string) (i : nat) (fees : list Z)
    (out : bytes) : bytes * option exn :=
  match fees with
  | [] => (out, None)
  | f :: fees' =>
      match _fee3 f with
      | inl e => (out, Some e)
      | inr fb =>
          let out := out ++ fb in
          match tokens !! (i + 1)%nat with
          | None => (out, Some IndexError)
          | Some t =>
              match _to20 t with
              | inl e => (out, Some e)
              | inr tb => encode_hops tokens (S i) fees' (out ++ tb)
              end
          end
      end
  end.

Definition encode_v3_path_out (tokens : list string) (fees : list Z)
  : bytes * option exn :=
  if (2 <=? Z.of_nat (length tokens))
     && (Z.of_nat (length fees) =? Z.of_nat (length tokens) - 1)
  then
    let out : bytes := [] in
    match tokens !! 0%nat with
    | None => (out, Some IndexError)
    | Some t0 =>
        match _to20 t0 with
        | inl e => (out, Some e)
        | inr tb => encode_hops tokens 0 fees (out ++ tb)
        end
    end
  else ([], Some (AssertionError "bad path lens")).

Definition encode_v3_path (tokens : list string) (fees : list Z) : result bytes :=
  match encode_v3_path_out tokens fees with
  | (out, None) => inr out
  | (_, Some e) => inl e
  end.


(** ** Effects *)

(** The settings the process was started with. *)
Variable cfg : config.

(** A computation runs on the state of the world and on the trace of the
    interactions so far, and either raises or returns. *)
Definition M (A : Type) : Type := W * list event -> result A * (W * list event).

#[global] Instance M_ret : MRet M := fun _ x s => (inr x, s).
#[global] Instance M_bind : MBind M :=
  fun _ _ f m s =>
    match m s with
    | (inl e, s') => (inl e, s')
    | (inr x, s') => f x s'
    end.

(** A pure step that may raise. *)
Definition lift {A : Type} (r : result A) : M A := fun s => (r, s).

(** [try: body / except Exception as e: handler(e)] *)
Definition try_except {A : Type} (body : M A) (handler : exn -> M A) : M A :=
  fun s =>
    match body s with
    | (inl e, s') => handler e s'
    | (inr x, s') => (inr x, s')
    end.

(** One request to the outside, recorded with its answer. *)
Definition call {X : Type} (o : op X) : M X :=
  fun s =>
    let '(r, w') := handle X o s.1 in
    (r, (w', s.2 ++ [Ev o r])).

(** ** Utils *)

(** The default handed to [latest.get] is an argument, so [w3.eth.gas_price]
    is queried whether or not the block has a base fee. *)
Definition suggest_fees : M (Z * Z) :=
  max_priority ← try_except (call max_priority_fee)
                   (fun _ => lift (to_wei_ether (Dec 2 (-7))));
  latest ← call get_block_latest;
  gp ← call gas_price;
  let base := default gp (baseFeePerGas latest) in
  let max_fee := base * 2 + max_priority in
  mret (max_fee, max_priority).

Definition send_tx (tx : txdict) (signer : account) : M receipt :=
  nonce ← call (get_transaction_count (address signer));
  let tx := <["nonce" := VInt nonce]> tx in
  cid ← call chain_id;
  let tx := <["chainId" := VInt cid]> tx in
  fees ← suggest_fees;
  let tx := setdefault "maxFeePerGas" (VInt fees.1) tx in
  let tx := setdefault "maxPriorityFeePerGas" (VInt fees.2) tx in
  gas ← call (estimate_gas (<["from" := VStr (address signer)]> tx));
  let tx := <["gas" := VInt gas]> tx in
  signed ← call (sign_transaction tx (key signer));
  txh ← call (send_raw_transaction (rawTransaction signed));
  rcpt ← call (wait_for_transaction_receipt txh);
  mret rcpt.

(** ** Slippage floor *)

(** The two assignments of [encode_flash_params_for_roundtrip] that compute
    the floor, under the names of the variables they assign; [//] on Python
    integers is floor division, as [Z.div] is for a positive divisor. *)
Definition repay_target (amount_in_wei premium_estimate_wei : Z) : Z :=
  amount_in_wei + premium_estimate_wei.

Definition min_out (amount_in_wei premium_estimate_wei safety_buffer_bps : Z) : Z :=
  let repay_target := repay_target amount_in_wei premium_estimate_wei in
  Z.max (repay_target + repay_target * safety_buffer_bps / 10000) 1.

Definition encode_flash_params_for_roundtrip (asset_in mid_token : string)
    (fee_in_to_mid fee_mid_to_out amount_in_wei : Z)
    (premium_estimate_wei safety_buffer_bps : Z) : M (bytes * Z * Z) :=
  asset_in ← lift (to_checksum asset_in);
  mid_token ← lift (to_checksum mid_token);
  path ← lift (encode_v3_path [asset_in; mid_token; asset_in]
                 [fee_in_to_mid; fee_mid_to_out]);
  quoter ← lift (to_checksum (UNIV3_QUOTER cfg));
  q ← call (quoteExactInput_call quoter path amount_in_wei);
  let quoted_out := amountOut q in
  let min_out := min_out amount_in_wei premium_estimate_wei safety_buffer_bps in
  params_bytes ← lift (abi_encode_bytes_uint256 path min_out);
  mret (params_bytes, min_out, quoted_out).

(** ** Core flows *)

Definition split_via_goldstem (amount_eth : pydecimal) (root_account : account)
    (goldstem_contract : contract) : M unit :=
  value ← lift (to_wei_ether amount_eth);
  let tx : txdict :=
    <["from" := VStr (address root_account)]>
      (<["value" := VInt value]>
         (<["to" := VStr (contract_address goldstem_contract)]> ∅)) in
  _ ← send_tx tx root_account;
  mret tt.

(** The early [return]s of the Python function are the branches that end in
    [mret tt]; an exception that no [except] clause catches leaves through
    [inl]. *)
Definition flashloan_and_arb (seed_account root_account : account)
    (flash_executor_contract goldstem_contract : contract) : M unit :=
  if negb (truthy (FLASH_EXECUTOR_ADDRESS cfg))
     || negb (truthy (FLASH_ASSET cfg))
     || (FLASH_AMOUNT_WEI cfg <=? 0)
  then mret tt
  else
    let flash_asset := default "" (FLASH_ASSET cfg) in
    (* Ensure root owns the executor *)
    owner ← try_except
              (owner ← call (owner_call flash_executor_contract);
               mret (Some owner))
              (fun _ => mret None);
    match owner with
    | None => mret tt
    | Some owner =>
        if negb (String.eqb owner (address root_account)) then mret tt
        else
          (* Build Uniswap V3 roundtrip params for the borrowed asset *)
          built ← try_except
                    (premium ← lift (to_wei_ether (Dec 5 (-7)));
                     r ← encode_flash_params_for_roundtrip
                           flash_asset (USDC cfg) 500 500
                           (FLASH_AMOUNT_WEI cfg) premium 30;
                     mret (Some r))
                    (fun _ => mret None);
          match built with
          | None => mret tt
          | Some (params_bytes, _, _) =>
              (* Owner must call runSimpleFlash *)
              asset ← lift (to_checksum flash_asset);
              tx ← call (runSimpleFlash_build flash_executor_contract asset
                           (FLASH_AMOUNT_WEI cfg) params_bytes
                           (<["from" := VStr (address root_account)]> ∅));
              rcpt ← send_tx tx root_account;
              (* Decode FlashCompleted from receipt *)
              profit ← try_except
                         (evts ← call (process_receipt flash_executor_contract rcpt);
                          match last evts with
                          | Some ev =>
                              match args ev !! "profitWei" with
                              | Some p => mret p
                              | None => lift (inl (KeyError "profitWei"))
                              end
                          | None => mret 0
                          end)
                         (fun _ => mret 0);
              (* Route to Goldstem if profitable *)
              if MIN_PROFIT_WEI cfg <? profit
              then split_via_goldstem (Dec 1 (-5)) root_account goldstem_contract
              else mret tt
          end
    end.


(** ** The encoded path, read back *)

(** The layout the pricing and execution contracts expect:
    [addr0 | fee0 | addr1 | fee1 | addr2 | ...], addresses as they are, fees
    as three big-endian bytes. *)
Fixpoint path_hops (fees : list Z) (addrs : list bytes) : bytes :=
  match fees, addrs with
  | f :: fees', a :: addrs' => be_bytes 3 f ++ a ++ path_hops fees' addrs'
  | _, _ => []
  end.

Definition path_layout (addrs : list bytes) (fees : list Z) : bytes :=
  match addrs with
  | a0 :: addrs' => a0 ++ path_hops fees addrs'
  | [] => []
  end.

(** Reading a path by field width: 20 bytes, then 3 + 20 bytes per hop. *)
Fixpoint decode_hops (hops : nat) (b : bytes) : list Z * list bytes :=
  match hops with
  | O => ([], [])
  | S k =>
      let rest := decode_hops k (drop 23 b) in
      (int_from_bytes (take 3 b) :: rest.1, take 20 (drop 3 b) :: rest.2)
  end.

Definition decode_v3_path (b : bytes) : option (list bytes * list Z) :=
  if (20 <=? length b)%nat && ((length b - 20) mod 23 =? 0)%nat then
    let rest := decode_hops ((length b - 20) / 23) (drop 20 b) in
    Some (take 20 b :: rest.2, rest.1)
  else None.

(** The failed assertion of [encode_v3_path] is the error the design calls
    [MalformedPath]. *)
Definition MalformedPath : exn := AssertionError "bad path lens".

(** A fee tier that fits the three bytes reserved for it. *)
Definition fee_fits (f : Z) : Prop := 0 <= f < 2 ^ 24.

(** What a well-formed address string stands for: it converts, to 20 bytes,
    and the hex text of those bytes is the string's own digits in lower
    case. *)
Definition address_of (t : string) (a : bytes) : Prop :=
  _to20 t = inr a /\ length a = 20%nat
  /\ hexlify a = map lower_ascii (remove_0x_prefix (list_ascii_of_string t)).

(** The [minOut] word of an encoded [(bytes path, uint256 minOut)] tuple: the
    second 32-byte head word. *)
Definition params_min_out (params : bytes) : Z :=
  int_from_bytes (take 32 (drop 32 params)).

(** The profit a decoder answer carries: the [profitWei] argument of the last
    event found.  There is none when the decoder raised, found no event, or
    the event has no such argument. *)
Definition decoded_profit (r : result (list event_data)) : option Z :=
  match r with
  | inr evts =>
      match last evts with
      | Some ev => args ev !! "profitWei"
      | None => None
      end
  | inl _ => None
  end.

(** The transfer [split_via_goldstem] asks for keeps these fields all the way
    to signing. *)
Definition transfers (t : txdict) (from to : string) (wei : Z) : Prop :=
  t !! "from" = Some (VStr from) /\ t !! "to" = Some (VStr to)
  /\ t !! "value" = Some (VInt wei).

(** The events of the follow-up routing action: one invocation of [send_tx]
    by the operating account, for a transfer of [wei] to the treasury. *)
Definition routing (root_account : account) (goldstem_contract : contract)
    (wei : Z) (post : list event) : Prop :=
  submitter_invocations post = 1%nat
  /\ decodings post = []
  /\ (exists r evs', post = Ev (get_transaction_count (address root_account)) r :: evs')
  /\ (length (signed_txs post) <= 1)%nat
  /\ Forall (fun t => transfers t (address root_account)
                        (contract_address goldstem_contract) wei)
       (signed_txs post).

(** The guard at the top of [flashloan_and_arb]: executor, asset and a
    positive amount are all set. *)
Definition flash_configured : bool :=
  negb (negb (truthy (FLASH_EXECUTOR_ADDRESS cfg))
        || negb (truthy (FLASH_ASSET cfg))
        || (FLASH_AMOUNT_WEI cfg <=? 0)).

End Bot.

(** ** A scripted world for examples *)

(** Answers fixed in advance: what [owner()] returns, the quote, the receipt
    of every transaction and what the log decoder finds.  The other requests
    succeed with plain values. *)
Record mock := {
  mock_owner : result string;
  mock_quote : result quote_result;
  mock_receipt : result receipt;
  mock_events : result (list event_data)
}.

Definition mock_handle (X : Type) (o : op X) (m : mock) : result X * mock :=
  (match o in op T return result T with
   | owner_call _ => mock_owner m
   | quoteExactInput_call _ _ _ => mock_quote m
   | runSimpleFlash_build _ _ _ params overrides =>
       inr (<["data" := VBytes params]> overrides)
   | get_transaction_count _ => inr 7
   | chain_id => inr 42161
   | max_priority_fee => inl TypeError
   | get_block_latest => inr {| baseFeePerGas := Some 100000000 |}
   | gas_price => inr 100000000
   | estimate_gas _ => inr 21000
   | sign_transaction _ _ => inr {| rawTransaction := [x02] |}
   | send_raw_transaction _ => inr [xaa]
   | wait_for_transaction_receipt _ => mock_receipt m
   | process_receipt _ _ => mock_events m
   end, m).

Definition mock_w3 : Web3 :=
  {| W := mock; handle := mock_handle; eip55_upper := fun _ _ => false |}.

Definition WETH : string := "0x82aF49447D8a07e3bd95BD0d56f35241523fBab1".

Definition root0 : account :=
  {| address := "0x1111111111111111111111111111111111111111"; key := [x01] |}.
Definition seed0 : account :=
  {| address := "0x2222222222222222222222222222222222222222"; key := [x02] |}.
Definition executor0 : contract :=
  {| contract_address := "0x3333333333333333333333333333333333333333" |}.
Definition goldstem0 : contract :=
  {| contract_address := "0x4444444444444444444444444444444444444444" |}.

(** Settings with the source's default addresses and a threshold of 400. *)
Definition cfg0 : config :=
  {| FLASH_EXECUTOR_ADDRESS := Some (contract_address executor0);
     FLASH_ASSET := Some WETH;
     FLASH_AMOUNT_WEI := 1000000000000000000;
     MIN_PROFIT_WEI := 400;
     UNIV3_QUOTER := "0x61fFE01658eEe6eCeC4dFAbFfC31aBa7b4D48c57";
     USDC := "0xaf88d065e77c8cC2239327C5EDb3A432268e5831" |}.

Definition quote0 (out : Z) : quote_result :=
  {| amountOut := out; sqrtPriceX96AfterList := [];
     initializedTicksCrossedList := []; gasEstimate := 150000 |}.

Definition flash_completed (profitWei : Z) : event_data :=
  {| args := {["profitWei" := profitWei]} |}.

Definition receipt_ok : receipt := {| status := 1; gasUsed := 210000; logs := [[x01]] |}.
Definition receipt_reverted : receipt := {| status := 0; gasUsed := 90000; logs := [] |}.

(** A run that succeeds on chain and reports [profitWei]. *)
Definition mock_profit (quoted profitWei : Z) : mock :=
  {| mock_owner := inr (address root0);
     mock_quote := inr (quote0 quoted);
     mock_receipt := inr receipt_ok;
     mock_events := inr [flash_completed profitWei] |}.

(** The executor is owned by somebody else. *)
Definition mock_foreign_owner : mock :=
  {| mock_owner := inr (address seed0);
     mock_quote := inr (quote0 1002000000000000000);
     mock_receipt := inr receipt_ok;
     mock_events := inr [flash_completed 500] |}.

(** The flash transaction is mined and reverts: no logs, nothing to decode. *)
Definition mock_reverted : mock :=
  {| mock_owner := inr (address root0);
     mock_quote := inr (quote0 1002000000000000000);
     mock_receipt := inr receipt_reverted;
     mock_events := inr [] |}.

(** The receipt is fine but the decoder raises. *)
Definition mock_undecodable : mock :=
  {| mock_owner := inr (address root0);
     mock_quote := inr (quote0 1002000000000000000);
     mock_receipt := inr receipt_ok;
     mock_events := inl (TransportError "ABI mismatch") |}.

Definition run_flash (m : mock) : result unit * (mock * list event) :=
  flashloan_and_arb (w3 := mock_w3) cfg0 seed0 root0 executor0 goldstem0 (m, []).


Definition result_of (m : mock) : result unit := (run_flash m).1.
Definition trace_of (m : mock) : list event := (run_flash m).2.2.

Definition run_params (m : mock) : result (bytes * Z * Z) * (mock * list event) :=
  encode_flash_params_for_roundtrip (w3 := mock_w3) cfg0 WETH (USDC cfg0)
    500 500 1000000 0 30 (m, []).

Definition params_of (m : mock) : bytes :=
  match (run_params m).1 with
  | inr (params_bytes, _, _) => params_bytes
  | inl _ => []
  end.

(** ** Further observations on a trace *)

(** The transactions handed to the signer, each with the key used and the
    signer's answer. *)
Definition signings (tr : list event) : list (txdict * bytes * result signed_tx) :=
  omap (fun e => match e with
                 | Ev (sign_transaction tx k) r => Some (tx, k, r)
                 | _ => None
                 end) tr.

(** The raw transactions sent to the network, each with the hash that came
    back. *)
Definition broadcasts (tr : list event) : list (bytes * result bytes) :=
  omap (fun e => match e with
                 | Ev (send_raw_transaction raw) r => Some (raw, r)
                 | _ => None
                 end) tr.

Definition gas_estimates (tr : list event) : list (txdict * result Z) :=
  omap (fun e => match e with
                 | Ev (estimate_gas tx) r => Some (tx, r)
                 | _ => None
                 end) tr.

Definition nonce_queries (tr : list event) : list (string * result Z) :=
  omap (fun e => match e with
                 | Ev (get_transaction_count a) r => Some (a, r)
                 | _ => None
                 end) tr.


Definition owner_reads (tr : list event) : list (contract * result string) :=
  omap (fun e => match e with
                 | Ev (owner_call c) r => Some (c, r)
                 | _ => None
                 end) tr.

Definition quotes (tr : list event)
  : list (string * bytes * Z * result quote_result) :=
  omap (fun e => match e with
                 | Ev (quoteExactInput_call quoter path amountIn) r =>
                     Some (quoter, path, amountIn, r)
                 | _ => None
                 end) tr.

(** The [runSimpleFlash] transactions the program asked to have built:
    asset, amount, params and the overrides passed to [build_transaction]. *)
Definition builds (tr : list event) : list (string * Z * bytes * txdict) :=
  omap (fun e => match e with
                 | Ev (runSimpleFlash_build _ asset amount params overrides) _ =>
                     Some (asset, amount, params, overrides)
                 | _ => None
                 end) tr.

(** The [path] part of an encoded [(bytes path, uint256 minOut)] tuple: the
    length word at offset 64 and that many bytes after it. *)
Definition params_path (params : bytes) : bytes :=
  take (Z.to_nat (int_from_bytes (take 32 (drop 64 params)))) (drop 96 params).

(** The keys [send_tx] writes into the transaction it is given. *)
Definition send_tx_keys : list string :=
  ["nonce"; "chainId"; "maxFeePerGas"; "maxPriorityFeePerGas"; "gas"].

Section BotMore.

Context `{w3 : Web3}.

Definition seed_to_root (amount_eth : pydecimal)
    (seed_account root_account : account) : M unit :=
  value ← lift (to_wei_ether amount_eth);
  let tx : txdict :=
    <["from" := VStr (address seed_account)]>
      (<["value" := VInt value]>
         (<["to" := VStr (address root_account)]> ∅)) in
  _ ← send_tx tx seed_account;
  mret tt.

(** The checksum form of an address, from its digits in lower case. *)
Definition checksum_of_digits (lower_digits : list ascii) : string :=
  string_of_list_ascii
    ("0" :: "x" ::
     imap (fun i c => if eip55_upper lower_digits i then upper_ascii c else c)
       lower_digits)%char.

(** The digits of an address string in lower case: what the string means,
    whatever its letter case and whether or not it carries the prefix. *)
Definition address_digits (addr : string) : list ascii :=
  map lower_ascii (remove_0x_prefix (list_ascii_of_string addr)).

End BotMore.

(** What one invocation of [send_tx] for [tx], signed by [signer] and ending
    in [res], leaves in the trace. *)
Definition submission (signer : account) (tx : txdict) (evs : list event)
    (res : result receipt) : Prop :=
  submitter_invocations evs = 1%nat
  /\ (exists rn, nonce_queries evs = [(address signer, rn)])
  /\ owner_reads evs = [] /\ quotes evs = [] /\ builds evs = []
  /\ decodings evs = []
  /\ (length (signings evs) <= 1)%nat
  /\ (length (broadcasts evs) <= 1)%nat
  /\ Forall (fun x => x.1.2 = key signer
                      /\ forall k, ~ In k send_tx_keys -> x.1.1 !! k = tx !! k)
       (signings evs)
  /\ match res with
     | inr rcpt =>
         receipts evs = [rcpt] /\ length (signings evs) = 1%nat
         /\ length (broadcasts evs) = 1%nat
     | inl _ => receipts evs = []
     end.

(** The transaction dict of a plain transfer, as [seed_to_root] and
    [split_via_goldstem] build it. *)
Definition transfer_tx (from to : string) (wei : Z) : txdict :=
  <["from" := VStr from]> (<["value" := VInt wei]> (<["to" := VStr to]> ∅)).

(** ** The process around the flows *)

(** What [main] and [load_abi] can raise on top of the exceptions of the
    flows. *)
Inductive host_exn : Type :=
| Raised (e : exn)
| EnvironmentError (msg : string)
| ConnectionError (msg : string)
| FileNotFoundError (msg : string)
| OSError (msg : string).

Abbreviation host_result := (sum host_exn).

(** The value of a JSON document as [load_abi] uses it: an object, of which
    only the members are looked at, or anything else.  The members are kept
    as their text. *)
Record abi := { abi_text : string }.

Inductive json : Type :=
| JObject (members : gmap string abi)
| JOther.

(** Requests of [main] and [load_abi] that are not requests of the flows:
    the connection probe, key parsing, the file system, contract binding and
    balance reads. *)
Inductive host_op : Type -> Type :=
| is_connected : host_op bool
| from_key (k : string) : host_op account
| path_exists (path : string) : host_op bool
| json_load (path : string) : host_op json
| contract_of (addr : string) (a : abi) : host_op contract
| get_balance (addr : string) : host_op Z.

(** The trace of the whole process: the requests of the flows, as before, and
    the requests above, in the order they were made. *)
Inductive host_event : Type :=
| HChain (e : event)
| HHost {X : Type} (o : host_op X) (r : host_result X).

(** The part of a process trace the flows wrote. *)
Definition chain_trace (tr : list host_event) : list event :=
  omap (fun e => match e with HChain c => Some c | HHost _ _ => None end) tr.

(** The accounts [from_key] handed out, in order. *)
Definition accounts (tr : list host_event) : list account :=
  omap (fun e => match e with
                 | HHost (from_key _) (inr a) => Some a
                 | _ => None
                 end) tr.

(** The contracts bound by [w3.eth.contract], in order. *)
Definition bound_contracts (tr : list host_event) : list contract :=
  omap (fun e => match e with
                 | HHost (contract_of _ _) (inr c) => Some c
                 | _ => None
                 end) tr.

(** The files opened and parsed. *)
Definition files_read (tr : list host_event) : list string :=
  omap (fun e => match e with
                 | HHost (json_load p) _ => Some p
                 | _ => None
                 end) tr.

(** The settings [main] reads besides those of the flash flow, with the two
    artifact paths the module computes when it is loaded. *)
Record main_config := {
  RPC_URL : option string;
  SEED_KEY : option string;
  ROOT_KEY : option string;
  GOLDSTEM_ADDRESS : option string;
  GOLDSTEM_ABI_PATH : string;
  FLASH_EXECUTOR_ABI_PATH : string;
  flow_config : config
}.

(** The host answers the requests of the flows and its own on one state. *)
Class Host := {
  host_web3 :: Web3;
  host_handle : forall X : Type, host_op X -> W -> host_result X * W
}.

Section Process.

Context `{host : Host}.

Definition HM (A : Type) : Type :=
  W * list host_event -> host_result A * (W * list host_event).

#[global] Instance HM_ret : MRet HM := fun _ x s => (inr x, s).
#[global] Instance HM_bind : MBind HM :=
  fun _ _ f m s =>
    match m s with
    | (inl e, s') => (inl e, s')
    | (inr x, s') => f x s'
    end.

Definition hraise {A : Type} (e : host_exn) : HM A := fun s => (inl e, s).

Definition htry_except {A : Type} (body : HM A) (handler : host_exn -> HM A)
  : HM A :=
  fun s =>
    match body s with
    | (inl e, s') => handler e s'
    | (inr x, s') => (inr x, s')
    end.

Definition hcall {X : Type} (o : host_op X) : HM X :=
  fun s =>
    let '(r, w') := host_handle X o s.1 in
    (r, (w', s.2 ++ [HHost o r])).

(** A pure step of the flows that may raise. *)
Definition hlift {A : Type} (r : result A) : HM A :=
  fun s => (match r with inl e => inl (Raised e) | inr x => inr x end, s).

(** A flow run from the process: its requests join the process trace and
    its exception, if any, is raised in the process. *)
Definition run_flow {A : Type} (m : M A) : HM A :=
  fun s =>
    let '(r, (w', evs)) := m (s.1, []) in
    (match r with inl e => inl (Raised e) | inr x => inr x end,
     (w', s.2 ++ map HChain evs)).

Definition load_abi (path : string) : HM abi :=
  found ← hcall (path_exists path);
  if negb found then hraise (FileNotFoundError ("ABI not found: " +:+ path))
  else
    doc ← hcall (json_load path);
    match doc with
    | JObject members =>
        match members !! "abi" with
        | Some a => mret a
        | None => hraise (Raised (KeyError "abi"))
        end
    | JOther => hraise (Raised TypeError)
    end.

(** [main], without its console output.  The chain id is read for the
    banner; the executor's owner is read for the banner too, and a failure
    there is only reported. *)
Definition main (mc : main_config) : HM unit :=
  let cfg := flow_config mc in
  if negb (truthy (RPC_URL mc))
  then hraise (EnvironmentError "ARBITRUM_MAINNET_RPC_URL not set")
  else
    connected ← hcall is_connected;
    if negb connected
    then hraise (ConnectionError "Failed to connect to RPC_URL")
    else
      _ ← run_flow (call chain_id);
      if negb (truthy (SEED_KEY mc)) || negb (truthy (ROOT_KEY mc))
      then hraise (EnvironmentError "SEED_KEY and ROOT_KEY must be set")
      else
        seed ← hcall (from_key (default "" (SEED_KEY mc)));
        root ← hcall (from_key (default "" (ROOT_KEY mc)));
        if negb (truthy (GOLDSTEM_ADDRESS mc))
        then hraise (EnvironmentError "GOLDSTEM_ADDRESS not set")
        else
          goldstem_abi ← load_abi (GOLDSTEM_ABI_PATH mc);
          goldstem_address ← hlift (to_checksum (default "" (GOLDSTEM_ADDRESS mc)));
          goldstem ← hcall (contract_of goldstem_address goldstem_abi);
          flash_executor ←
            (if truthy (FLASH_EXECUTOR_ADDRESS cfg) then
               flash_abi ← load_abi (FLASH_EXECUTOR_ABI_PATH mc);
               executor_address ←
                 hlift (to_checksum (default "" (FLASH_EXECUTOR_ADDRESS cfg)));
               flash_executor ← hcall (contract_of executor_address flash_abi);
               _ ← htry_except
                     (_ ← run_flow (call (owner_call flash_executor)); mret tt)
                     (fun _ => mret tt);
               mret (Some flash_executor)
             else mret None);
          (* Balances *)
          sbal ← hcall (get_balance (address seed));
          rbal ← hcall (get_balance (address root));
          (* Safety: verify Root is owner *)
          proceed ← htry_except
                      (owner ← run_flow (call (owner_call goldstem));
                       mret (String.eqb owner (address root)))
                      (fun _ => mret true);
          if negb proceed then mret tt
          else
            (* Dust test (Seed -> Root -> Goldstem) *)
            _ ← run_flow (seed_to_root (Dec 3 (-5)) seed root);
            _ ← run_flow (split_via_goldstem (Dec 2 (-5)) root goldstem);
            (* Flashloan *)
            match flash_executor with
            | Some flash_executor =>
                run_flow (flashloan_and_arb cfg seed root flash_executor goldstem)
            | None => mret tt
            end.

End Process.

(** ** A scripted host *)

Definition mock_host_handle (X : Type) (o : host_op X) (m : mock)
  : host_result X * mock :=
  (match o in host_op T return host_result T with
   | is_connected => inr true
   | from_key k =>
       inr (if String.eqb k "seed-key" then seed0 else root0)
   | path_exists _ => inr true
   | json_load _ => inr (JObject {["abi" := {| abi_text := "[]" |}]})
   | contract_of addr _ => inr {| contract_address := addr |}
   | get_balance _ => inr 1000000000000000000
   end, m).

Definition mock_host : Host :=
  {| host_web3 := mock_w3; host_handle := mock_host_handle |}.

Definition main_cfg0 : main_config :=
  {| RPC_URL := Some "https://arb1.example/rpc";
     SEED_KEY := Some "seed-key";
     ROOT_KEY := Some "root-key";
     GOLDSTEM_ADDRESS := Some (contract_address goldstem0);
     GOLDSTEM_ABI_PATH := "../artifacts/contracts/Goldstem.sol/Goldstem.json";
     FLASH_EXECUTOR_ABI_PATH :=
       "../artifacts/contracts/FlashloanExecutor.sol/FlashloanExecutor.json";
     flow_config := cfg0 |}.

(** The owner reads raise. *)
Definition mock_owner_unreadable : mock :=
  {| mock_owner := inl (TransportError "execution reverted");
     mock_quote := inr (quote0 1002000000000000000);
     mock_receipt := inr receipt_ok;
     mock_events := inr [flash_completed 500] |}.

(** The pricing contract does not answer. *)
Definition mock_quote_down : mock :=
  {| mock_owner := inr (address root0);
     mock_quote := inl (TransportError "execution reverted");
     mock_receipt := inr receipt_ok;
     mock_events := inr [flash_completed 500] |}.

(** No receipt comes back. *)
Definition mock_receipt_lost : mock :=
  {| mock_owner := inr (address root0);
     mock_quote := inr (quote0 1002000000000000000);
     mock_receipt := inl (TransportError "timeout");
     mock_events := inr [flash_completed 500] |}.

(** The same settings without an executor address. *)
Definition main_cfg_dust_only : main_config :=
  {| RPC_URL := RPC_URL main_cfg0;
     SEED_KEY := SEED_KEY main_cfg0;
     ROOT_KEY := ROOT_KEY main_cfg0;
     GOLDSTEM_ADDRESS := GOLDSTEM_ADDRESS main_cfg0;
     GOLDSTEM_ABI_PATH := GOLDSTEM_ABI_PATH main_cfg0;
     FLASH_EXECUTOR_ABI_PATH := FLASH_EXECUTOR_ABI_PATH main_cfg0;
     flow_config :=
       {| FLASH_EXECUTOR_ADDRESS := None;
          FLASH_ASSET := FLASH_ASSET cfg0;
          FLASH_AMOUNT_WEI := FLASH_AMOUNT_WEI cfg0;
          MIN_PROFIT_WEI := MIN_PROFIT_WEI cfg0;
          UNIV3_QUOTER := UNIV3_QUOTER cfg0;
          USDC := USDC cfg0 |} |}.

(** The same settings without the operating account's key. *)
Definition main_cfg_no_root_key : main_config :=
  {| RPC_URL := RPC_URL main_cfg0;
     SEED_KEY := SEED_KEY main_cfg0;
     ROOT_KEY := None;
     GOLDSTEM_ADDRESS := GOLDSTEM_ADDRESS main_cfg0;
     GOLDSTEM_ABI_PATH := GOLDSTEM_ABI_PATH main_cfg0;
     FLASH_EXECUTOR_ABI_PATH := FLASH_EXECUTOR_ABI_PATH main_cfg0;
     flow_config := cfg0 |}.

Definition run_main_with (mc : main_config) (m : mock)
  : host_result unit * (mock * list host_event) :=
  main (host := mock_host) mc (m, []).

Definition run_main (m : mock) : host_result unit * (mock * list host_event) :=
  run_main_with main_cfg0 m.

(** A stretch of flow requests in which no transaction is prepared: no nonce
    query, signature, broadcast, receipt, quote, build or decoding. *)
Definition quiet (tr : list event) : Prop :=
  submitter_invocations tr = 0%nat
  /\ nonce_queries tr = [] /\ signings tr = [] /\ broadcasts tr = []
  /\ receipts tr = [] /\ quotes tr = [] /\ builds tr = [] /\ decodings tr = [].

(** All four settings [main] insists on are present. *)
Definition main_configured (mc : main_config) : bool :=
  truthy (RPC_URL mc) && truthy (SEED_KEY mc) && truthy (ROOT_KEY mc)
  && truthy (GOLDSTEM_ADDRESS mc).

(** * Properties *)

Section Properties.

Context `{w3 : Web3}.
Variable cfg : config.

(** ** Bytes and integers *)

Lemma byte_to_of_Z z : byte_to_Z (byte_of_Z z) = z mod 256.
Proof.
  unfold byte_to_Z, byte_of_Z.
  assert (Hr : 0 <= z mod 256 < 256) by (apply Z.mod_pos_bound; lia).
  destruct (Byte.of_N (Z.to_N (z mod 256))) as [b|] eqn:E.
  - apply Byte.to_of_N in E. rewrite E. lia.
  - apply Byte.of_N_None_iff in E. lia.
Qed.

Lemma be_bytes_length len z : length (be_bytes len z) = len.
Proof.
  revert z. induction len as [|k IH]; intros z; simpl; [done|].
  rewrite length_app, IH. simpl. lia.
Qed.

Lemma int_from_bytes_app b1 b2 :
  int_from_bytes (b1 ++ b2)
  = int_from_bytes b1 * 256 ^ Z.of_nat (length b2) + int_from_bytes b2.
Proof.
  unfold int_from_bytes.
  rewrite fold_left_app.
  generalize (fold_left (fun acc x => acc * 256 + byte_to_Z x) b1 0).
  induction b2 as [|x b2 IH] using rev_ind; intros a.
  - simpl. lia.
  - rewrite !fold_left_app. simpl. rewrite IH.
    rewrite length_app. simpl length.
    replace (Z.of_nat (length b2 + 1)) with (Z.of_nat (length b2) + 1) by lia.
    rewrite Z.pow_add_r by lia.
    set (f := fold_left _ b2 0). lia.
Qed.

Lemma int_from_be_bytes len z :
  int_from_bytes (be_bytes len z) = z mod 256 ^ Z.of_nat len.
Proof.
  revert z. induction len as [|k IH]; intros z.
  - simpl. by rewrite Z.mod_1_r.
  - cbn [be_bytes]. rewrite int_from_bytes_app, IH.
    change (int_from_bytes [byte_of_Z (z mod 256)])
      with (0 * 256 + byte_to_Z (byte_of_Z (z mod 256))).
    rewrite byte_to_of_Z. cbn [length].
    replace (Z.of_nat (S k)) with (1 + Z.of_nat k) by lia.
    rewrite Z.pow_add_r by lia.
    change (256 ^ Z.of_nat 1) with 256. change (256 ^ 1) with 256.
    rewrite Z.rem_mul_r by lia. rewrite Z.mod_mod by lia. lia.
Qed.

Lemma int_to_bytes_ok z len :
  0 <= z < 256 ^ Z.of_nat len -> int_to_bytes z len = inr (be_bytes len z).
Proof.
  intros [H0 H1]. unfold int_to_bytes.
  destruct (Z.ltb_spec z 0); [lia|].
  destruct (Z.leb_spec (256 ^ Z.of_nat len) z); [lia|done].
Qed.

Lemma int_to_bytes_overflow z len :
  z < 0 \/ 256 ^ Z.of_nat len <= z -> int_to_bytes z len = inl OverflowError.
Proof.
  intros H. unfold int_to_bytes.
  destruct (Z.ltb_spec z 0); [done|].
  destruct (Z.leb_spec (256 ^ Z.of_nat len) z); [done|lia].
Qed.

Lemma int_to_bytes_round z len b :
  int_to_bytes z len = inr b ->
  length b = len /\ int_from_bytes b = z /\ 0 <= z < 256 ^ Z.of_nat len.
Proof.
  unfold int_to_bytes.
  destruct (Z.ltb_spec z 0); [done|].
  destruct (Z.leb_spec (256 ^ Z.of_nat len) z); [done|].
  intros [= <-]. rewrite be_bytes_length, int_from_be_bytes.
  rewrite Z.mod_small by lia. lia.
Qed.

(** ** Hexadecimal text *)

Lemma hex_val_lower c : hex_val (lower_ascii c) = hex_val c.
Proof. destruct c as [[] [] [] [] [] [] [] []]; reflexivity. Qed.

Lemma hex_val_upper c : hex_val (upper_ascii c) = hex_val c.
Proof. destruct c as [[] [] [] [] [] [] [] []]; reflexivity. Qed.

Lemma hex_val_digit c n :
  hex_val c = Some n -> (n < 16)%N /\ hex_digit n = lower_ascii c.
Proof.
  destruct c as [[] [] [] [] [] [] [] []]; vm_compute; intros [= <-]; done.
Qed.

(** Two texts with the same digit values denote the same bytes. *)
Lemma fromhex_ext l1 l2 :
  Forall2 (fun a b => hex_val a = hex_val b) l1 l2 -> fromhex l1 = fromhex l2.
Proof.
  revert l2.
  cut (forall l2, (Forall2 (fun a b => hex_val a = hex_val b) l1 l2 ->
                   fromhex l1 = fromhex l2)
                  /\ (forall c d, hex_val c = hex_val d ->
                      Forall2 (fun a b => hex_val a = hex_val b) l1 l2 ->
                      fromhex (c :: l1) = fromhex (d :: l2))).
  { intros H l2. apply H. }
  induction l1 as [|a l1 IH]; intros l2; split.
  - inversion 1; done.
  - intros c d Hcd. inversion 1; done.
  - inversion 1 as [|? b ? l2' Hab Hl]; subst. by apply (IH l2').
  - intros c d Hcd. inversion 1 as [|? b ? l2' Hab Hl]; subst.
    cbn [fromhex]. rewrite Hcd, Hab.
    destruct (IH l2') as [IH1 _]. by rewrite (IH1 Hl).
Qed.

Lemma fromhex_total k : forall l,
  forallb is_hex_digit l = true -> length l = (2 * k)%nat ->
  exists b, fromhex l = inr b /\ length b = k /\ hexlify b = map lower_ascii l.
Proof.
  induction k as [|k IH]; intros l Hhex Hlen.
  - destruct l; [|done]. by exists [].
  - destruct l as [|c1 [|c2 l]]; simpl in Hlen; try lia.
    cbn [forallb] in Hhex.
    apply andb_true_iff in Hhex as [H1 Hhex].
    apply andb_true_iff in Hhex as [H2 Hhex].
    destruct (IH l Hhex) as (b & Hb & Hbl & Hbh); [lia|].
    unfold is_hex_digit in H1, H2.
    destruct (hex_val c1) as [h|] eqn:E1; [|done].
    destruct (hex_val c2) as [d|] eqn:E2; [|done].
    apply hex_val_digit in E1 as E1'. destruct E1' as [Hh Hh'].
    apply hex_val_digit in E2 as E2'. destruct E2' as [Hd Hd'].
    exists (byte_of_Z (Z.of_N (16 * h + d)) :: b).
    cbn [fromhex]. rewrite E1, E2, Hb. split; [done|].
    split; [simpl; lia|].
    cbn [hexlify map]. rewrite Hbh.
    assert (Ht : Byte.to_N (byte_of_Z (Z.of_N (16 * h + d))) = (16 * h + d)%N).
    { pose proof (byte_to_of_Z (Z.of_N (16 * h + d))) as Hz.
      unfold byte_to_Z in Hz. rewrite Z.mod_small in Hz by lia. lia. }
    rewrite Ht.
    replace ((16 * h + d) / 16)%N with h.
    2:{ apply (N.div_unique _ _ h d); lia. }
    replace ((16 * h + d) mod 16)%N with d.
    2:{ apply (N.mod_unique _ _ h d); lia. }
    by rewrite Hh', Hd'.
Qed.

Lemma imap_case_hex (f : nat -> ascii -> ascii) l :
  (forall i c, f i c = c \/ f i c = upper_ascii c) ->
  Forall2 (fun a b => hex_val a = hex_val b) (imap f (map lower_ascii l)) l.
Proof.
  revert f. induction l as [|c l IH]; intros f Hf; cbn; [constructor|].
  constructor.
  - destruct (Hf 0%nat (lower_ascii c)) as [-> | ->].
    + apply hex_val_lower.
    + by rewrite hex_val_upper, hex_val_lower.
  - apply IH. intros i c'. apply Hf.
Qed.

(** ** Addresses *)

Lemma remove_0x_prefix_0x l : remove_0x_prefix ("0" :: "x" :: l)%char = l.
Proof. reflexivity. Qed.

Lemma to_checksum_valid t :
  is_address t = true ->
  exists s, to_checksum t = inr s /\ is_address s = true
    /\ Forall2 (fun a b => hex_val a = hex_val b)
         (drop 2 (list_ascii_of_string s))
         (remove_0x_prefix (list_ascii_of_string t)).
Proof.
  intros Hv. unfold to_checksum, to_normalized_address. rewrite Hv.
  unfold mbind, result_bind, mret, result_ret. rewrite remove_0x_prefix_0x.
  eexists; split; [done|].
  set (digits := remove_0x_prefix (list_ascii_of_string t)).
  assert (Hc : Forall2 (fun a b => hex_val a = hex_val b)
            (imap (fun i c => if eip55_upper (map lower_ascii digits) i
                              then upper_ascii c else c)
               (map lower_ascii digits)) digits).
  { apply imap_case_hex. intros i c. destruct (eip55_upper _ i); auto. }
  split.
  - unfold is_address. rewrite list_ascii_of_string_of_list_ascii.
    rewrite remove_0x_prefix_0x.
    unfold is_address in Hv. fold digits in Hv.
    apply andb_true_iff in Hv as [Hh Hl].
    apply andb_true_iff. split.
    + clear Hl. induction Hc as [|a b la lb Hab _ IH]; [done|].
      cbn [forallb] in *. apply andb_true_iff in Hh as [Hb Hh].
      unfold is_hex_digit in *. rewrite Hab, Hb. by apply IH.
    + apply Forall2_length in Hc. by rewrite Hc.
  - rewrite list_ascii_of_string_of_list_ascii. exact Hc.
Qed.

Lemma to20_valid t :
  is_address t = true -> exists a, address_of t a.
Proof.
  intros Hv. destruct (to_checksum_valid t Hv) as (s & Hs & _ & Hc).
  unfold is_address in Hv. apply andb_true_iff in Hv as [Hh Hl].
  apply Nat.eqb_eq in Hl.
  destruct (fromhex_total 20 _ Hh Hl) as (a & Ha & Hal & Hah).
  exists a. unfold address_of, _to20. rewrite Hs. cbn.
  by rewrite (fromhex_ext _ _ Hc).
Qed.

Lemma to20_invalid t : is_address t = false -> _to20 t = inl ValueError.
Proof.
  intros Hv. unfold _to20, to_checksum, to_normalized_address. by rewrite Hv.
Qed.

(** ** PathCodec *)

Lemma fee3_fits f : fee_fits f -> _fee3 f = inr (be_bytes 3 f).
Proof. intros H. apply int_to_bytes_ok. exact H. Qed.

Lemma fee3_overflow f : ~ fee_fits f -> _fee3 f = inl OverflowError.
Proof.
  intros H. apply int_to_bytes_overflow. unfold fee_fits in H.
  change (256 ^ Z.of_nat 3) with (2 ^ 24). lia.
Qed.

Lemma drop_cons_lookup {A} (l : list A) n x rest :
  drop n l = x :: rest -> l !! n = Some x /\ drop (S n) l = rest.
Proof.
  intros H. split.
  - rewrite <- (Nat.add_0_r n), <- lookup_drop, H. done.
  - rewrite <- Nat.add_1_r, <- drop_drop, H. done.
Qed.

Lemma encode_hops_ok tokens : forall fees i out addrs,
  Forall2 address_of (drop (S i) tokens) addrs ->
  length fees = length addrs ->
  Forall fee_fits fees ->
  encode_hops tokens i fees out = (out ++ path_hops fees addrs, None).
Proof.
  induction fees as [|f fees IH]; intros i out addrs Ha Hl Hf.
  - destruct addrs; [|done]. cbn. by rewrite app_nil_r.
  - destruct addrs as [|a addrs]; [done|].
    inversion Ha as [|t ? rest ? Hta Hrest Heq]; subst.
    symmetry in Heq. apply drop_cons_lookup in Heq as [Hlk <-].
    inversion Hf as [|? ? Hf1 Hf2]; subst.
    cbn [encode_hops path_hops]. rewrite (fee3_fits f Hf1).
    rewrite Nat.add_1_r, Hlk.
    destruct Hta as (Ht & _ & _). rewrite Ht.
    rewrite (IH (S i) _ addrs); [| done | by inversion Hl | done].
    by rewrite <- !app_assoc.
Qed.

(** A fee that does not fit stops the loop with an exception, whatever the
    tokens are. *)
Lemma encode_hops_unfit tokens : forall fees i out,
  Exists (fun f => ~ fee_fits f) fees ->
  exists e, (encode_hops tokens i fees out).2 = Some e.
Proof.
  induction fees as [|f fees IH]; intros i out Hex; [by inversion Hex|].
  cbn [encode_hops].
  destruct (_fee3 f) as [e|fb] eqn:Ef; [by exists e|].
  destruct (tokens !! (i + 1)%nat) as [t|]; [|by eexists].
  destruct (_to20 t) as [e|tb]; [by exists e|].
  apply IH. inversion Hex as [? ? Hbad|]; subst; [|done].
  by rewrite (fee3_overflow f Hbad) in Ef.
Qed.

Lemma encode_hops_overflow tokens : forall fees i out addrs,
  Forall2 address_of (drop (S i) tokens) addrs ->
  length fees = length addrs ->
  Exists (fun f => ~ fee_fits f) fees ->
  (encode_hops tokens i fees out).2 = Some OverflowError.
Proof.
  induction fees as [|f fees IH]; intros i out addrs Ha Hl Hex;
    [by inversion Hex|].
  destruct addrs as [|a addrs]; [done|].
  inversion Ha as [|t ? rest ? Hta Hrest Heq]; subst.
  symmetry in Heq. apply drop_cons_lookup in Heq as [Hlk <-].
  cbn [encode_hops].
  destruct (_fee3 f) as [e|fb] eqn:Ef.
  - unfold _fee3, int_to_bytes in Ef.
    destruct (f <? 0); [by inversion Ef|].
    destruct (256 ^ Z.of_nat 3 <=? f); by inversion Ef.
  - rewrite Nat.add_1_r, Hlk. destruct Hta as (Ht & _ & _). rewrite Ht.
    apply (IH (S i) _ addrs); [done | by inversion Hl |].
    inversion Hex as [? ? Hbad|]; subst; [|done].
    by rewrite (fee3_overflow f Hbad) in Ef.
Qed.

Lemma valid_tokens_addresses tokens :
  Forall (fun t => is_address t = true) tokens ->
  exists addrs, Forall2 address_of tokens addrs.
Proof.
  induction 1 as [|t tokens Ht _ [addrs IH]]; [by exists []|].
  destruct (to20_valid t Ht) as [a Ha]. exists (a :: addrs). by constructor.
Qed.

Lemma path_hops_length fees addrs :
  length fees = length addrs ->
  Forall (fun a => length a = 20%nat) addrs ->
  length (path_hops fees addrs) = (23 * length fees)%nat.
Proof.
  revert addrs. induction fees as [|f fees IH]; intros [|a addrs] Hl Ha;
    try done.
  inversion Ha; subst. cbn [path_hops].
  rewrite !length_app, be_bytes_length, (IH addrs); [simpl; lia| by inversion Hl | done].
Qed.

Lemma decode_hops_layout fees : forall addrs,
  length fees = length addrs ->
  Forall (fun a => length a = 20%nat) addrs ->
  Forall fee_fits fees ->
  decode_hops (length fees) (path_hops fees addrs) = (fees, addrs).
Proof.
  induction fees as [|f fees IH]; intros [|a addrs] Hl Ha Hf; try done.
  inversion Ha as [|? ? Ha1 Ha2]; inversion Hf as [|? ? Hf1 Hf2]; subst.
  cbn [length decode_hops path_hops].
  rewrite (take_app_length' (be_bytes 3 f)) by (by rewrite be_bytes_length).
  rewrite (drop_app_length' (be_bytes 3 f) _ 3) by (by rewrite be_bytes_length).
  rewrite (take_app_length' a) by done.
  rewrite (app_assoc (be_bytes 3 f)).
  rewrite drop_app_length' by (rewrite length_app, be_bytes_length; lia).
  rewrite (IH addrs); [| by inversion Hl | done | done].
  cbn [fst snd]. rewrite int_from_be_bytes.
  unfold fee_fits in Hf1. change (256 ^ Z.of_nat 3) with (2 ^ 24).
  by rewrite Z.mod_small.
Qed.

Lemma decode_layout addrs fees :
  length addrs = S (length fees) ->
  Forall (fun a => length a = 20%nat) addrs ->
  Forall fee_fits fees ->
  length (path_layout addrs fees) = (20 + 23 * length fees)%nat
  /\ decode_v3_path (path_layout addrs fees) = Some (addrs, fees).
Proof.
  intros Hl Ha Hf. destruct addrs as [|a0 addrs]; [done|].
  inversion Ha as [|? ? Ha0 Ha']; subst.
  assert (Hl' : length fees = length addrs) by (simpl in Hl; lia).
  assert (Hlen : length (path_layout (a0 :: addrs) fees)
                 = (20 + 23 * length fees)%nat).
  { cbn [path_layout]. rewrite length_app, path_hops_length by done. lia. }
  split; [done|].
  unfold decode_v3_path. rewrite Hlen.
  replace (20 + 23 * length fees - 20)%nat with (length fees * 23)%nat by lia.
  rewrite Nat.Div0.mod_mul, Nat.div_mul by lia.
  replace (20 <=? 20 + 23 * length fees)%nat with true
    by (symmetry; apply Nat.leb_le; lia).
  cbn [andb Nat.eqb path_layout].
  rewrite take_app_length', drop_app_length' by done.
  by rewrite decode_hops_layout.
Qed.

Lemma encode_v3_path_ok tokens fees addrs :
  Forall2 address_of tokens addrs ->
  (2 <= length tokens)%nat -> length fees = (length tokens - 1)%nat ->
  Forall fee_fits fees ->
  encode_v3_path tokens fees = inr (path_layout addrs fees).
Proof.
  intros Ha Hn Hl Hf.
  pose proof (Forall2_length _ _ _ Ha) as Hla.
  unfold encode_v3_path, encode_v3_path_out.
  replace (2 <=? Z.of_nat (length tokens)) with true
    by (symmetry; apply Z.leb_le; lia).
  replace (Z.of_nat (length fees) =? Z.of_nat (length tokens) - 1) with true
    by (symmetry; apply Z.eqb_eq; lia).
  cbn [andb].
  destruct Ha as [|t0 a0 tokens' addrs' (Ht0 & _ & _) Ha']; [simpl in Hn; lia|].
  cbn [lookup list_lookup]. rewrite Ht0.
  rewrite (encode_hops_ok _ fees 0 _ addrs'); [done|done| |done].
  simpl in *. lia.
Qed.

Lemma encode_v3_path_ok3 a m f1 f2 :
  is_address a = true -> is_address m = true -> fee_fits f1 -> fee_fits f2 ->
  exists path, encode_v3_path [a; m; a] [f1; f2] = inr path.
Proof.
  intros Ha Hm Hf1 Hf2.
  assert (Hv : Forall (fun t => is_address t = true) [a; m; a])
    by (repeat (constructor; [assumption|]); constructor).
  destruct (valid_tokens_addresses _ Hv) as [addrs Hall].
  exists (path_layout addrs [f1; f2]).
  apply encode_v3_path_ok; [done|simpl; lia|done|].
  repeat (constructor; [assumption|]); constructor.
Qed.

(** C2. For a list of n >= 2 well-formed addresses and n-1 fees that each fit
    three bytes, [encode_v3_path] returns [addr0 | fee0 | addr1 | ...] with
    20 bytes per address and 3 big-endian bytes per fee; the result has
    20n + 3(n-1) bytes, and reading it back by field width gives the
    addresses and the fees it was built from. *)
Theorem encode_v3_path_layout_roundtrip (tokens : list string) (fees : list Z) :
  (2 <= length tokens)%nat ->
  length fees = (length tokens - 1)%nat ->
  Forall (fun t => is_address t = true) tokens ->
  Forall fee_fits fees ->
  exists addrs,
    Forall2 address_of tokens addrs
    /\ encode_v3_path tokens fees = inr (path_layout addrs fees)
    /\ length (path_layout addrs fees)
       = (20 * length tokens + 3 * (length tokens - 1))%nat
    /\ decode_v3_path (path_layout addrs fees) = Some (addrs, fees).
Proof.
  intros Hn Hl Hv Hf.
  destruct (valid_tokens_addresses tokens Hv) as [addrs Ha].
  exists addrs. split; [done|].
  pose proof (Forall2_length _ _ _ Ha) as Hla.
  assert (H20 : Forall (fun a => length a = 20%nat) addrs).
  { clear -Ha. induction Ha as [|t a ? ? (_ & H & _) _ IH]; by constructor. }
  destruct (decode_layout addrs fees) as [Hlen Hdec]; [lia|done|done|].
  split; [|split; [rewrite Hlen; lia|done]].
  by apply encode_v3_path_ok.
Qed.

(** C3. When the lengths are wrong (fewer than two addresses, or a number of
    fees other than one less than the number of addresses), [encode_v3_path]
    fails with [MalformedPath], and the output buffer is still empty at that
    point. *)
Theorem encode_v3_path_malformed (tokens : list string) (fees : list Z) :
  Z.of_nat (length tokens) < 2
  \/ Z.of_nat (length fees) <> Z.of_nat (length tokens) - 1 ->
  encode_v3_path tokens fees = inl MalformedPath
  /\ encode_v3_path_out tokens fees = ([], Some MalformedPath).
Proof.
  intros H. unfold encode_v3_path, encode_v3_path_out.
  destruct (Z.leb_spec 2 (Z.of_nat (length tokens)));
    destruct (Z.eqb_spec (Z.of_nat (length fees)) (Z.of_nat (length tokens) - 1));
    cbn [andb]; try done; lia.
Qed.

(** A fee that does not fit makes [encode_v3_path] raise. *)
Lemma encode_v3_path_unfit_raises tokens fees :
  Exists (fun f => ~ fee_fits f) fees ->
  exists e, encode_v3_path tokens fees = inl e.
Proof.
  intros Hex. unfold encode_v3_path, encode_v3_path_out.
  destruct (_ && _); [|by eexists].
  destruct (tokens !! 0%nat) as [t0|]; [|by eexists].
  destruct (_to20 t0) as [e|tb]; [by eexists|].
  destruct (encode_hops_unfit tokens fees 0 ([] ++ tb) Hex) as [e He].
  destruct (encode_hops tokens 0 fees ([] ++ tb)) as [out [e'|]];
    [by eexists|done].
Qed.

Lemma encode_v3_path_unfit_overflow tokens fees :
  Exists (fun f => ~ fee_fits f) fees ->
  (2 <= length tokens)%nat -> length fees = (length tokens - 1)%nat ->
  Forall (fun t => is_address t = true) tokens ->
  encode_v3_path tokens fees = inl OverflowError.
Proof.
  intros Hex Hn Hl Hv.
  destruct (valid_tokens_addresses tokens Hv) as [addrs Ha].
  pose proof (Forall2_length _ _ _ Ha) as Hla.
  unfold encode_v3_path, encode_v3_path_out.
  replace (2 <=? Z.of_nat (length tokens)) with true
    by (symmetry; apply Z.leb_le; lia).
  replace (Z.of_nat (length fees) =? Z.of_nat (length tokens) - 1) with true
    by (symmetry; apply Z.eqb_eq; lia).
  cbn [andb].
  destruct Ha as [|t0 a0 tokens' addrs' (Ht0 & _ & _) Ha']; [simpl in Hn; lia|].
  cbn [lookup list_lookup]. rewrite Ht0.
  pose proof (encode_hops_overflow (t0 :: tokens') fees 0 ([] ++ a0) addrs')
    as Hov.
  destruct (encode_hops (t0 :: tokens') 0 fees ([] ++ a0)) as [out oe].
  cbn in Hov. rewrite Hov; [done|done| simpl in *; lia |done].
Qed.

Lemma out_of_range_unfit fees f :
  In f fees -> f < 0 \/ 2 ^ 24 <= f -> Exists (fun f => ~ fee_fits f) fees.
Proof.
  intros Hin Hbad. apply Exists_exists. exists f.
  split; [by apply list_elem_of_In|]. unfold fee_fits. lia.
Qed.

(** C9, as the code has it. A fee outside the three-byte range never yields
    a byte string: [encode_v3_path] raises, and when the lengths are right
    and every token is a well-formed address the exception is the
    [OverflowError] of [int.to_bytes]. *)
Theorem encode_v3_path_fee_overflow (tokens : list string) (fees : list Z) (f : Z) :
  In f fees -> f < 0 \/ 2 ^ 24 <= f ->
  (exists e, encode_v3_path tokens fees = inl e)
  /\ ((2 <= length tokens)%nat -> length fees = (length tokens - 1)%nat ->
      Forall (fun t => is_address t = true) tokens ->
      encode_v3_path tokens fees = inl OverflowError).
Proof.
  intros Hin Hbad. pose proof (out_of_range_unfit fees f Hin Hbad) as Hex.
  split; [by apply encode_v3_path_unfit_raises|].
  by apply encode_v3_path_unfit_overflow.
Qed.

(** ** SlippageGuard and FlashParams *)

Lemma min_out_floor amt prem bps :
  let q := (amt + prem) * bps / 10000 in
  10000 * q <= (amt + prem) * bps < 10000 * q + 10000.
Proof.
  intros q. subst q.
  pose proof (Z.div_mod ((amt + prem) * bps) 10000 ltac:(lia)) as Hdm.
  pose proof (Z.mod_pos_bound ((amt + prem) * bps) 10000 ltac:(lia)). lia.
Qed.

Lemma abi_min_out_field path v params :
  abi_encode_bytes_uint256 path v = inr params -> params_min_out params = v.
Proof.
  unfold abi_encode_bytes_uint256, params_min_out.
  destruct (Z.leb_spec 0 v); [|done].
  destruct (Z.ltb_spec v (2 ^ 256)); [|done].
  cbn [andb]. intros E.
  match type of E with inr ?x = _ => assert (params = x) as -> by congruence end.
  clear E.
  rewrite (drop_app_length' (be_bytes 32 64) _ 32)
    by (by rewrite be_bytes_length).
  rewrite (take_app_length' (be_bytes 32 v) _ 32)
    by (by rewrite be_bytes_length).
  rewrite int_from_be_bytes. apply Z.mod_small.
  change (256 ^ Z.of_nat 32) with (2 ^ 256). lia.
Qed.

(** What a returning run of [encode_flash_params_for_roundtrip] went
    through. *)
Lemma encode_flash_params_inv asset mid f1 f2 amt prem bps s r s' :
  encode_flash_params_for_roundtrip cfg asset mid f1 f2 amt prem bps s = (inr r, s') ->
  exists a m path quoter q,
    to_checksum asset = inr a /\ to_checksum mid = inr m
    /\ encode_v3_path [a; m; a] [f1; f2] = inr path
    /\ to_checksum (UNIV3_QUOTER cfg) = inr quoter
    /\ handle _ (quoteExactInput_call quoter path amt) s.1 = (inr q, s'.1)
    /\ s'.2 = s.2 ++ [Ev (quoteExactInput_call quoter path amt) (inr q)]
    /\ r = (r.1.1, min_out amt prem bps, amountOut q)
    /\ abi_encode_bytes_uint256 path (min_out amt prem bps) = inr r.1.1.
Proof.
  unfold encode_flash_params_for_roundtrip, mbind, M_bind, mret, M_ret, lift, call.
  destruct (to_checksum asset) as [?|a] eqn:Ea0; [done|].
  destruct (to_checksum mid) as [?|m] eqn:Em0; [done|].
  destruct (encode_v3_path [a; m; a] [f1; f2]) as [?|path] eqn:Ep; [done|].
  destruct (to_checksum (UNIV3_QUOTER cfg)) as [?|quoter] eqn:Equ; [done|].
  destruct (handle _ (quoteExactInput_call quoter path amt) s.1)
    as [[?|q] w'] eqn:Eq; [done|].
  destruct (abi_encode_bytes_uint256 path (min_out amt prem bps))
    as [?|params] eqn:Ea; [done|].
  intros [= <- <-]. exists a, m, path, quoter, q. cbn. by repeat split.
Qed.

(** The function does return when its inputs are well-formed, the quote is
    answered and the floor fits a [uint256]. *)
Lemma encode_flash_params_returns asset mid f1 f2 amt prem bps s :
  is_address asset = true -> is_address mid = true ->
  is_address (UNIV3_QUOTER cfg) = true ->
  fee_fits f1 -> fee_fits f2 -> min_out amt prem bps < 2 ^ 256 ->
  (forall quoter path, exists q w',
      handle _ (quoteExactInput_call quoter path amt) s.1 = (inr q, w')) ->
  exists params quoted s',
    encode_flash_params_for_roundtrip cfg asset mid f1 f2 amt prem bps s
    = (inr (params, min_out amt prem bps, quoted), s').
Proof.
  intros Ha Hm Hq Hf1 Hf2 Hmo Hquote.
  destruct (to_checksum_valid asset Ha) as (a & Ea & Hva & _).
  destruct (to_checksum_valid mid Hm) as (m & Em & Hvm & _).
  destruct (to_checksum_valid _ Hq) as (quoter & Equ & _ & _).
  destruct (encode_v3_path_ok3 a m f1 f2 Hva Hvm Hf1 Hf2) as [path Ep].
  destruct (Hquote quoter path) as (q & w' & Eq).
  unfold encode_flash_params_for_roundtrip, mbind, M_bind, mret, M_ret, lift, call.
  rewrite Ea, Em, Ep, Equ, Eq.
  unfold abi_encode_bytes_uint256.
  assert (1 <= min_out amt prem bps) by (unfold min_out; lia).
  destruct (Z.leb_spec 0 (min_out amt prem bps)); [|lia].
  destruct (Z.ltb_spec (min_out amt prem bps) (2 ^ 256)); [|lia].
  cbn. by eexists _, _, _.
Qed.

(** C4. The floor is [max(repayTarget + floor(repayTarget * bufferBps /
    10000), 1)] with [repayTarget = amountBorrowed + estimatedPremium]; it is
    1003000 for (1000000, 0, 30), it is at least 1 for all inputs, a zero
    borrowed amount included, and it is the value
    [encode_flash_params_for_roundtrip] hands back as [min_out]. *)
Theorem min_out_formula (amountBorrowed estimatedPremium bufferBps : Z) :
  let repayTarget := amountBorrowed + estimatedPremium in
  let q := repayTarget * bufferBps / 10000 in
  (10000 * q <= repayTarget * bufferBps < 10000 * q + 10000)
  /\ min_out amountBorrowed estimatedPremium bufferBps = Z.max (repayTarget + q) 1
  /\ 1 <= min_out amountBorrowed estimatedPremium bufferBps
  /\ min_out 0 estimatedPremium bufferBps
     = Z.max (estimatedPremium + estimatedPremium * bufferBps / 10000) 1
  /\ min_out 1000000 0 30 = 1003000
  /\ forall asset mid f1 f2 s,
       match (encode_flash_params_for_roundtrip cfg asset mid f1 f2
                amountBorrowed estimatedPremium bufferBps s).1 with
       | inr (_, m, _) => m = min_out amountBorrowed estimatedPremium bufferBps
       | inl _ => True
       end.
Proof.
  intros repayTarget q. split; [apply min_out_floor|].
  split; [reflexivity|]. split; [unfold min_out; lia|].
  split; [reflexivity|]. split; [reflexivity|].
  intros asset mid f1 f2 s.
  destruct (encode_flash_params_for_roundtrip _ _ _ _ _ _ _ _ s)
    as [[e|r] s'] eqn:E; [done|].
  apply encode_flash_params_inv in E
    as (a & m & path & quoter & q' & _ & _ & _ & _ & _ & _ & Hr & _).
  rewrite Hr. done.
Qed.

(** C5. The [min_out] computed and embedded in the params does not depend on
    the quote: two returning runs from any two states of the world, whatever
    the pricing contract answers in each, yield the same params bytes and the
    same [min_out], namely the floor for the borrowed amount, the premium and
    the buffer, and the [minOut] word of the params is that value. *)
Theorem min_out_ignores_quote (asset mid : string)
    (f1 f2 amt prem bps : Z) (s1 s2 : W * list event)
    (p1 p2 : bytes) (m1 m2 q1 q2 : Z) (s1' s2' : W * list event) :
  encode_flash_params_for_roundtrip cfg asset mid f1 f2 amt prem bps s1
  = (inr (p1, m1, q1), s1') ->
  encode_flash_params_for_roundtrip cfg asset mid f1 f2 amt prem bps s2
  = (inr (p2, m2, q2), s2') ->
  p1 = p2 /\ m1 = m2 /\ m1 = min_out amt prem bps /\ params_min_out p1 = m1.
Proof.
  intros E1 E2.
  apply encode_flash_params_inv in E1
    as (a & m & path & quoter & qa & Ha & Hm & Hp & _ & _ & _ & Hr1 & He1).
  apply encode_flash_params_inv in E2
    as (a' & m' & path' & quoter' & qb & Ha' & Hm' & Hp' & _ & _ & _ & Hr2 & He2).
  cbn in *. injection Hr1 as -> _. injection Hr2 as -> _.
  rewrite Ha in Ha'. injection Ha' as <-.
  rewrite Hm in Hm'. injection Hm' as <-.
  rewrite Hp in Hp'. injection Hp' as <-.
  rewrite He1 in He2. injection He2 as <-.
  repeat split. by apply abi_min_out_field in He1.
Qed.

(** ** TxSubmitter *)

Ltac unfold_M :=
  unfold mbind, M_bind, mret, M_ret, lift, call, try_except in *.

(** Case analysis on the next answer of the outside world. *)
Ltac next_answer :=
  match goal with
  | |- context [handle ?X ?o ?w] =>
      let w' := fresh "w" in
      destruct (handle X o w) as [[?|?] w']; cbn [fst snd]
  end.

Ltac trace_shape :=
  cbn [fst snd]; rewrite <- ?app_assoc; cbn [app]; reflexivity.

Lemma setdefault_lookup_ne k k' v (d : txdict) :
  k ≠ k' -> setdefault k v d !! k' = d !! k'.
Proof.
  intros Hne. unfold setdefault. destruct (d !! k); [done|].
  by rewrite lookup_insert_ne.
Qed.

Lemma send_tx_signed_fields (tx : txdict) n c fee tip g k :
  k ≠ "nonce" -> k ≠ "chainId" -> k ≠ "maxFeePerGas" ->
  k ≠ "maxPriorityFeePerGas" -> k ≠ "gas" ->
  <["gas" := g]>
    (setdefault "maxPriorityFeePerGas" tip
       (setdefault "maxFeePerGas" fee
          (<["chainId" := c]> (<["nonce" := n]> tx)))) !! k
  = tx !! k.
Proof.
  intros. rewrite lookup_insert_ne by done.
  rewrite !setdefault_lookup_ne by done.
  by rewrite !lookup_insert_ne by done.
Qed.

(** One run of [send_tx]: the events it adds. *)
Lemma send_tx_run tx signer s :
  exists evs,
    (send_tx tx signer s).2.2 = s.2 ++ evs
    /\ submitter_invocations evs = 1%nat
    /\ decodings evs = []
    /\ (exists r evs', evs = Ev (get_transaction_count (address signer)) r :: evs')
    /\ (length (signed_txs evs) <= 1)%nat
    /\ Forall (fun t => t !! "from" = tx !! "from" /\ t !! "to" = tx !! "to"
                        /\ t !! "value" = tx !! "value") (signed_txs evs)
    /\ match (send_tx tx signer s).1 with
       | inr rcpt => receipts evs = [rcpt] /\ length (signed_txs evs) = 1%nat
       | inl _ => receipts evs = []
       end.
Proof.
  unfold send_tx, suggest_fees. unfold_M.
  change (to_wei_ether (Dec 2 (-7))) with (inr 200000000000 : result Z).
  repeat next_answer;
    (eexists; split; [trace_shape|]);
    (split; [reflexivity|]); (split; [reflexivity|]);
    (split; [by eexists _, _|]);
    (split; [cbn; lia|]);
    (split; [|by cbn]);
    cbn; repeat constructor; by rewrite send_tx_signed_fields.
Qed.

(** ** FlashloanOrchestrator *)

Lemma after_decoding_none tr : decodings tr = [] -> after_decoding tr = [].
Proof.
  induction tr as [|[X o r] tr IH]; [done|].
  destruct o; cbn; try done; intros H; by apply IH.
Qed.

Lemma after_decoding_app pre c rcpt r post :
  decodings pre = [] ->
  after_decoding (pre ++ Ev (process_receipt c rcpt) r :: post) = post.
Proof.
  induction pre as [|[X o r'] pre IH]; [done|].
  destruct o; cbn; try done; intros H; by apply IH.
Qed.

Lemma split_via_goldstem_run root gs s :
  exists post,
    (split_via_goldstem (Dec 1 (-5)) root gs s).2.2 = s.2 ++ post
    /\ routing root gs 10000000000000 post.
Proof.
  unfold split_via_goldstem. unfold_M.
  change (to_wei_ether (Dec 1 (-5))) with (inr 10000000000000 : result Z).
  cbn iota.
  match goal with |- context [send_tx ?tx root s] =>
    destruct (send_tx_run tx root s) as (post & Htr & Hn & Hd & Hfst & Hlen & Hf & _);
    destruct (send_tx tx root s) as [[e|rcpt] [w' tr']]
  end; cbn [fst snd] in *; subst tr'; exists post; (split; [done|]);
  (repeat split; try done);
  (eapply Forall_impl; [exact Hf|]); cbn beta;
  intros t (-> & -> & ->); by rewrite !lookup_insert_ne, ?lookup_insert_eq by done.
Qed.

Ltac stopped :=
  eexists; split; [trace_shape|]; left; cbn; repeat split; lia.

Ltac obs_unfold :=
  unfold decodings, receipts, signed_txs, submitter_invocations in *.

(** The last step of the flow: route when the profit is above the threshold,
    otherwise stop. *)
Lemma route_step root gs p s2 :
  exists post,
    ((if MIN_PROFIT_WEI cfg <? p
      then split_via_goldstem (Dec 1 (-5)) root gs
      else fun s => (inr tt, s)) s2).2.2 = s2.2 ++ post
    /\ if MIN_PROFIT_WEI cfg <? p
       then routing root gs 10000000000000 post
       else post = []
            /\ ((if MIN_PROFIT_WEI cfg <? p
                 then split_via_goldstem (Dec 1 (-5)) root gs
                 else fun s => (inr tt, s)) s2).1 = inr tt.
Proof.
  destruct (MIN_PROFIT_WEI cfg <? p).
  - apply split_via_goldstem_run.
  - exists []. cbn. by rewrite app_nil_r.
Qed.

(** Close a branch that reached the decoder with answer [r] and went on with
    profit [p]. *)
Ltac decoded root gs p Hrt :=
  let post := fresh "post" in
  let Hpost := fresh "Hpost" in
  match goal with
  | |- context [(if MIN_PROFIT_WEI cfg <? p then _ else _) ?s2] =>
      destruct (route_step root gs p s2) as (post & Hpost & Hrt)
  end;
  cbn [fst snd] in Hpost; rewrite Hpost;
  eexists; split; [trace_shape|];
  right;
  match goal with
  | |- exists pre rcpt r post,
         ?a :: ?b :: ?c :: ?e ++ Ev (process_receipt _ ?rc) ?rr :: ?tl = _ /\ _ =>
      exists (a :: b :: c :: e), rc, rr, tl
  end;
  split; [reflexivity|].

Lemma flashloan_and_arb_run seed root fe gs s :
  exists evs,
    (flashloan_and_arb cfg seed root fe gs s).2.2 = s.2 ++ evs
    /\ ((decodings evs = [] /\ receipts evs = []
         /\ (submitter_invocations evs <= 1)%nat
         /\ (length (signed_txs evs) <= 1)%nat)
        \/ exists pre rcpt r post,
             evs = pre ++ Ev (process_receipt fe rcpt) r :: post
             /\ decodings pre = [] /\ receipts pre = [rcpt]
             /\ submitter_invocations pre = 1%nat
             /\ length (signed_txs pre) = 1%nat
             /\ if MIN_PROFIT_WEI cfg <? default 0 (decoded_profit r)
                then routing root gs 10000000000000 post
                else post = []
                     /\ (flashloan_and_arb cfg seed root fe gs s).1 = inr tt).
Proof.
  unfold flashloan_and_arb.
  destruct (_ || _).
  { exists []. cbn. rewrite app_nil_r. split; [done|]. left. cbn. repeat split; lia. }
  unfold_M.
  next_answer; [stopped|].
  destruct (negb _); [stopped|].
  change (to_wei_ether (Dec 5 (-7))) with (inr 500000000000 : result Z).
  cbn iota.
  unfold encode_flash_params_for_roundtrip. unfold_M.
  destruct (to_checksum (default "" (FLASH_ASSET cfg))) as [?|asset]; [stopped|].
  destruct (to_checksum (USDC cfg)) as [?|mid]; [stopped|].
  destruct (encode_v3_path _ _) as [?|path]; [stopped|].
  destruct (to_checksum (UNIV3_QUOTER cfg)) as [?|quoter]; [stopped|].
  next_answer; [stopped|].
  destruct (abi_encode_bytes_uint256 _ _) as [?|params]; [stopped|].
  cbn iota beta.
  next_answer; [stopped|].
  match goal with
  | |- context [send_tx ?tx root ?s1] =>
      destruct (send_tx_run tx root s1)
        as (evs1 & Htr & Hn & Hd & _ & Hlen & _ & Hres);
      destruct (send_tx tx root s1) as [[e|rcpt] [w2 tr2]]
  end; cbn [fst snd] in *; subst tr2.
  { (* the submission raised *)
    eexists. split; [trace_shape|]. left. obs_unfold. cbn.
    rewrite Hd, Hres. repeat split; lia. }
  destruct Hres as [Hrc Hsg].
  next_answer.
  - (* the decoder raised: the profit stays 0 *)
    decoded root gs 0 Hrt. obs_unfold. cbn. rewrite Hd, Hrc. repeat split; try lia. exact Hrt.
  - match goal with |- context [last ?evts] => destruct (last evts) as [ev|] eqn:El end.
    + destruct (args ev !! "profitWei") as [p|] eqn:Ep.
      * decoded root gs p Hrt. obs_unfold. cbn. rewrite Hd, Hrc, El, Ep.
        repeat split; try lia. exact Hrt.
      * decoded root gs 0 Hrt. obs_unfold. cbn. rewrite Hd, Hrc, El, Ep.
        repeat split; try lia. exact Hrt.
    + decoded root gs 0 Hrt. obs_unfold. cbn. rewrite Hd, Hrc, El.
      repeat split; try lia. exact Hrt.
Qed.

Lemma decodings_app tr1 tr2 : decodings (tr1 ++ tr2) = decodings tr1 ++ decodings tr2.
Proof. apply omap_app. Qed.

Lemma receipts_app tr1 tr2 : receipts (tr1 ++ tr2) = receipts tr1 ++ receipts tr2.
Proof. apply omap_app. Qed.

Lemma signed_txs_app tr1 tr2 : signed_txs (tr1 ++ tr2) = signed_txs tr1 ++ signed_txs tr2.
Proof. apply omap_app. Qed.

Lemma submitter_invocations_app tr1 tr2 :
  submitter_invocations (tr1 ++ tr2)
  = (submitter_invocations tr1 + submitter_invocations tr2)%nat.
Proof. unfold submitter_invocations. by rewrite List.filter_app, length_app. Qed.

Lemma decodings_decode c rc r tr :
  decodings (Ev (process_receipt c rc) r :: tr) = (rc, r) :: decodings tr.
Proof. reflexivity. Qed.

Lemma receipts_decode c rc r tr :
  receipts (Ev (process_receipt c rc) r :: tr) = receipts tr.
Proof. reflexivity. Qed.

Lemma signed_txs_decode c rc r tr :
  signed_txs (Ev (process_receipt c rc) r :: tr) = signed_txs tr.
Proof. reflexivity. Qed.

Lemma submitter_invocations_decode c rc r tr :
  submitter_invocations (Ev (process_receipt c rc) r :: tr)
  = submitter_invocations tr.
Proof. reflexivity. Qed.

(** A run that handed a receipt to the decoder: what came before, what the
    decoder answered and what followed. *)
Lemma decoded_run seed root fe gs w res w' tr rcpt r :
  flashloan_and_arb cfg seed root fe gs (w, []) = (res, (w', tr)) ->
  decodings tr = [(rcpt, r)] ->
  submitter_invocations tr
  = (1 + submitter_invocations (after_decoding tr))%nat
  /\ (length (signed_txs tr) = 1 + length (signed_txs (after_decoding tr)))%nat
  /\ receipts tr = rcpt :: receipts (after_decoding tr)
  /\ if MIN_PROFIT_WEI cfg <? default 0 (decoded_profit r)
     then routing root gs 10000000000000 (after_decoding tr)
     else after_decoding tr = [] /\ res = inr tt.
Proof.
  intros Hrun Hdec.
  destruct (flashloan_and_arb_run seed root fe gs (w, [])) as (evs & Htr & Hcases).
  rewrite Hrun in *. cbn in Htr. subst evs.
  destruct Hcases as [(Hd & _) | (pre & rc & r0 & post & -> & Hd & Hrc & Hn & Hsg & Hrt)].
  { by rewrite Hd in Hdec. }
  rewrite after_decoding_app by done.
  rewrite decodings_app, Hd, decodings_decode in Hdec. cbn [app] in Hdec.
  injection Hdec as -> -> Hpost.
  rewrite submitter_invocations_app, signed_txs_app, receipts_app, length_app.
  rewrite submitter_invocations_decode, signed_txs_decode, receipts_decode.
  rewrite Hn, Hrc, Hsg. done.
Qed.

(** A run that obtained a receipt went on to decode it. *)
Lemma receipt_is_decoded seed root fe gs w res w' tr rcpt rest :
  flashloan_and_arb cfg seed root fe gs (w, []) = (res, (w', tr)) ->
  receipts tr = rcpt :: rest ->
  exists r, decodings tr = [(rcpt, r)].
Proof.
  intros Hrun Hrcpt.
  destruct (flashloan_and_arb_run seed root fe gs (w, [])) as (evs & Htr & Hcases).
  rewrite Hrun in *. cbn in Htr. subst evs.
  destruct Hcases as [(_ & Hr & _) | (pre & rc & r0 & post & -> & Hd & Hrc & _ & _ & Hrt)].
  { by rewrite Hr in Hrcpt. }
  rewrite receipts_app, Hrc in Hrcpt. injection Hrcpt as -> _.
  exists r0. rewrite decodings_app, Hd, decodings_decode. cbn [app].
  destruct (MIN_PROFIT_WEI cfg <? default 0 (decoded_profit r0)).
  - destruct Hrt as (_ & -> & _). done.
  - destruct Hrt as [-> _]. done.
Qed.

(** C1. When the [owner()] read of the execution contract fails, or returns
    an address other than the operating account's, the flash flow returns
    without a single invocation of [send_tx]: nothing is signed and nothing is
    broadcast.  The only interaction of the run is the [owner()] read itself
    (and not even that when the flow is not configured). *)
Theorem unauthorized_run_submits_nothing
    (seed root : account) (fe gs : contract) (s : W * list event)
    (r : result string) (w' : W) :
  handle _ (owner_call fe) s.1 = (r, w') ->
  match r with inl _ => True | inr owner => owner <> address root end ->
  exists evs,
    flashloan_and_arb cfg seed root fe gs s
    = (inr tt, (if flash_configured cfg then w' else s.1, s.2 ++ evs))
    /\ evs = (if flash_configured cfg then [Ev (owner_call fe) r] else [])
    /\ submitter_invocations evs = 0%nat
    /\ signed_txs evs = []
    /\ Forall (fun e => is_signing e = false /\ is_broadcast e = false) evs.
Proof.
  intros Hown Hr. unfold flashloan_and_arb, flash_configured.
  destruct (_ || _); cbn [negb].
  { exists []. rewrite app_nil_r. by destruct s. }
  exists [Ev (owner_call fe) r]. unfold_M. rewrite Hown. cbn [fst snd].
  split; [|by repeat constructor].
  destruct r as [e|owner]; [done|].
  apply String.eqb_neq in Hr. by rewrite Hr.
Qed.

(** C6, as the code has it. The flow does not look at the status of the
    receipt.  When the flash transaction is mined and reverted, its receipt is
    still handed to the event decoder; the follow-up routing happens exactly
    when the decoded profit (0 when there is none) is above the threshold, and
    otherwise the run ends there. *)
Theorem reverted_receipt_is_still_decoded
    (seed root : account) (fe gs : contract) (w w' : W) (res : result unit)
    (tr : list event) (rcpt : receipt) (rest : list receipt) :
  flashloan_and_arb cfg seed root fe gs (w, []) = (res, (w', tr)) ->
  receipts tr = rcpt :: rest ->
  status rcpt <> 1 ->
  exists r,
    decodings tr = [(rcpt, r)]
    /\ (MIN_PROFIT_WEI cfg < default 0 (decoded_profit r) ->
        routing root gs 10000000000000 (after_decoding tr))
    /\ (default 0 (decoded_profit r) <= MIN_PROFIT_WEI cfg ->
        after_decoding tr = [] /\ res = inr tt).
Proof.
  intros Hrun Hrcpt _.
  destruct (receipt_is_decoded _ _ _ _ _ _ _ _ _ _ Hrun Hrcpt) as [r Hdec].
  exists r. split; [done|].
  destruct (decoded_run _ _ _ _ _ _ _ _ _ _ Hrun Hdec) as (_ & _ & _ & Hrt).
  destruct (Z.ltb_spec (MIN_PROFIT_WEI cfg) (default 0 (decoded_profit r)));
    split; intros; (done || lia).
Qed.

(** C7. The follow-up routing fires exactly when the decoded profit is
    strictly above the threshold.  Above it, what follows the decoding is one
    invocation of [send_tx] for the transfer to the treasury; at or below it,
    nothing follows and the flow returns. *)
Theorem routing_iff_profit_above_threshold
    (seed root : account) (fe gs : contract) (w w' : W) (res : result unit)
    (tr : list event) (rcpt : receipt) (r : result (list event_data)) (p : Z) :
  flashloan_and_arb cfg seed root fe gs (w, []) = (res, (w', tr)) ->
  decodings tr = [(rcpt, r)] ->
  decoded_profit r = Some p ->
  (submitter_invocations (after_decoding tr) = 1%nat <-> MIN_PROFIT_WEI cfg < p)
  /\ (MIN_PROFIT_WEI cfg < p ->
      routing root gs 10000000000000 (after_decoding tr))
  /\ (p <= MIN_PROFIT_WEI cfg -> after_decoding tr = [] /\ res = inr tt).
Proof.
  intros Hrun Hdec Hp.
  destruct (decoded_run _ _ _ _ _ _ _ _ _ _ Hrun Hdec) as (_ & _ & _ & Hrt).
  rewrite Hp in Hrt. cbn in Hrt.
  destruct (Z.ltb_spec (MIN_PROFIT_WEI cfg) p).
  - pose proof Hrt as (Hn & _).
    split; [split; [lia|done]|]. split; [done|lia].
  - destruct Hrt as [-> ->]. cbn.
    split; [split; [done|lia]|]. split; [lia|done].
Qed.

(** C8. When the decoder raises, finds no [FlashCompleted] event, or the
    event cannot be read, the flow goes on as with a profit of 0: with a
    non-negative threshold it returns normally, nothing follows the decoding,
    and the run has called [send_tx] once and signed once.  (Only a negative
    threshold would let a profit of 0 through.) *)
Theorem undecodable_profit_counts_as_zero
    (seed root : account) (fe gs : contract) (w w' : W) (res : result unit)
    (tr : list event) (rcpt : receipt) (r : result (list event_data)) :
  flashloan_and_arb cfg seed root fe gs (w, []) = (res, (w', tr)) ->
  decodings tr = [(rcpt, r)] ->
  decoded_profit r = None ->
  (0 <= MIN_PROFIT_WEI cfg ->
   res = inr tt /\ after_decoding tr = []
   /\ submitter_invocations tr = 1%nat /\ length (signed_txs tr) = 1%nat
   /\ receipts tr = [rcpt])
  /\ (MIN_PROFIT_WEI cfg < 0 ->
      routing root gs 10000000000000 (after_decoding tr)).
Proof.
  intros Hrun Hdec Hp.
  destruct (decoded_run _ _ _ _ _ _ _ _ _ _ Hrun Hdec) as (Hn & Hs & Hrc & Hrt).
  rewrite Hp in Hrt. cbn in Hrt.
  destruct (Z.ltb_spec (MIN_PROFIT_WEI cfg) 0).
  - split; [lia|done].
  - destruct Hrt as [Hnil ->]. rewrite Hnil in *. cbn in *. split; [done|lia].
Qed.

(** C10. The follow-up transfer is always 0.00001 ETH, 10^13 wei, from the
    operating account to the treasury contract: in any two runs whose decoded
    profits are above the threshold, every transaction signed after the
    decoding carries that value, whatever the two profits are. *)
Theorem routing_amount_is_constant
    (seed root : account) (fe gs : contract)
    (w1 w1' w2 w2' : W) (res1 res2 : result unit) (tr1 tr2 : list event)
    (rcpt1 rcpt2 : receipt) (r1 r2 : result (list event_data)) (p1 p2 : Z) :
  flashloan_and_arb cfg seed root fe gs (w1, []) = (res1, (w1', tr1)) ->
  flashloan_and_arb cfg seed root fe gs (w2, []) = (res2, (w2', tr2)) ->
  decodings tr1 = [(rcpt1, r1)] -> decoded_profit r1 = Some p1 ->
  decodings tr2 = [(rcpt2, r2)] -> decoded_profit r2 = Some p2 ->
  MIN_PROFIT_WEI cfg < p1 -> MIN_PROFIT_WEI cfg < p2 ->
  to_wei_ether (Dec 1 (-5)) = inr 10000000000000
  /\ Forall (fun t => transfers t (address root) (contract_address gs) 10000000000000)
       (signed_txs (after_decoding tr1))
  /\ Forall (fun t => transfers t (address root) (contract_address gs) 10000000000000)
       (signed_txs (after_decoding tr2))
  /\ forall t1 t2,
       In t1 (signed_txs (after_decoding tr1)) ->
       In t2 (signed_txs (after_decoding tr2)) ->
       t1 !! "value" = t2 !! "value".
Proof.
  intros Hrun1 Hrun2 Hd1 Hp1 Hd2 Hp2 Hgo1 Hgo2.
  destruct (decoded_run _ _ _ _ _ _ _ _ _ _ Hrun1 Hd1) as (_ & _ & _ & Hrt1).
  destruct (decoded_run _ _ _ _ _ _ _ _ _ _ Hrun2 Hd2) as (_ & _ & _ & Hrt2).
  rewrite Hp1 in Hrt1. rewrite Hp2 in Hrt2. cbn in Hrt1, Hrt2.
  destruct (Z.ltb_spec (MIN_PROFIT_WEI cfg) p1); [|lia].
  destruct (Z.ltb_spec (MIN_PROFIT_WEI cfg) p2); [|lia].
  destruct Hrt1 as (_ & _ & _ & _ & Hf1). destruct Hrt2 as (_ & _ & _ & _ & Hf2).
  split; [reflexivity|]. split; [done|]. split; [done|].
  intros t1 t2 Hin1 Hin2.
  rewrite List.Forall_forall in Hf1, Hf2.
  destruct (Hf1 _ Hin1) as (_ & _ & ->). destruct (Hf2 _ Hin2) as (_ & _ & ->).
  done.
Qed.

End Properties.

(** * The properties at work on the scripted world *)

Lemma encode_v3_path_layout_roundtrip_witness :
  Forall (fun t => is_address t = true) [WETH; USDC cfg0; WETH]
  /\ Forall fee_fits [500; 500]
  /\ exists addrs,
       Forall2 (address_of (w3 := mock_w3)) [WETH; USDC cfg0; WETH] addrs
       /\ encode_v3_path (w3 := mock_w3) [WETH; USDC cfg0; WETH] [500; 500]
          = inr (path_layout addrs [500; 500])
       /\ length (path_layout addrs [500; 500]) = 66%nat
       /\ decode_v3_path (path_layout addrs [500; 500]) = Some (addrs, [500; 500]).
Proof.
  assert (Hv : Forall (fun t => is_address t = true) [WETH; USDC cfg0; WETH])
    by (repeat (constructor; [reflexivity|]); constructor).
  assert (Hf : Forall fee_fits [500; 500])
    by (repeat (constructor; [unfold fee_fits; lia|]); constructor).
  split; [exact Hv|]. split; [exact Hf|].
  exact (encode_v3_path_layout_roundtrip (w3 := mock_w3)
           [WETH; USDC cfg0; WETH] [500; 500]
           ltac:(simpl; lia) ltac:(reflexivity) Hv Hf).
Defined.

Lemma encode_v3_path_malformed_witness :
  (Z.of_nat (length [WETH; USDC cfg0]) < 2
   \/ Z.of_nat (length [500; 3000]) <> Z.of_nat (length [WETH; USDC cfg0]) - 1)
  /\ encode_v3_path (w3 := mock_w3) [WETH; USDC cfg0] [500; 3000] = inl MalformedPath
  /\ encode_v3_path_out (w3 := mock_w3) [WETH; USDC cfg0] [500; 3000]
     = ([], Some MalformedPath).
Proof.
  assert (H : Z.of_nat (length [WETH; USDC cfg0]) < 2
              \/ Z.of_nat (length [500; 3000])
                 <> Z.of_nat (length [WETH; USDC cfg0]) - 1)
    by (right; simpl; lia).
  split; [exact H|].
  exact (encode_v3_path_malformed (w3 := mock_w3) [WETH; USDC cfg0] [500; 3000] H).
Defined.

Lemma encode_v3_path_fee_overflow_witness :
  In 16777216 [500; 16777216]
  /\ (16777216 < 0 \/ 2 ^ 24 <= 16777216)
  /\ encode_v3_path (w3 := mock_w3) [WETH; USDC cfg0; WETH] [500; 16777216]
     = inl OverflowError.
Proof.
  assert (Hin : In 16777216 [500; 16777216]) by (simpl; auto).
  assert (Hbad : 16777216 < 0 \/ 2 ^ 24 <= 16777216) by (right; lia).
  split; [exact Hin|]. split; [exact Hbad|].
  apply (encode_v3_path_fee_overflow (w3 := mock_w3)
           [WETH; USDC cfg0; WETH] [500; 16777216] 16777216 Hin Hbad).
  - simpl; lia.
  - reflexivity.
  - repeat (constructor; [reflexivity|]); constructor.
Defined.

(** The claim that an out-of-range fee still yields a byte string fails: at
    2^24 and at -1 the encoder raises, and no token list, fee list and
    out-of-range fee make it return. *)
Lemma encode_v3_path_fee_overflow_counterexample :
  encode_v3_path (w3 := mock_w3) [WETH; USDC cfg0; WETH] [500; 16777216]
  = inl OverflowError
  /\ encode_v3_path (w3 := mock_w3) [WETH; USDC cfg0; WETH] [-1; 500]
     = inl OverflowError
  /\ ~ (exists (w3 : Web3) (tokens : list string) (fees : list Z) (f : Z)
               (out : bytes),
          In f fees /\ (f < 0 \/ 2 ^ 24 <= f)
          /\ encode_v3_path tokens fees = inr out).
Proof.
  split; [vm_compute; reflexivity|]. split; [vm_compute; reflexivity|].
  intros (w3 & tokens & fees & f & out & Hin & Hbad & Hout).
  destruct (encode_v3_path_unfit_raises tokens fees
              (out_of_range_unfit fees f Hin Hbad)) as [e He].
  rewrite He in Hout. discriminate.
Qed.

Lemma min_out_ignores_quote_witness :
  run_params (mock_profit 1002000 500)
  = (inr (params_of (mock_profit 1002000 500), 1003000, 1002000),
     (run_params (mock_profit 1002000 500)).2)
  /\ run_params (mock_profit 998000 500)
     = (inr (params_of (mock_profit 998000 500), 1003000, 998000),
        (run_params (mock_profit 998000 500)).2)
  /\ params_of (mock_profit 1002000 500) = params_of (mock_profit 998000 500)
  /\ params_min_out (params_of (mock_profit 1002000 500)) = 1003000.
Proof.
  assert (H1 : run_params (mock_profit 1002000 500)
               = (inr (params_of (mock_profit 1002000 500), 1003000, 1002000),
                  (run_params (mock_profit 1002000 500)).2))
    by (vm_compute; reflexivity).
  assert (H2 : run_params (mock_profit 998000 500)
               = (inr (params_of (mock_profit 998000 500), 1003000, 998000),
                  (run_params (mock_profit 998000 500)).2))
    by (vm_compute; reflexivity).
  split; [exact H1|]. split; [exact H2|].
  destruct (min_out_ignores_quote (w3 := mock_w3) cfg0 WETH (USDC cfg0)
              500 500 1000000 0 30 _ _ _ _ _ _ _ _ _ _ H1 H2)
    as (Hp & _ & _ & Hf).
  split; [exact Hp|exact Hf].
Defined.

Lemma unauthorized_run_submits_nothing_witness :
  handle (Web3 := mock_w3) _ (owner_call executor0) mock_foreign_owner
  = (inr (address seed0), mock_foreign_owner)
  /\ address seed0 <> address root0
  /\ run_flash mock_foreign_owner
     = (inr tt, (mock_foreign_owner,
                 [Ev (owner_call executor0) (inr (address seed0))]))
  /\ signed_txs (trace_of mock_foreign_owner) = []
  /\ submitter_invocations (trace_of mock_foreign_owner) = 0%nat.
Proof.
  assert (H1 : handle (Web3 := mock_w3) _ (owner_call executor0)
                 (mock_foreign_owner, @nil event).1
               = (inr (address seed0), mock_foreign_owner)) by reflexivity.
  assert (H2 : address seed0 <> address root0) by discriminate.
  split; [exact H1|]. split; [exact H2|].
  destruct (unauthorized_run_submits_nothing (w3 := mock_w3) cfg0
              seed0 root0 executor0 goldstem0 (mock_foreign_owner, [])
              (inr (address seed0)) mock_foreign_owner H1 H2)
    as (evs & Hrun & Hevs & Hn & Hs & _).
  change (flash_configured cfg0) with true in Hrun, Hevs. cbn [fst snd app] in Hrun.
  unfold trace_of, run_flash. rewrite Hrun. subst evs. cbn [fst snd].
  split; [reflexivity|]. split; [exact Hs|exact Hn].
Defined.

Lemma reverted_receipt_is_still_decoded_witness :
  run_flash mock_reverted
  = (result_of mock_reverted, (mock_reverted, trace_of mock_reverted))
  /\ receipts (trace_of mock_reverted) = [receipt_reverted]
  /\ status receipt_reverted <> 1
  /\ exists r,
       decodings (trace_of mock_reverted) = [(receipt_reverted, r)]
       /\ (default 0 (decoded_profit r) <= MIN_PROFIT_WEI cfg0 ->
           after_decoding (trace_of mock_reverted) = []
           /\ result_of mock_reverted = inr tt).
Proof.
  assert (H1 : run_flash mock_reverted
               = (result_of mock_reverted, (mock_reverted, trace_of mock_reverted)))
    by (vm_compute; reflexivity).
  assert (H2 : receipts (trace_of mock_reverted) = [receipt_reverted])
    by (vm_compute; reflexivity).
  assert (H3 : status receipt_reverted <> 1) by discriminate.
  split; [exact H1|]. split; [exact H2|]. split; [exact H3|].
  destruct (reverted_receipt_is_still_decoded (w3 := mock_w3) cfg0
              seed0 root0 executor0 goldstem0 _ _ _ _ _ _ H1 H2 H3)
    as (r & Hd & _ & Hstop).
  exists r. split; [exact Hd|exact Hstop].
Defined.

(** The claim that a reverted flash transaction is not decoded fails: in the
    run where the receipt has status 0, that receipt is handed to the event
    decoder. *)
Lemma reverted_receipt_counterexample :
  receipts (trace_of mock_reverted) = [receipt_reverted]
  /\ status receipt_reverted = 0
  /\ decodings (trace_of mock_reverted) = [(receipt_reverted, inr [])]
  /\ decodings (trace_of mock_reverted) <> [].
Proof.
  split; [vm_compute; reflexivity|]. split; [reflexivity|].
  assert (H : decodings (trace_of mock_reverted) = [(receipt_reverted, inr [])])
    by (vm_compute; reflexivity).
  split; [exact H|]. rewrite H. discriminate.
Qed.

Lemma routing_iff_profit_above_threshold_witness :
  run_flash (mock_profit 1002000 500)
  = (result_of (mock_profit 1002000 500),
     (mock_profit 1002000 500, trace_of (mock_profit 1002000 500)))
  /\ decodings (trace_of (mock_profit 1002000 500))
     = [(receipt_ok, inr [flash_completed 500])]
  /\ decoded_profit (inr [flash_completed 500]) = Some 500
  /\ MIN_PROFIT_WEI cfg0 < 500
  /\ submitter_invocations (after_decoding (trace_of (mock_profit 1002000 500)))
     = 1%nat.
Proof.
  assert (H1 : run_flash (mock_profit 1002000 500)
               = (result_of (mock_profit 1002000 500),
                  (mock_profit 1002000 500, trace_of (mock_profit 1002000 500))))
    by (vm_compute; reflexivity).
  assert (H2 : decodings (trace_of (mock_profit 1002000 500))
               = [(receipt_ok, inr [flash_completed 500])])
    by (vm_compute; reflexivity).
  assert (H3 : decoded_profit (inr [flash_completed 500]) = Some 500)
    by (vm_compute; reflexivity).
  assert (H4 : MIN_PROFIT_WEI cfg0 < 500) by reflexivity.
  split; [exact H1|]. split; [exact H2|]. split; [exact H3|]. split; [exact H4|].
  destruct (routing_iff_profit_above_threshold (w3 := mock_w3) cfg0
              seed0 root0 executor0 goldstem0 _ _ _ _ _ _ 500 H1 H2 H3)
    as ([_ Hfire] & _ & _).
  exact (Hfire H4).
Defined.

Lemma undecodable_profit_counts_as_zero_witness :
  run_flash mock_undecodable
  = (result_of mock_undecodable, (mock_undecodable, trace_of mock_undecodable))
  /\ decodings (trace_of mock_undecodable)
     = [(receipt_ok, inl (TransportError "ABI mismatch"))]
  /\ decoded_profit (inl (TransportError "ABI mismatch")) = None
  /\ 0 <= MIN_PROFIT_WEI cfg0
  /\ result_of mock_undecodable = inr tt
  /\ after_decoding (trace_of mock_undecodable) = []
  /\ submitter_invocations (trace_of mock_undecodable) = 1%nat.
Proof.
  assert (H1 : run_flash mock_undecodable
               = (result_of mock_undecodable,
                  (mock_undecodable, trace_of mock_undecodable)))
    by (vm_compute; reflexivity).
  assert (H2 : decodings (trace_of mock_undecodable)
               = [(receipt_ok, inl (TransportError "ABI mismatch"))])
    by (vm_compute; reflexivity).
  assert (H3 : decoded_profit (inl (TransportError "ABI mismatch")) = None)
    by reflexivity.
  assert (H4 : 0 <= MIN_PROFIT_WEI cfg0) by discriminate.
  split; [exact H1|]. split; [exact H2|]. split; [exact H3|]. split; [exact H4|].
  destruct (undecodable_profit_counts_as_zero (w3 := mock_w3) cfg0
              seed0 root0 executor0 goldstem0 _ _ _ _ _ _ H1 H2 H3)
    as [Hstop _].
  destruct (Hstop H4) as (Hres & Hnil & Hn & _).
  split; [exact Hres|]. split; [exact Hnil|exact Hn].
Defined.

Lemma routing_amount_is_constant_witness :
  run_flash (mock_profit 1002000 500)
  = (result_of (mock_profit 1002000 500),
     (mock_profit 1002000 500, trace_of (mock_profit 1002000 500)))
  /\ run_flash (mock_profit 1002000 900000)
     = (result_of (mock_profit 1002000 900000),
        (mock_profit 1002000 900000, trace_of (mock_profit 1002000 900000)))
  /\ decodings (trace_of (mock_profit 1002000 500))
     = [(receipt_ok, inr [flash_completed 500])]
  /\ decodings (trace_of (mock_profit 1002000 900000))
     = [(receipt_ok, inr [flash_completed 900000])]
  /\ length (signed_txs (after_decoding (trace_of (mock_profit 1002000 500)))) = 1%nat
  /\ Forall (fun t => transfers t (address root0) (contract_address goldstem0)
                        10000000000000)
       (signed_txs (after_decoding (trace_of (mock_profit 1002000 500))))
  /\ Forall (fun t => transfers t (address root0) (contract_address goldstem0)
                        10000000000000)
       (signed_txs (after_decoding (trace_of (mock_profit 1002000 900000)))).
Proof.
  assert (H1 : run_flash (mock_profit 1002000 500)
               = (result_of (mock_profit 1002000 500),
                  (mock_profit 1002000 500, trace_of (mock_profit 1002000 500))))
    by (vm_compute; reflexivity).
  assert (H2 : run_flash (mock_profit 1002000 900000)
               = (result_of (mock_profit 1002000 900000),
                  (mock_profit 1002000 900000,
                   trace_of (mock_profit 1002000 900000))))
    by (vm_compute; reflexivity).
  assert (H3 : decodings (trace_of (mock_profit 1002000 500))
               = [(receipt_ok, inr [flash_completed 500])])
    by (vm_compute; reflexivity).
  assert (H4 : decodings (trace_of (mock_profit 1002000 900000))
               = [(receipt_ok, inr [flash_completed 900000])])
    by (vm_compute; reflexivity).
  split; [exact H1|]. split; [exact H2|]. split; [exact H3|]. split; [exact H4|].
  split; [vm_compute; reflexivity|].
  destruct (routing_amount_is_constant (w3 := mock_w3) cfg0
              seed0 root0 executor0 goldstem0 _ _ _ _ _ _ _ _ _ _ _ _ 500 900000
              H1 H2 H3 ltac:(vm_compute; reflexivity)
              H4 ltac:(vm_compute; reflexivity)
              ltac:(reflexivity) ltac:(reflexivity))
    as (_ & Hf1 & Hf2 & _).
  split; [exact Hf1|exact Hf2].
Defined.

(** The three cases of the routing decision named in the design: 500 over a
    threshold of 400 routes once; 300 and 400 do not route. *)
Example routing_500_over_400 :
  submitter_invocations (after_decoding (trace_of (mock_profit 1002000 500))) = 1%nat
  /\ length (signed_txs (after_decoding (trace_of (mock_profit 1002000 500)))) = 1%nat.
Proof. split; vm_compute; reflexivity. Qed.

Example routing_300_under_400 :
  decodings (trace_of (mock_profit 1002000 300))
  = [(receipt_ok, inr [flash_completed 300])]
  /\ after_decoding (trace_of (mock_profit 1002000 300)) = []
  /\ result_of (mock_profit 1002000 300) = inr tt.
Proof. repeat split; vm_compute; reflexivity. Qed.

Example routing_400_at_400 :
  decodings (trace_of (mock_profit 1002000 400))
  = [(receipt_ok, inr [flash_completed 400])]
  /\ after_decoding (trace_of (mock_profit 1002000 400)) = []
  /\ result_of (mock_profit 1002000 400) = inr tt.
Proof. repeat split; vm_compute; reflexivity. Qed.


(** * Further properties *)

Section MoreProperties.

Context `{w3 : Web3}.
Variable cfg : config.

(** ** Helpers of the path encoder *)

(** X1. [_fee3] returns only for a fee in [0, 2^24), and then exactly three
    bytes whose big-endian value is the fee. *)
Theorem fee3_three_bytes_roundtrip (f : Z) (b : bytes) :
  _fee3 f = inr b ->
  fee_fits f /\ length b = 3%nat /\ int_from_bytes b = f.
Proof.
  intros H. apply int_to_bytes_round in H as (Hl & Hv & Hr).
  change (256 ^ Z.of_nat 3) with (2 ^ 24) in Hr. split; [exact Hr|done].
Qed.

Lemma to20_inv t a : _to20 t = inr a -> is_address t = true /\ address_of t a.
Proof.
  intros H. destruct (is_address t) eqn:Hv.
  - split; [done|]. destruct (to20_valid t Hv) as [a' Ha'].
    pose proof Ha' as (Ha'' & _). rewrite H in Ha''.
    assert (a' = a) as -> by congruence. done.
  - by rewrite (to20_invalid t Hv) in H.
Qed.

(** X2. [_to20] returns exactly for the strings that are 40 hex digits after
    an optional [0x] prefix, always 20 bytes; every other string raises
    [ValueError]. *)
Theorem to20_returns_iff_address (t : string) :
  (is_address t = true <-> exists a, _to20 t = inr a)
  /\ (forall a, _to20 t = inr a -> length a = 20%nat)
  /\ (is_address t = false <-> _to20 t = inl ValueError).
Proof.
  split; [split|split; [|split]].
  - intros Hv. destruct (to20_valid t Hv) as (a & Ha & _). by exists a.
  - intros [a Ha]. by apply to20_inv in Ha as [? _].
  - intros a Ha. by apply to20_inv in Ha as (_ & _ & ? & _).
  - apply to20_invalid.
  - intros H. destruct (is_address t) eqn:Hv; [|done].
    destruct (to20_valid t Hv) as (a & Ha & _). by rewrite H in Ha.
Qed.

Lemma lower_ascii_idemp c : lower_ascii (lower_ascii c) = lower_ascii c.
Proof. destruct c as [[] [] [] [] [] [] [] []]; reflexivity. Qed.

Lemma lower_upper_lower c :
  lower_ascii (upper_ascii (lower_ascii c)) = lower_ascii c.
Proof. destruct c as [[] [] [] [] [] [] [] []]; reflexivity. Qed.

Lemma imap_case_lower (f : nat -> ascii -> ascii) l :
  (forall i c, f i c = c \/ f i c = upper_ascii c) ->
  map lower_ascii (imap f (map lower_ascii l)) = map lower_ascii l.
Proof.
  revert f. induction l as [|c l IH]; intros f Hf; cbn; [done|].
  f_equal.
  - destruct (Hf 0%nat (lower_ascii c)) as [-> | ->].
    + apply lower_ascii_idemp.
    + apply lower_upper_lower.
  - apply IH. intros i c'. apply Hf.
Qed.

Lemma to_checksum_digits t :
  is_address t = true -> to_checksum t = inr (checksum_of_digits (address_digits t)).
Proof.
  intros Hv. unfold to_checksum, to_normalized_address. rewrite Hv.
  unfold mbind, result_bind, mret, result_ret. by rewrite remove_0x_prefix_0x.
Qed.

Lemma to_checksum_invalid t : is_address t = false -> to_checksum t = inl ValueError.
Proof.
  intros Hv. unfold to_checksum, to_normalized_address. by rewrite Hv.
Qed.

Lemma checksum_digits_back t :
  address_digits (checksum_of_digits (address_digits t)) = address_digits t.
Proof.
  unfold address_digits at 1. unfold checksum_of_digits.
  rewrite list_ascii_of_string_of_list_ascii, remove_0x_prefix_0x.
  unfold address_digits. apply imap_case_lower.
  intros i c. destruct (eip55_upper _ i); auto.
Qed.

(** X3. [to_checksum] is idempotent: what it returns is itself an address
    and is its own checksum form. *)
Theorem to_checksum_idempotent (t s : string) :
  to_checksum t = inr s -> is_address s = true /\ to_checksum s = inr s.
Proof.
  intros H. destruct (is_address t) eqn:Hv;
    [|by rewrite (to_checksum_invalid t Hv) in H].
  destruct (to_checksum_valid t Hv) as (s' & Hs' & Hvs & _).
  rewrite H in Hs'. injection Hs' as <-. split; [done|].
  rewrite (to_checksum_digits t Hv) in H. injection H as <-.
  rewrite (to_checksum_digits _ Hvs). by rewrite checksum_digits_back.
Qed.

Lemma address_of_digits t a : address_of t a -> hexlify a = address_digits t.
Proof. by intros (_ & _ & ?). Qed.

(** X4. Two strings give the same 20 bytes exactly when they are the same
    address: [_to20] does not see letter case or the prefix, and it never
    sends two different addresses to the same bytes. *)
Theorem to20_same_bytes_same_address (t1 t2 : string) (a1 a2 : bytes) :
  _to20 t1 = inr a1 -> _to20 t2 = inr a2 ->
  (a1 = a2 <-> to_checksum t1 = to_checksum t2)
  /\ (a1 = a2 <-> address_digits t1 = address_digits t2).
Proof.
  intros H1 H2.
  apply to20_inv in H1 as H1'. destruct H1' as [Hv1 Ha1].
  apply to20_inv in H2 as H2'. destruct H2' as [Hv2 Ha2].
  apply address_of_digits in Ha1, Ha2.
  assert (Hfwd : a1 = a2 -> address_digits t1 = address_digits t2)
    by (intros ->; congruence).
  assert (Hck : address_digits t1 = address_digits t2 ->
                to_checksum t1 = to_checksum t2)
    by (intros E; by rewrite !to_checksum_digits, E).
  assert (Hback : to_checksum t1 = to_checksum t2 -> a1 = a2).
  { intros E. unfold _to20 in H1, H2. rewrite E in H1. congruence. }
  split; split; auto.
Qed.

(** ** The path encoder, read backwards *)

Lemma encode_hops_inv tokens : forall fees i out out',
  encode_hops tokens i fees out = (out', None) ->
  Forall fee_fits fees
  /\ exists addrs,
       Forall2 address_of (take (length fees) (drop (S i) tokens)) addrs
       /\ length addrs = length fees
       /\ out' = out ++ path_hops fees addrs.
Proof.
  induction fees as [|f fees IH]; intros i out out' H.
  - cbn in H. injection H as <-. split; [constructor|].
    exists []. cbn. by rewrite app_nil_r.
  - cbn [encode_hops] in H.
    destruct (_fee3 f) as [?|fb] eqn:Ef; [done|].
    rewrite Nat.add_1_r in H.
    destruct (tokens !! S i) as [t|] eqn:Et; [|done].
    destruct (_to20 t) as [?|tb] eqn:Eb; [done|].
    apply IH in H as (Hf & addrs & Ha & Hl & ->).
    assert (Hfit : fee_fits f).
    { apply int_to_bytes_round in Ef as (_ & _ & Hr).
      change (256 ^ Z.of_nat 3) with (2 ^ 24) in Hr. exact Hr. }
    rewrite (fee3_fits f Hfit) in Ef. injection Ef as <-.
    apply to20_inv in Eb as [_ Hb].
    split; [by constructor|]. exists (tb :: addrs).
    split; [|split; [simpl; lia|]].
    + rewrite (drop_S _ t _ Et). cbn [length take]. by constructor.
    + cbn [path_hops]. by rewrite <- !app_assoc.
Qed.

Lemma encode_v3_path_inv tokens fees p :
  encode_v3_path tokens fees = inr p ->
  (2 <= length tokens)%nat /\ length fees = (length tokens - 1)%nat
  /\ Forall fee_fits fees
  /\ exists addrs, Forall2 address_of tokens addrs /\ p = path_layout addrs fees.
Proof.
  unfold encode_v3_path, encode_v3_path_out.
  destruct (Z.leb_spec 2 (Z.of_nat (length tokens))); [|done].
  destruct (Z.eqb_spec (Z.of_nat (length fees)) (Z.of_nat (length tokens) - 1));
    [|done].
  cbn [andb].
  destruct tokens as [|t0 tokens]; [done|]. cbn [lookup list_lookup].
  destruct (_to20 t0) as [?|a0] eqn:E0; [done|].
  destruct (encode_hops (t0 :: tokens) 0 fees ([] ++ a0)) as [out [?|]] eqn:Eh;
    [done|].
  intros [= <-].
  apply encode_hops_inv in Eh as (Hf & addrs & Ha & Hl & ->).
  apply to20_inv in E0 as [_ Ha0].
  match goal with
  | Hge : 2 <= Z.of_nat _, Heq : Z.of_nat _ = _ |- _ =>
      assert (Hn : (1 <= length tokens)%nat) by (clear -Hge; simpl in Hge; lia);
      assert (Hlf : length fees = length tokens) by (clear -Heq; simpl in Heq; lia)
  end.
  split; [simpl; lia|]. split; [simpl; lia|]. split; [done|].
  exists (a0 :: addrs). split; [|done].
  constructor; [done|].
  change (drop 1 (t0 :: tokens)) with tokens in Ha.
  rewrite take_ge in Ha by lia. done.
Qed.

(** X5. Whatever [encode_v3_path] returns is a well-formed path: it returns
    only when there are at least two tokens, one fee fewer than tokens, every
    token is an address and every fee fits three bytes, and the result then
    has 20n + 3(n-1) bytes and reads back, by field width, as as many
    addresses and the same fees. *)
Theorem encode_v3_path_returns_well_formed
    (tokens : list string) (fees : list Z) (p : bytes) :
  encode_v3_path tokens fees = inr p ->
  (2 <= length tokens)%nat
  /\ length fees = (length tokens - 1)%nat
  /\ Forall (fun t => is_address t = true) tokens
  /\ Forall fee_fits fees
  /\ length p = (20 * length tokens + 3 * (length tokens - 1))%nat
  /\ exists addrs,
       decode_v3_path p = Some (addrs, fees) /\ length addrs = length tokens.
Proof.
  intros H. apply encode_v3_path_inv in H as (Hn & Hl & Hf & addrs & Ha & ->).
  pose proof (Forall2_length _ _ _ Ha) as Hla.
  assert (H20 : Forall (fun a => length a = 20%nat) addrs).
  { clear -Ha. induction Ha as [|t a ? ? (_ & H & _) _ IH]; by constructor. }
  assert (Hv : Forall (fun t => is_address t = true) tokens).
  { clear -Ha. induction Ha as [|t a ? ? (H & _) _ IH]; constructor; [|done].
    by apply to20_inv in H as [? _]. }
  destruct (decode_layout addrs fees) as [Hlen Hdec]; [lia|done|done|].
  repeat split; try done; [lia|]. by exists addrs.
Qed.

(** X6. The encoding is one-to-one: two inputs for which [encode_v3_path]
    returns the same bytes have the same fees and, position by position, the
    same addresses (equal checksum forms). *)
Theorem encode_v3_path_injective
    (tokens1 tokens2 : list string) (fees1 fees2 : list Z) (p : bytes) :
  encode_v3_path tokens1 fees1 = inr p ->
  encode_v3_path tokens2 fees2 = inr p ->
  fees1 = fees2
  /\ Forall2 (fun t1 t2 => to_checksum t1 = to_checksum t2) tokens1 tokens2.
Proof.
  intros H1 H2.
  apply encode_v3_path_inv in H1 as (Hn1 & Hl1 & Hf1 & addrs1 & Ha1 & Hp1).
  apply encode_v3_path_inv in H2 as (Hn2 & Hl2 & Hf2 & addrs2 & Ha2 & Hp2).
  pose proof (Forall2_length _ _ _ Ha1) as Hla1.
  pose proof (Forall2_length _ _ _ Ha2) as Hla2.
  assert (H201 : Forall (fun a => length a = 20%nat) addrs1).
  { clear -Ha1. induction Ha1 as [|t a ? ? (_ & H & _) _ IH]; by constructor. }
  assert (H202 : Forall (fun a => length a = 20%nat) addrs2).
  { clear -Ha2. induction Ha2 as [|t a ? ? (_ & H & _) _ IH]; by constructor. }
  destruct (decode_layout addrs1 fees1) as [_ Hd1]; [lia|done|done|].
  destruct (decode_layout addrs2 fees2) as [_ Hd2]; [lia|done|done|].
  rewrite <- Hp1 in Hd1. rewrite <- Hp2, Hd1 in Hd2.
  injection Hd2 as -> ->. split; [done|].
  clear -Ha1 Ha2. revert tokens2 Ha2.
  induction Ha1 as [|t1 a ts1 addrs (Ht1 & _ & Hd1) _ IH]; intros tokens2 Ha2.
  - inversion Ha2. constructor.
  - inversion Ha2 as [|t2 ? ts2 ? (Ht2 & _ & Hd2) Hrest]; subst.
    constructor; [|by apply IH].
    apply to20_inv in Ht1 as [Hv1 _]. apply to20_inv in Ht2 as [Hv2 _].
    rewrite !to_checksum_digits by done. f_equal.
    unfold address_digits. congruence.
Qed.

(** ** Fees and submission *)

Ltac open_M :=
  unfold mbind, M_bind, mret, M_ret, lift, call, try_except in *.

Ltac step_answer :=
  match goal with
  | |- context [handle ?X ?o ?w] =>
      let w' := fresh "w" in
      destruct (handle X o w) as [[?|?] w']; cbn [fst snd]
  end.

Ltac step_named e x :=
  match goal with
  | |- context [handle ?X ?o ?w] =>
      let w' := fresh "w" in
      destruct (handle X o w) as [[e|x] w']; cbn [fst snd]
  end.

Ltac new_events :=
  cbn [fst snd]; rewrite <- ?app_assoc; cbn [app]; reflexivity.

(** X7. [suggest_fees] asks for the priority-fee hint, the latest block and
    the gas price, in that order.  A failing hint is replaced by the fixed tip
    of 2*10^11 wei and never makes it raise; it returns
    [(2 * base + tip, tip)] with [base] the block's base fee, or the gas price
    when the block has none; a failing block or gas-price request is raised
    as is, the latter even when the block carries a base fee. *)
Theorem suggest_fees_outcome (s : W * list event) :
  exists rtip evs,
    (suggest_fees s).2.2 = s.2 ++ Ev max_priority_fee rtip :: evs
    /\ match (suggest_fees s).1 with
       | inr (max_fee, max_prio) =>
           exists blk gp,
             evs = [Ev get_block_latest (inr blk); Ev gas_price (inr gp)]
             /\ max_prio = match rtip with
                           | inr tip => tip
                           | inl _ => 200000000000
                           end
             /\ max_fee = default gp (baseFeePerGas blk) * 2 + max_prio
       | inl e =>
           evs = [Ev get_block_latest (inl e)]
           \/ exists blk,
                evs = [Ev get_block_latest (inr blk); Ev gas_price (inl e)]
       end.
Proof.
  unfold suggest_fees. open_M.
  change (to_wei_ether (Dec 2 (-7))) with (inr 200000000000 : result Z).
  repeat step_answer;
    (eexists _, _; split; [new_events|]); cbn; eauto.
Qed.

(** X8. The stages of [send_tx] run in order and each needs the one before:
    one nonce query for the signer; a transaction is signed only after its
    gas estimate came back, with the signer's key, and it is the estimated
    transaction with that estimate under ["gas"] (the estimate itself being
    asked with ["from"] set to the signer); a raw transaction is broadcast
    only when it is the signer's answer; nothing is done twice.  It returns
    the receipt of the broadcast transaction, and when it raises, the
    exception is the answer of the last request it made. *)
Theorem send_tx_pipeline (tx : txdict) (signer : account) (s : W * list event) :
  exists evs,
    (send_tx tx signer s).2.2 = s.2 ++ evs
    /\ (exists rn, nonce_queries evs = [(address signer, rn)])
    /\ (length (gas_estimates evs) <= 1)%nat
    /\ (length (signings evs) <= 1)%nat
    /\ (length (broadcasts evs) <= 1)%nat
    /\ (forall t k r, In (t, k, r) (signings evs) ->
        k = key signer
        /\ exists t0 g,
             gas_estimates evs = [(<["from" := VStr (address signer)]> t0, inr g)]
             /\ t = <["gas" := VInt g]> t0)
    /\ (forall raw r, In (raw, r) (broadcasts evs) ->
        exists t sg,
          signings evs = [(t, key signer, inr sg)] /\ raw = rawTransaction sg)
    /\ match (send_tx tx signer s).1 with
       | inr rcpt =>
           exists raw h,
             broadcasts evs = [(raw, inr h)]
             /\ last evs = Some (Ev (wait_for_transaction_receipt h) (inr rcpt))
       | inl e => exists X (o : op X), last evs = Some (Ev o (inl e))
       end.
Proof.
  unfold send_tx, suggest_fees. open_M.
  change (to_wei_ether (Dec 2 (-7))) with (inr 200000000000 : result Z).
  repeat step_answer;
    (eexists; split; [new_events|]);
    (split; [by eexists|]);
    (split; [cbn; lia|]); (split; [cbn; lia|]); (split; [cbn; lia|]);
    (split; [first [ by intros ? ? ? []
                   | intros ? ? ? [[= <- <- <-]|[]]; split; [done|];
                     by eexists _, _ ]|]);
    (split; [first [ by intros ? ? []
                   | intros ? ? [[= <- <-]|[]]; by eexists _, _ ]|]);
    cbn; eauto.
Qed.



(** ** Transfers *)

Lemma send_tx_summary tx signer s :
  exists evs,
    (send_tx tx signer s).2.2 = s.2 ++ evs
    /\ submission signer tx evs (send_tx tx signer s).1.
Proof.
  unfold send_tx, suggest_fees, submission. open_M.
  change (to_wei_ether (Dec 2 (-7))) with (inr 200000000000 : result Z).
  repeat step_answer;
    (eexists; split; [new_events|]);
    (split; [reflexivity|]); (split; [by eexists|]);
    (split; [reflexivity|]); (split; [reflexivity|]); (split; [reflexivity|]);
    (split; [reflexivity|]); (split; [cbn; lia|]); (split; [cbn; lia|]);
    (split; [|by cbn]);
    cbn; repeat constructor; cbn;
    intros k Hk; apply send_tx_signed_fields; intros ->; apply Hk; cbn; tauto.
Qed.

Lemma transfer_tx_fields from to wei :
  transfers (transfer_tx from to wei) from to wei.
Proof.
  unfold transfers, transfer_tx. repeat split; by simplify_map_eq.
Qed.

Lemma submission_transfers signer from to wei evs res :
  submission signer (transfer_tx from to wei) evs res ->
  Forall (fun x => x.1.2 = key signer /\ transfers x.1.1 from to wei)
    (signings evs).
Proof.
  intros (_ & _ & _ & _ & _ & _ & _ & _ & Hf & _).
  eapply Forall_impl; [exact Hf|]. cbn beta. intros x [Hk Hfld].
  split; [done|]. destruct (transfer_tx_fields from to wei) as (H1 & H2 & H3).
  unfold transfers. rewrite !Hfld; [done|..]; cbn; intros H;
    repeat (destruct H as [H|H]; [discriminate|]); done.
Qed.



(** ** The flash flow, stage by stage *)

Lemma abi_path_field path v params :
  abi_encode_bytes_uint256 path v = inr params ->
  Z.of_nat (length path) < 2 ^ 256 ->
  params_path params = path
  /\ length params = (96 + length path + (32 - length path mod 32) mod 32)%nat.
Proof.
  unfold abi_encode_bytes_uint256, params_path.
  destruct (_ && _); [|done]. intros E Hlen.
  match type of E with inr ?x = _ => assert (params = x) as -> by congruence end.
  clear E. split.
  - rewrite (app_assoc (be_bytes 32 64)).
    rewrite (drop_app_length' (be_bytes 32 64 ++ be_bytes 32 v) _ 64)
      by (by rewrite length_app, !be_bytes_length).
    rewrite (take_app_length' (be_bytes 32 (Z.of_nat (length path))) _ 32)
      by (by rewrite be_bytes_length).
    rewrite int_from_be_bytes, Z.mod_small
      by (change (256 ^ Z.of_nat 32) with (2 ^ 256); lia).
    rewrite Nat2Z.id.
    rewrite (app_assoc _ (be_bytes 32 (Z.of_nat (length path)))).
    rewrite (drop_app_length' _ _ 96)
      by (by rewrite !length_app, !be_bytes_length).
    by rewrite take_app_length.
  - rewrite !length_app, !be_bytes_length, repeat_length. lia.
Qed.

(** The transaction of the follow-up transfer. *)
Lemma flashloan_and_arb_stages seed root fe gs w :
  let out := flashloan_and_arb cfg seed root fe gs (w, []) in
  (out.1 = inr tt
   /\ (out.2.2 = []
       \/ (exists r, out.2.2 = [Ev (owner_call fe) r])
       \/ (exists quoter path rq,
             out.2.2 = [Ev (owner_call fe) (inr (address root));
                        Ev (quoteExactInput_call quoter path (FLASH_AMOUNT_WEI cfg)) rq])))
  \/ exists asset mid path quoter q params rb,
       flash_configured cfg = true
       /\ to_checksum (default "" (FLASH_ASSET cfg)) = inr asset
       /\ to_checksum (USDC cfg) = inr mid
       /\ encode_v3_path [asset; mid; asset] [500; 500] = inr path
       /\ to_checksum (UNIV3_QUOTER cfg) = inr quoter
       /\ abi_encode_bytes_uint256 path
            (min_out (FLASH_AMOUNT_WEI cfg) 500000000000 30) = inr params
       /\ let pre :=
            [Ev (owner_call fe) (inr (address root));
             Ev (quoteExactInput_call quoter path (FLASH_AMOUNT_WEI cfg)) (inr q);
             Ev (runSimpleFlash_build fe asset (FLASH_AMOUNT_WEI cfg) params
                   (<["from" := VStr (address root)]> ∅)) rb] in
          match rb with
          | inl e => out.2.2 = pre /\ out.1 = inl e
          | inr tx =>
              exists evs1 rs,
                submission root tx evs1 rs
                /\ match rs with
                   | inl e => out.2.2 = pre ++ evs1 /\ out.1 = inl e
                   | inr rcpt =>
                       exists rdec post,
                         out.2.2 = pre ++ evs1
                                   ++ Ev (process_receipt fe rcpt) rdec :: post
                         /\ if MIN_PROFIT_WEI cfg <? default 0 (decoded_profit rdec)
                            then exists rs2,
                                submission root
                                  (transfer_tx (address root) (contract_address gs)
                                     10000000000000) post rs2
                                /\ out.1 = match rs2 with
                                           | inl e => inl e
                                           | inr _ => inr tt
                                           end
                            else post = [] /\ out.1 = inr tt
                   end
          end.
Proof.
  cbn zeta. unfold flashloan_and_arb, flash_configured.
  destruct (_ || _); cbn [negb]; [left; split; [done|by left]|].
  open_M.
  step_answer; [left; split; [done|right; left; by eexists]|].
  destruct (String.eqb _ _) eqn:Eown; cbn [negb];
    [|left; split; [done|right; left; by eexists]].
  apply String.eqb_eq in Eown. subst.
  change (to_wei_ether (Dec 5 (-7))) with (inr 500000000000 : result Z).
  cbn iota.
  unfold encode_flash_params_for_roundtrip. open_M.
  destruct (to_checksum (default "" (FLASH_ASSET cfg))) as [?|asset] eqn:Ea;
    [left; split; [done|right; left; by eexists]|].
  destruct (to_checksum (USDC cfg)) as [?|mid] eqn:Em;
    [left; split; [done|right; left; by eexists]|].
  destruct (encode_v3_path _ _) as [?|path] eqn:Ep;
    [left; split; [done|right; left; by eexists]|].
  destruct (to_checksum (UNIV3_QUOTER cfg)) as [?|quoter] eqn:Eq;
    [left; split; [done|right; left; by eexists]|].
  step_named equote q; [left; split; [done|right; right; by eexists _, _, _]|].
  destruct (abi_encode_bytes_uint256 _ _) as [?|params] eqn:Eabi;
    [left; split; [done|right; right; by eexists _, _, _]|].
  cbn iota beta.
  right. exists asset, mid, path, quoter, q, params.
  step_named eb tx.
  { exists (inl eb). repeat (split; [done|]). cbn. done. }
  exists (inr tx). repeat (split; [done|]). cbn zeta iota.
  match goal with
  | |- context [send_tx tx root ?s1] =>
      destruct (send_tx_summary tx root s1) as (evs1 & Htr & Hsub);
      destruct (send_tx tx root s1) as [[e|rcpt] [wsub tr2]]
  end; cbn [fst snd] in Htr, Hsub; subst tr2.
  { exists evs1, (inl e). split; [exact Hsub|]. cbn. done. }
  exists evs1, (inr rcpt). split; [exact Hsub|]. cbn [fst snd].
  assert (Hroute : forall p s2,
    exists post rs2,
      ((if MIN_PROFIT_WEI cfg <? p
        then split_via_goldstem (Dec 1 (-5)) root gs
        else fun s => (inr tt, s)) s2).2.2 = s2.2 ++ post
      /\ if MIN_PROFIT_WEI cfg <? p
         then submission root
                (transfer_tx (address root) (contract_address gs) 10000000000000)
                post rs2
              /\ ((if MIN_PROFIT_WEI cfg <? p
                   then split_via_goldstem (Dec 1 (-5)) root gs
                   else fun s => (inr tt, s)) s2).1
                 = match rs2 with inl e => inl e | inr _ => inr tt end
         else post = []
              /\ ((if MIN_PROFIT_WEI cfg <? p
                   then split_via_goldstem (Dec 1 (-5)) root gs
                   else fun s => (inr tt, s)) s2).1 = inr tt).
  { intros p s2. destruct (MIN_PROFIT_WEI cfg <? p).
    - unfold split_via_goldstem. open_M.
      change (to_wei_ether (Dec 1 (-5))) with (inr 10000000000000 : result Z).
      cbn iota.
      fold (transfer_tx (address root) (contract_address gs) 10000000000000).
      destruct (send_tx_summary
                  (transfer_tx (address root) (contract_address gs) 10000000000000)
                  root s2) as (post & Hp & Hs).
      destruct (send_tx _ root s2) as [[e|rc] [w' tr']];
        cbn [fst snd] in *; by eexists post, _.
    - exists [], (inl ValueError). cbn. by rewrite app_nil_r. }
  step_named ed evts.
  - match goal with
    | |- context [(if MIN_PROFIT_WEI cfg <? 0 then _ else _) ?s2] =>
        destruct (Hroute 0 s2) as (post & rs2 & Hpost & Hrt)
    end.
    cbn [fst snd] in Hpost. exists (inl ed), post.
    split; [rewrite Hpost, <- ?app_assoc; reflexivity|].
    change (default 0 (decoded_profit (inl ed))) with 0.
    destruct (MIN_PROFIT_WEI cfg <? 0); cbn iota in *; [by exists rs2|done].
  - destruct (last evts) as [ev|] eqn:El;
      [destruct (args ev !! "profitWei") as [p|] eqn:Epw|].
    + match goal with
      | |- context [(if MIN_PROFIT_WEI cfg <? p then _ else _) ?s2] =>
          destruct (Hroute p s2) as (post & rs2 & Hpost & Hrt)
      end.
      cbn [fst snd] in Hpost. exists (inr evts), post.
      split; [rewrite Hpost, <- ?app_assoc; reflexivity|].
      unfold decoded_profit. rewrite El, Epw. change (default 0 (Some p)) with p.
      destruct (MIN_PROFIT_WEI cfg <? p); cbn iota in *; [by exists rs2|done].
    + match goal with
      | |- context [(if MIN_PROFIT_WEI cfg <? 0 then _ else _) ?s2] =>
          destruct (Hroute 0 s2) as (post & rs2 & Hpost & Hrt)
      end.
      cbn [fst snd] in Hpost. exists (inr evts), post.
      split; [rewrite Hpost, <- ?app_assoc; reflexivity|].
      unfold decoded_profit. rewrite El, Epw.
      change (default 0 (@None Z)) with 0.
      destruct (MIN_PROFIT_WEI cfg <? 0); cbn iota in *; [by exists rs2|done].
    + match goal with
      | |- context [(if MIN_PROFIT_WEI cfg <? 0 then _ else _) ?s2] =>
          destruct (Hroute 0 s2) as (post & rs2 & Hpost & Hrt)
      end.
      cbn [fst snd] in Hpost. exists (inr evts), post.
      split; [rewrite Hpost, <- ?app_assoc; reflexivity|].
      unfold decoded_profit. rewrite El.
      change (default 0 (@None Z)) with 0.
      destruct (MIN_PROFIT_WEI cfg <? 0); cbn iota in *; [by exists rs2|done].
Qed.

Ltac observe :=
  unfold submission, owner_reads, quotes, builds, decodings, signings,
    broadcasts, nonce_queries, receipts, submitter_invocations in *;
  rewrite ?omap_app, ?List.filter_app;
  cbn [omap list_omap List.filter is_nonce_query app];
  rewrite ?omap_app, ?List.filter_app, ?length_app; cbn [length app].

Lemma submission_keys signer tx evs res :
  submission signer tx evs res ->
  Forall (fun x => x.1.2 = key signer) (signings evs).
Proof.
  intros (_ & _ & _ & _ & _ & _ & _ & _ & Hf & _).
  eapply Forall_impl; [exact Hf|]. by intros x [? _].
Qed.

Lemma submission_receipts signer tx evs res :
  submission signer tx evs res ->
  receipts evs = match res with inr rcpt => [rcpt] | inl _ => [] end.
Proof.
  intros (_ & _ & _ & _ & _ & _ & _ & _ & _ & Hr).
  destruct res; [done|]. by destruct Hr.
Qed.

Lemma flash_trace_bounds seed root fe gs w :
  let tr := (flashloan_and_arb cfg seed root fe gs (w, [])).2.2 in
  (length (owner_reads tr) <= 1)%nat
  /\ (length (quotes tr) <= 1)%nat
  /\ (length (builds tr) <= 1)%nat
  /\ (length (decodings tr) <= 1)%nat
  /\ (submitter_invocations tr <= 2)%nat
  /\ (length (signings tr) <= 2)%nat
  /\ (length (broadcasts tr) <= 2)%nat
  /\ Forall (fun x => x.1.2 = key root) (signings tr)
  /\ Forall (fun x => x.1 = address root) (nonce_queries tr)
  /\ (submitter_invocations tr <= S (length (receipts tr)))%nat
  /\ length (nonce_queries tr) = submitter_invocations tr.
Proof.
  cbn zeta.
  destruct (flashloan_and_arb_stages seed root fe gs w)
    as [(_ & [-> | [[r ->] | (quoter & path & rq & ->)]])
       | (asset & mid & path & quoter & q & params & rb & _ & _ & _ & _ & _ & _ & Hst)].
  1-3: cbn; repeat split; (lia || constructor).
  cbn zeta in Hst. destruct rb as [e|tx].
  { destruct Hst as [-> _]. cbn. repeat split; (lia || constructor). }
  destruct Hst as (evs1 & rs & Hsub & Hst).
  pose proof (submission_keys _ _ _ _ Hsub) as Hk.
  pose proof (submission_receipts _ _ _ _ Hsub) as Hr.
  destruct rs as [e|rcpt].
  { destruct Hst as [-> _].
    destruct Hsub as (Hn & (rn & Hq) & Ho & Hqu & Hb & Hd & Hs & Hbr & _ & _).
    observe. rewrite Ho, Hqu, Hb, Hd, Hq, Hr. cbn.
    repeat split; try lia; try done. by repeat constructor. }
  destruct Hst as (rdec & post & -> & Hrt).
  destruct Hsub as (Hn & (rn & Hq) & Ho & Hqu & Hb & Hd & Hs & Hbr & _ & _).
  destruct (MIN_PROFIT_WEI cfg <? default 0 (decoded_profit rdec)).
  - destruct Hrt as (rs2 & Hsub2 & _).
    pose proof (submission_keys _ _ _ _ Hsub2) as Hk2.
    pose proof (submission_receipts _ _ _ _ Hsub2) as Hr2.
    destruct Hsub2 as (Hn2 & (rn2 & Hq2) & Ho2 & Hqu2 & Hb2 & Hd2 & Hs2 & Hbr2 & _ & _).
    observe. rewrite Ho, Hqu, Hb, Hd, Hq, Hr, Ho2, Hqu2, Hb2, Hd2, Hq2. cbn.
    repeat split; try lia; try done.
    + by apply Forall_app.
    + by repeat constructor.
  - destruct Hrt as [-> _].
    observe. rewrite Ho, Hqu, Hb, Hd, Hq, Hr. cbn.
    repeat split; try lia; try done.
    + rewrite app_nil_r. done.
    + by repeat constructor.
Qed.

(** X12. One run of the flash flow reads [owner()] at most once, asks for at
    most one quote, builds at most one flash transaction, decodes at most one
    receipt and calls [send_tx] at most twice, so at most two transactions are
    signed and two broadcast; every signature is made with the operating
    account's key and every nonce is asked for its address (the funding
    account is never used); and a second call to [send_tx] is made only after
    the first came back with a receipt. *)
Theorem flashloan_and_arb_bounds
    (seed root : account) (fe gs : contract) (w : W) :
  let tr := (flashloan_and_arb cfg seed root fe gs (w, [])).2.2 in
  (length (owner_reads tr) <= 1)%nat
  /\ (length (quotes tr) <= 1)%nat
  /\ (length (builds tr) <= 1)%nat
  /\ (length (decodings tr) <= 1)%nat
  /\ (submitter_invocations tr <= 2)%nat
  /\ (length (signings tr) <= 2)%nat
  /\ (length (broadcasts tr) <= 2)%nat
  /\ Forall (fun x => x.1.2 = key root) (signings tr)
  /\ Forall (fun x => x.1 = address root) (nonce_queries tr)
  /\ (submitter_invocations tr <= S (length (receipts tr)))%nat.
Proof.
  cbn zeta.
  destruct (flash_trace_bounds seed root fe gs w)
    as (H1 & H2 & H3 & H4 & H5 & H6 & H7 & H8 & H9 & H10 & _).
  by repeat split.
Qed.

(** X13. Failures up to and including the quote are contained.  A run that
    never asked for the flash transaction to be built (not configured, owner
    check failed, bad address or fee, quote raised, floor too large for the
    params) returns normally and has made no call to [send_tx], signed
    nothing, broadcast nothing and decoded nothing. *)
Theorem flashloan_and_arb_stops_before_build
    (seed root : account) (fe gs : contract) (w w' : W)
    (res : result unit) (tr : list event) :
  flashloan_and_arb cfg seed root fe gs (w, []) = (res, (w', tr)) ->
  builds tr = [] ->
  res = inr tt
  /\ submitter_invocations tr = 0%nat
  /\ signings tr = [] /\ broadcasts tr = [] /\ decodings tr = []
  /\ receipts tr = [].
Proof.
  intros Hrun Hb.
  destruct (flashloan_and_arb_stages seed root fe gs w)
    as [(Hres & [Htr | [[r Htr] | (quoter & path & rq & Htr)]])
       | (asset & mid & path & quoter & q & params & rb & _ & _ & _ & _ & _ & _ & Hst)];
    rewrite Hrun in *; cbn [fst snd] in *.
  1-3: subst tr; by repeat split.
  cbn zeta in Hst. exfalso.
  destruct rb as [e|tx].
  { destruct Hst as [-> _]. discriminate. }
  destruct Hst as (evs1 & rs & _ & Hst). destruct rs as [e|rcpt].
  - destruct Hst as [-> _]. discriminate.
  - destruct Hst as (rdec & post & -> & _). discriminate.
Qed.

(** X14. The flash transaction is built only by an authorized, quoted run.
    Whenever [runSimpleFlash] is asked to be built, [owner()] had answered
    the operating account's address and the quote had been answered for the
    same path and amount; the asset is the checksum form of [FLASH_ASSET], the
    amount is [FLASH_AMOUNT_WEI], the sender is the operating account; the
    path is asset -> USDC -> asset at fee 500, 66 bytes long; and the params
    are 192 bytes that read back as that path and as the floor for the amount,
    a premium of 5*10^11 wei and 30 bps. *)
Theorem flashloan_and_arb_build_request
    (seed root : account) (fe gs : contract) (w w' : W)
    (res : result unit) (tr : list event)
    (asset : string) (amount : Z) (params : bytes) (overrides : txdict) :
  flashloan_and_arb cfg seed root fe gs (w, []) = (res, (w', tr)) ->
  In (asset, amount, params, overrides) (builds tr) ->
  owner_reads tr = [(fe, inr (address root))]
  /\ amount = FLASH_AMOUNT_WEI cfg
  /\ to_checksum (default "" (FLASH_ASSET cfg)) = inr asset
  /\ overrides = <["from" := VStr (address root)]> ∅
  /\ exists mid quoter path q,
       to_checksum (USDC cfg) = inr mid
       /\ encode_v3_path [asset; mid; asset] [500; 500] = inr path
       /\ quotes tr = [(quoter, path, amount, inr q)]
       /\ length path = 66%nat
       /\ params_path params = path
       /\ params_min_out params = min_out amount 500000000000 30
       /\ length params = 192%nat.
Proof.
  intros Hrun Hin.
  destruct (flashloan_and_arb_stages seed root fe gs w)
    as [(Hres & [Htr | [[r Htr] | (quoter & path & rq & Htr)]])
       | (asset' & mid & path & quoter & q & params' & rb
          & _ & Ha & Hm & Hp & _ & Habi & Hst)];
    rewrite Hrun in *; cbn [fst snd] in *.
  1-3: subst tr; by destruct Hin.
  cbn zeta in Hst.
  assert (Hlen : length path = 66%nat).
  { apply encode_v3_path_inv in Hp as (_ & _ & Hf & addrs & Haddr & ->).
    pose proof (Forall2_length _ _ _ Haddr) as Hl.
    assert (H20 : Forall (fun a => length a = 20%nat) addrs).
    { clear -Haddr. induction Haddr as [|t a ? ? (_ & H & _) _ IH]; by constructor. }
    destruct (decode_layout addrs [500; 500]) as [-> _]; simpl in *; (lia || done). }
  destruct (abi_path_field _ _ _ Habi) as [Hpath Hplen];
    [rewrite Hlen; reflexivity|].
  rewrite Hlen in Hplen. cbn in Hplen.
  pose proof (abi_min_out_field _ _ _ Habi) as Hmin.
  assert (Hobs : owner_reads tr = [(fe, inr (address root))]
                 /\ quotes tr = [(quoter, path, FLASH_AMOUNT_WEI cfg, inr q)]
                 /\ builds tr = [(asset', FLASH_AMOUNT_WEI cfg, params',
                                  <["from" := VStr (address root)]> ∅)]).
  { destruct rb as [e|tx].
    { destruct Hst as [-> _]. done. }
    destruct Hst as (evs1 & rs & Hsub & Hst).
    destruct rs as [e|rcpt].
    - destruct Hst as [-> _].
      destruct Hsub as (_ & _ & Ho & Hqu & Hb & _).
      observe. by rewrite Ho, Hqu, Hb.
    - destruct Hst as (rdec & post & -> & Hrt).
      destruct Hsub as (_ & _ & Ho & Hqu & Hb & _).
      destruct (MIN_PROFIT_WEI cfg <? default 0 (decoded_profit rdec)).
      + destruct Hrt as (rs2 & (_ & _ & Ho2 & Hqu2 & Hb2 & _) & _).
        observe. by rewrite Ho, Hqu, Hb, Ho2, Hqu2, Hb2.
      + destruct Hrt as [-> _]. observe. by rewrite Ho, Hqu, Hb. }
  destruct Hobs as (Ho & Hq & Hb). rewrite Hb in Hin.
  destruct Hin as [[= <- <- <- <-]|[]].
  repeat split; try done. by exists mid, quoter, path, q.
Qed.

(** X15. A flash transaction that could not be built or did not come back
    with a receipt ends the run with the exception: the flow does not catch
    it, decodes nothing and does not route. *)
Theorem flashloan_and_arb_submission_failure
    (seed root : account) (fe gs : contract) (w w' : W)
    (res : result unit) (tr : list event) :
  flashloan_and_arb cfg seed root fe gs (w, []) = (res, (w', tr)) ->
  builds tr <> [] ->
  receipts tr = [] ->
  (exists e, res = inl e)
  /\ decodings tr = []
  /\ (submitter_invocations tr <= 1)%nat
  /\ (length (signings tr) <= 1)%nat.
Proof.
  intros Hrun Hb Hrc.
  destruct (flashloan_and_arb_stages seed root fe gs w)
    as [(Hres & [Htr | [[r Htr] | (quoter & path & rq & Htr)]])
       | (asset & mid & path & quoter & q & params & rb & _ & _ & _ & _ & _ & _ & Hst)];
    rewrite Hrun in *; cbn [fst snd] in *.
  1-3: subst tr; by destruct Hb.
  cbn zeta in Hst. destruct rb as [e|tx].
  { destruct Hst as [-> ->]. cbn. repeat split; try lia; try done. by exists e. }
  destruct Hst as (evs1 & rs & Hsub & Hst). destruct rs as [e|rcpt].
  - destruct Hst as [-> ->].
    destruct Hsub as (Hn & _ & _ & _ & _ & Hd & Hs & _).
    observe. rewrite Hd. repeat split; try lia; try done. by exists e.
  - exfalso. destruct Hst as (rdec & post & -> & _).
    destruct Hsub as (_ & _ & _ & _ & _ & _ & _ & _ & _ & Hr & _).
    rewrite receipts_app, (receipts_app evs1), Hr in Hrc. discriminate.
Qed.

(** ** Quote and params *)

(** X16. [encode_flash_params_for_roundtrip] checks before it asks.  With an
    asset, intermediate token or quoter that is not an address, or a fee that
    does not fit three bytes, it raises without any request.  Otherwise it
    asks for exactly one quote, for the 66-byte path asset -> mid -> asset and
    the amount; a quote that raises is raised; a quote that answers gives back
    the first value of the answer as [quoted_out] and 192 bytes of params that
    read back as the path and the floor, unless the floor does not fit a
    [uint256], which raises [ValueOutOfBounds] after the quote was made. *)
Theorem encode_flash_params_outcome
    (asset mid : string) (f1 f2 amt prem bps : Z) (s : W * list event) :
  let out := encode_flash_params_for_roundtrip cfg asset mid f1 f2 amt prem bps s in
  if is_address asset && is_address mid && is_address (UNIV3_QUOTER cfg)
     && (0 <=? f1) && (f1 <? 2 ^ 24) && (0 <=? f2) && (f2 <? 2 ^ 24)
  then
    exists quoter path rq w',
      length path = 66%nat
      /\ handle _ (quoteExactInput_call quoter path amt) s.1 = (rq, w')
      /\ out.2 = (w', s.2 ++ [Ev (quoteExactInput_call quoter path amt) rq])
      /\ match rq with
         | inl e => out.1 = inl e
         | inr q =>
             if min_out amt prem bps <? 2 ^ 256
             then exists params,
                 out.1 = inr (params, min_out amt prem bps, amountOut q)
                 /\ length params = 192%nat
                 /\ params_path params = path
                 /\ params_min_out params = min_out amt prem bps
             else out.1 = inl ValueOutOfBounds
         end
  else exists e, out = (inl e, s).
Proof.
  cbn zeta. unfold encode_flash_params_for_roundtrip. open_M.
  destruct (is_address asset) eqn:Ha; cbn [andb];
    [|rewrite (to_checksum_invalid _ Ha); by eexists].
  destruct (to_checksum_valid asset Ha) as (a & -> & Hva & _).
  destruct (is_address mid) eqn:Hm; cbn [andb].
  2:{ rewrite (to_checksum_invalid _ Hm); by eexists. }
  destruct (to_checksum_valid mid Hm) as (m & -> & Hvm & _).
  destruct (is_address (UNIV3_QUOTER cfg)) eqn:Hq; cbn [andb].
  2:{ destruct (encode_v3_path _ _); [by eexists|].
      rewrite (to_checksum_invalid _ Hq); by eexists. }
  destruct (to_checksum_valid _ Hq) as (quoter & Hquoter & _ & _).
  assert (Hall : Forall (fun t => is_address t = true) [a; m; a])
    by (repeat (constructor; [assumption|]); constructor).
  destruct (Z.leb_spec 0 f1); cbn [andb].
  2:{ destruct (encode_v3_path_unfit_raises [a; m; a] [f1; f2]) as [e ->];
        [|by eexists].
      apply Exists_cons_hd. unfold fee_fits. lia. }
  destruct (Z.ltb_spec f1 (2 ^ 24)); cbn [andb].
  2:{ destruct (encode_v3_path_unfit_raises [a; m; a] [f1; f2]) as [e ->];
        [|by eexists].
      apply Exists_cons_hd. unfold fee_fits. lia. }
  destruct (Z.leb_spec 0 f2); cbn [andb].
  2:{ destruct (encode_v3_path_unfit_raises [a; m; a] [f1; f2]) as [e ->];
        [|by eexists].
      apply Exists_cons_tl, Exists_cons_hd. unfold fee_fits. lia. }
  destruct (Z.ltb_spec f2 (2 ^ 24)).
  2:{ destruct (encode_v3_path_unfit_raises [a; m; a] [f1; f2]) as [e ->];
        [|by eexists].
      apply Exists_cons_tl, Exists_cons_hd. unfold fee_fits. lia. }
  assert (Hf : Forall fee_fits [f1; f2])
    by (repeat (constructor; [unfold fee_fits; lia|]); constructor).
  destruct (valid_tokens_addresses _ Hall) as [addrs Haddr].
  rewrite (encode_v3_path_ok [a; m; a] [f1; f2] addrs Haddr) by (simpl; lia || done).
  assert (Hlen : length (path_layout addrs [f1; f2]) = 66%nat).
  { pose proof (Forall2_length _ _ _ Haddr) as Hl.
    assert (H20 : Forall (fun x => length x = 20%nat) addrs).
    { clear -Haddr. induction Haddr as [|t x ? ? (_ & H & _) _ IH]; by constructor. }
    destruct (decode_layout addrs [f1; f2]) as [-> _]; simpl in *; (lia || done). }
  rewrite Hquoter.
  exists quoter, (path_layout addrs [f1; f2]).
  destruct (handle _ (quoteExactInput_call quoter (path_layout addrs [f1; f2]) amt) s.1)
    as [[e|q] w'] eqn:Eq; cbn [fst snd].
  { exists (inl e), w'. by repeat split. }
  exists (inr q), w'. split; [done|]. split; [done|].
  destruct (abi_encode_bytes_uint256 _ _) as [e|params] eqn:Eabi; cbn [fst snd].
  - split; [done|]. unfold abi_encode_bytes_uint256 in Eabi.
    assert (1 <= min_out amt prem bps) by (unfold min_out; lia).
    destruct (Z.leb_spec 0 (min_out amt prem bps)); [|lia].
    destruct (Z.ltb_spec (min_out amt prem bps) (2 ^ 256)); [done|].
    cbn in Eabi. congruence.
  - split; [done|].
    destruct (abi_path_field _ _ _ Eabi) as [Hpath Hplen];
      [rewrite Hlen; reflexivity|].
    rewrite Hlen in Hplen. cbn in Hplen.
    pose proof (abi_min_out_field _ _ _ Eabi) as Hmin.
    unfold abi_encode_bytes_uint256 in Eabi.
    destruct (Z.ltb_spec (min_out amt prem bps) (2 ^ 256)).
    + by exists params.
    + rewrite andb_false_r in Eabi. discriminate.
Qed.

Lemma seed_to_root_run amount wei seed root s :
  to_wei_ether amount = inr wei ->
  exists evs rs w',
    seed_to_root amount seed root s
    = (match rs with inl e => inl e | inr _ => inr tt end, (w', s.2 ++ evs))
    /\ submission seed (transfer_tx (address seed) (address root) wei) evs rs.
Proof.
  intros Hwei. unfold seed_to_root. open_M. rewrite Hwei. cbn zeta.
  fold (transfer_tx (address seed) (address root) wei).
  destruct (send_tx_summary (transfer_tx (address seed) (address root) wei)
              seed s) as (evs & Htr & Hsub).
  destruct (send_tx _ seed s) as [[e|rcpt] [w' tr]];
    cbn [fst snd] in *; subst tr;
    [by exists evs, (inl e), w' | by exists evs, (inr rcpt), w'].
Qed.

Lemma split_via_goldstem_run_amount amount wei root gs s :
  to_wei_ether amount = inr wei ->
  exists evs rs w',
    split_via_goldstem amount root gs s
    = (match rs with inl e => inl e | inr _ => inr tt end, (w', s.2 ++ evs))
    /\ submission root (transfer_tx (address root) (contract_address gs) wei) evs rs.
Proof.
  intros Hwei. unfold split_via_goldstem. open_M. rewrite Hwei. cbn zeta.
  fold (transfer_tx (address root) (contract_address gs) wei).
  destruct (send_tx_summary (transfer_tx (address root) (contract_address gs) wei)
              root s) as (evs & Htr & Hsub).
  destruct (send_tx _ root s) as [[e|rcpt] [w' tr]];
    cbn [fst snd] in *; subst tr;
    [by exists evs, (inl e), w' | by exists evs, (inr rcpt), w'].
Qed.

End MoreProperties.


(** * The process *)

Section MainProperties.

Context `{host : Host}.

Ltac open_HM :=
  unfold mbind, HM_bind, mret, HM_ret, hraise, hcall, hlift, htry_except,
    run_flow, call in *.

Ltac host_answer e x :=
  match goal with
  | |- context [host_handle ?X ?o ?w] =>
      let w' := fresh "w" in
      destruct (host_handle X o w) as [[e|x] w']; cbn [fst snd]
  end.

Ltac chain_answer e x :=
  match goal with
  | |- context [handle ?X ?o ?w] =>
      let w' := fresh "w" in
      destruct (handle X o w) as [[e|x] w']; cbn [fst snd]
  end.

Lemma chain_trace_app tr1 tr2 :
  chain_trace (tr1 ++ tr2) = chain_trace tr1 ++ chain_trace tr2.
Proof. apply omap_app. Qed.

Lemma chain_trace_chain evs : chain_trace (map HChain evs) = evs.
Proof. induction evs as [|e evs IH]; [done|]. cbn. by f_equal. Qed.

Lemma accounts_chain evs : accounts (map HChain evs) = [].
Proof. by induction evs. Qed.

Lemma bound_contracts_chain evs : bound_contracts (map HChain evs) = [].
Proof. by induction evs. Qed.

Lemma files_read_chain evs : files_read (map HChain evs) = [].
Proof. by induction evs. Qed.

(** X17. [load_abi] never opens a file that is reported missing: it raises
    [FileNotFoundError] naming the path.  It returns only what the file holds
    under ["abi"], after one existence test and one read; an object without
    that member raises [KeyError], a document that is not an object
    [TypeError]. *)
Theorem load_abi_outcome (path : string) (s : W * list host_event) :
  exists r0 evs,
    (load_abi path s).2.2 = s.2 ++ HHost (path_exists path) r0 :: evs
    /\ match r0 with
       | inl e => evs = [] /\ (load_abi path s).1 = inl e
       | inr false =>
           evs = []
           /\ (load_abi path s).1
              = inl (FileNotFoundError ("ABI not found: " +:+ path))
       | inr true =>
           exists rj,
             evs = [HHost (json_load path) rj]
             /\ (load_abi path s).1
                = match rj with
                  | inl e => inl e
                  | inr (JObject members) =>
                      match members !! "abi" with
                      | Some a => inr a
                      | None => inl (Raised (KeyError "abi"))
                      end
                  | inr JOther => inl (Raised TypeError)
                  end
       end.
Proof.
  unfold load_abi. open_HM.
  host_answer e found.
  { exists (inl e), []. by rewrite <- ?app_assoc. }
  destruct found; cbn [negb].
  2:{ exists (inr false), []. by rewrite <- ?app_assoc. }
  exists (inr true).
  host_answer e doc.
  { eexists. split; [rewrite <- ?app_assoc; cbn [app]; reflexivity|]. by exists (inl e). }
  exists [HHost (json_load path) (inr doc)].
  destruct doc as [members|]; [destruct (members !! "abi") eqn:E|]; cbn [fst snd];
    (split; [rewrite <- ?app_assoc; cbn [app]; reflexivity|]);
    [exists (inr (JObject members)) | exists (inr (JObject members))
     | exists (inr JOther)]; split; try done; by rewrite E.
Qed.

Lemma run_flow_eq {A} (m : M A) (s : W * list host_event) r w' evs :
  m (s.1, []) = (r, (w', evs)) ->
  run_flow m s
  = (match r with inl e => inl (Raised e) | inr x => inr x end,
     (w', s.2 ++ map HChain evs)).
Proof. intros H. unfold run_flow. by rewrite H. Qed.

Ltac stopped_early :=
  left; split; [by eexists|];
  cbn [fst snd]; rewrite <- ?app_assoc; cbn; repeat split;
  try lia; destruct (truthy _); lia.

(** From the balance reads on: the safety check, the two dust transfers and
    the flash flow, on a trace [pre] whose facts are in [Hpre]. *)
Ltac main_tail mc seed root goldstem ofe pre Hpre Hcfg Hofe :=
  let es := fresh "es" in
  let owner := fresh "owner" in
  let Eo := fresh "Eo" in
  let evs1 := fresh "evs1" in
  let rs1 := fresh "rs1" in
  let Hrun1 := fresh "Hrun1" in
  let Hsub1 := fresh "Hsub1" in
  let evs2 := fresh "evs2" in
  let rs2 := fresh "rs2" in
  let Hrun2 := fresh "Hrun2" in
  let Hsub2 := fresh "Hsub2" in
  let wa := fresh "wa" in
  let wb := fresh "wb" in
  let e1 := fresh "e1" in
  let rc1 := fresh "rc1" in
  let e2 := fresh "e2" in
  let rc2 := fresh "rc2" in
  let dust :=
    (match goal with
     | |- context [seed_to_root (Dec 3 (-5)) seed root ?s1] =>
         destruct (seed_to_root_run (Dec 3 (-5)) 30000000000000 seed root s1
                     eq_refl) as (evs1 & rs1 & wa & Hrun1 & Hsub1);
         rewrite Hrun1
     end;
     cbn [fst snd app];
     exists evs1, rs1; split; [exact Hsub1|];
     destruct rs1 as [e1|rc1]; cbn [fst snd];
     [ split; [by rewrite <- ?app_assoc|done]
     | match goal with
       | |- context [split_via_goldstem (Dec 2 (-5)) root goldstem ?s2] =>
           destruct (split_via_goldstem_run_amount (Dec 2 (-5)) 20000000000000
                       root goldstem s2 eq_refl)
             as (evs2 & rs2 & wb & Hrun2 & Hsub2);
           rewrite Hrun2
       end;
       cbn [fst snd app];
       exists evs2, rs2; split; [exact Hsub2|];
       destruct rs2 as [e2|rc2]; cbn [fst snd];
       [ split; [by rewrite map_app, <- ?app_assoc|done]
       | idtac ] ]) in
  chain_answer es owner;
  [ right; exists seed, root, goldstem, ofe, pre, (inl es);
    split; [exact Hcfg|];
    destruct Hpre as (? & ? & ? & ?);
    do 2 (split; [assumption|]); split; [exact Hofe|];
    do 2 (split; [assumption|]);
    cbn zeta iota beta; cbn [negb fst snd]; dust
  | destruct (String.eqb owner (address root)) eqn:Eo; cbn [negb];
    right; exists seed, root, goldstem, ofe, pre, (inr owner);
    (split; [exact Hcfg|]);
    destruct Hpre as (? & ? & ? & ?);
    do 2 (split; [assumption|]); (split; [exact Hofe|]);
    do 2 (split; [assumption|]);
    cbn zeta iota beta; rewrite Eo; cbn [negb fst snd];
    [ dust | by split ] ].

(** The run of [main], stage by stage. *)
Lemma main_stages (mc : main_config) (w : W) :
  let out := main mc (w, []) in
  let cfg := flow_config mc in
  ((exists e, out.1 = inl e)
   /\ quiet (chain_trace out.2.2)
   /\ (length (owner_reads (chain_trace out.2.2))
       <= if truthy (FLASH_EXECUTOR_ADDRESS cfg) then 1 else 0)%nat)
  \/ exists seed root goldstem ofe pre rsafe,
       main_configured mc = true
       /\ accounts pre = [seed; root]
       /\ bound_contracts pre = goldstem :: option_list ofe
       /\ match ofe with Some _ => true | None => false end
          = truthy (FLASH_EXECUTOR_ADDRESS cfg)
       /\ quiet (chain_trace pre)
       /\ length (owner_reads (chain_trace pre)) = length (option_list ofe)
       /\ let safety := HChain (Ev (owner_call goldstem) rsafe) in
          if match rsafe with
             | inr owner => String.eqb owner (address root)
             | inl _ => true
             end
          then
            exists evs1 rs1,
              submission seed
                (transfer_tx (address seed) (address root) 30000000000000)
                evs1 rs1
              /\ match rs1 with
                 | inl e =>
                     out.2.2 = pre ++ safety :: map HChain evs1
                     /\ out.1 = inl (Raised e)
                 | inr _ =>
                     exists evs2 rs2,
                       submission root
                         (transfer_tx (address root) (contract_address goldstem)
                            20000000000000) evs2 rs2
                       /\ match rs2, ofe with
                          | inl e, _ =>
                              out.2.2 = pre ++ safety :: map HChain (evs1 ++ evs2)
                              /\ out.1 = inl (Raised e)
                          | inr _, None =>
                              out.2.2 = pre ++ safety :: map HChain (evs1 ++ evs2)
                              /\ out.1 = inr tt
                          | inr _, Some fe =>
                              exists wf,
                                let f := flashloan_and_arb cfg seed root fe goldstem
                                           (wf, []) in
                                out.2.2 = pre ++ safety
                                          :: map HChain (evs1 ++ evs2 ++ f.2.2)
                                /\ out.1 = match f.1 with
                                           | inl e => inl (Raised e)
                                           | inr x => inr x
                                           end
                          end
                 end
          else out.2.2 = pre ++ [safety] /\ out.1 = inr tt.
Proof.
  cbn zeta. unfold main, main_configured.
  destruct (truthy (RPC_URL mc)); cbn [negb andb];
    [|left; split; [by eexists|]; cbn; repeat split; try lia;
      destruct (truthy _); lia].
  open_HM.
  host_answer e connected; [stopped_early|].
  destruct connected; cbn [negb]; [|stopped_early].
  chain_answer e cid; [stopped_early|].
  destruct (truthy (SEED_KEY mc)); cbn [negb andb orb]; [|stopped_early].
  destruct (truthy (ROOT_KEY mc)); cbn [negb andb orb]; [|stopped_early].
  host_answer e seed; [stopped_early|].
  host_answer e root; [stopped_early|].
  destruct (truthy (GOLDSTEM_ADDRESS mc)); cbn [negb andb]; [|stopped_early].
  unfold load_abi. open_HM.
  host_answer e found; [stopped_early|].
  destruct found; cbn [negb]; [|stopped_early].
  host_answer e doc; [stopped_early|].
  destruct doc as [members|]; [|stopped_early].
  destruct (members !! "abi") as [goldstem_abi|]; [|stopped_early].
  destruct (to_checksum (default "" (GOLDSTEM_ADDRESS mc))) as [e|gaddr];
    [stopped_early|].
  host_answer e goldstem; [stopped_early|].
  destruct (truthy (FLASH_EXECUTOR_ADDRESS (flow_config mc))) eqn:Hexec.
  2:{ (* no executor *)
      host_answer e sbal; [stopped_early|].
      host_answer e rbal; [stopped_early|].
      match goal with
      | |- context [?t ++ [HHost (get_balance (address root)) (inr rbal)]] =>
          set (pre := t ++ [HHost (get_balance (address root)) (inr rbal)])
      end.
      assert (Hpre : accounts pre = [seed; root]
                     /\ bound_contracts pre = goldstem :: option_list None
                     /\ quiet (chain_trace pre)
                     /\ length (owner_reads (chain_trace pre))
                        = length (option_list (@None contract)))
        by (subst pre; rewrite <- ?app_assoc; cbn; by repeat split).
      clearbody pre.
      main_tail mc seed root goldstem (@None contract) pre Hpre
        (eq_refl true) (eq_refl false);
        (split; [by rewrite map_app, <- ?app_assoc|done]). }
  (* an executor is configured: bind it and read its owner for the banner *)
  host_answer e found'; [stopped_early|].
  destruct found'; cbn [negb]; [|stopped_early].
  host_answer e doc'; [stopped_early|].
  destruct doc' as [members'|]; [|stopped_early].
  destruct (members' !! "abi") as [flash_abi|]; [|stopped_early].
  destruct (to_checksum (default "" (FLASH_EXECUTOR_ADDRESS (flow_config mc))))
    as [e|eaddr]; [stopped_early|].
  host_answer e fe; [stopped_early|].
  chain_answer eown exec_owner.
  - host_answer e sbal; [stopped_early|].
    host_answer e rbal; [stopped_early|].
    match goal with
    | |- context [?t ++ [HHost (get_balance (address root)) (inr rbal)]] =>
        set (pre := t ++ [HHost (get_balance (address root)) (inr rbal)])
    end.
    assert (Hpre : accounts pre = [seed; root]
                   /\ bound_contracts pre = goldstem :: option_list (Some fe)
                   /\ quiet (chain_trace pre)
                   /\ length (owner_reads (chain_trace pre))
                      = length (option_list (Some fe)))
      by (subst pre; rewrite <- ?app_assoc; cbn; by repeat split).
    clearbody pre.
    main_tail mc seed root goldstem (Some fe) pre Hpre
      (eq_refl true) (eq_refl true);
    match goal with
    | |- context [flashloan_and_arb (flow_config mc) seed root fe goldstem (?wf, [])] =>
        exists wf; cbn zeta;
        destruct (flashloan_and_arb (flow_config mc) seed root fe goldstem (wf, []))
          as [rf [wf' evsf]]; cbn [fst snd];
        split; [by rewrite !map_app, <- ?app_assoc|done]
    end.
  - host_answer e sbal; [stopped_early|].
    host_answer e rbal; [stopped_early|].
    match goal with
    | |- context [?t ++ [HHost (get_balance (address root)) (inr rbal)]] =>
        set (pre := t ++ [HHost (get_balance (address root)) (inr rbal)])
    end.
    assert (Hpre : accounts pre = [seed; root]
                   /\ bound_contracts pre = goldstem :: option_list (Some fe)
                   /\ quiet (chain_trace pre)
                   /\ length (owner_reads (chain_trace pre))
                      = length (option_list (Some fe)))
      by (subst pre; rewrite <- ?app_assoc; cbn; by repeat split).
    clearbody pre.
    main_tail mc seed root goldstem (Some fe) pre Hpre
      (eq_refl true) (eq_refl true);
    match goal with
    | |- context [flashloan_and_arb (flow_config mc) seed root fe goldstem (?wf, [])] =>
        exists wf; cbn zeta;
        destruct (flashloan_and_arb (flow_config mc) seed root fe goldstem (wf, []))
          as [rf [wf' evsf]]; cbn [fst snd];
        split; [by rewrite !map_app, <- ?app_assoc|done]
    end.
Qed.

Ltac observe_all :=
  unfold quiet, submission, owner_reads, quotes, builds, decodings, signings,
    broadcasts, nonce_queries, receipts, submitter_invocations in *;
  rewrite ?omap_app, ?List.filter_app;
  cbn [omap list_omap List.filter is_nonce_query app];
  rewrite ?omap_app, ?List.filter_app, ?length_app, ?map_app; cbn [length app].

Lemma chain_trace_stage pre c r evs :
  chain_trace (pre ++ HChain (Ev (owner_call c) r) :: map HChain evs)
  = chain_trace pre ++ Ev (owner_call c) r :: evs.
Proof.
  rewrite chain_trace_app. f_equal. cbn. f_equal. apply chain_trace_chain.
Qed.

Lemma accounts_stage pre c r evs :
  accounts (pre ++ HChain (Ev (owner_call c) r) :: map HChain evs) = accounts pre.
Proof.
  unfold accounts. rewrite omap_app. cbn.
  fold (accounts (map HChain evs)). by rewrite accounts_chain, app_nil_r.
Qed.

Lemma bound_contracts_stage pre c r evs :
  bound_contracts (pre ++ HChain (Ev (owner_call c) r) :: map HChain evs)
  = bound_contracts pre.
Proof.
  unfold bound_contracts. rewrite omap_app. cbn.
  fold (bound_contracts (map HChain evs)).
  by rewrite bound_contracts_chain, app_nil_r.
Qed.

(** The trace and result of a run that reached the safety check, in one
    shape for all of its continuations. *)
Lemma main_reached_safety (mc : main_config) (w : W) :
  let out := main mc (w, []) in
  let cfg := flow_config mc in
  ((exists e, out.1 = inl e)
   /\ quiet (chain_trace out.2.2)
   /\ (length (owner_reads (chain_trace out.2.2))
       <= if truthy (FLASH_EXECUTOR_ADDRESS cfg) then 1 else 0)%nat)
  \/ exists seed root goldstem pre rsafe evs,
       accounts out.2.2 = [seed; root]
       /\ head (bound_contracts out.2.2) = Some goldstem
       /\ chain_trace out.2.2 = pre ++ Ev (owner_call goldstem) rsafe :: evs
       /\ quiet pre
       /\ length (owner_reads pre)
          = (if truthy (FLASH_EXECUTOR_ADDRESS cfg) then 1 else 0)%nat
       /\ if match rsafe with
             | inr owner => String.eqb owner (address root)
             | inl _ => true
             end
          then
            exists evs1 rs1 rest,
              evs = evs1 ++ rest
              /\ submission seed
                   (transfer_tx (address seed) (address root) 30000000000000)
                   evs1 rs1
              /\ match rs1 with
                 | inl e => rest = [] /\ out.1 = inl (Raised e)
                 | inr _ =>
                     exists evs2 rs2 evsf,
                       rest = evs2 ++ evsf
                       /\ submission root
                            (transfer_tx (address root) (contract_address goldstem)
                               20000000000000) evs2 rs2
                       /\ match rs2 with
                          | inl e => evsf = [] /\ out.1 = inl (Raised e)
                          | inr _ =>
                              if truthy (FLASH_EXECUTOR_ADDRESS cfg)
                              then exists fe wf,
                                  evsf = (flashloan_and_arb cfg seed root fe
                                            goldstem (wf, [])).2.2
                              else evsf = [] /\ out.1 = inr tt
                          end
                 end
          else evs = [] /\ out.1 = inr tt.
Proof.
  cbn zeta.
  destruct (main_stages mc w)
    as [H | (seed & root & goldstem & ofe & pre & rsafe
             & _ & Hacc & Hbc & Hofe & Hq & Hlen & Hst)]; [by left|].
  right. cbn zeta in Hst.
  exists seed, root, goldstem, (chain_trace pre), rsafe.
  assert (Hk : length (option_list ofe)
               = (if truthy (FLASH_EXECUTOR_ADDRESS (flow_config mc))
                  then 1 else 0)%nat)
    by (rewrite <- Hofe; by destruct ofe).
  rewrite Hk in Hlen.
  destruct (match rsafe with
            | inl _ => true
            | inr owner => String.eqb owner (address root)
            end).
  2:{ destruct Hst as [Htr Hres]. exists [].
      rewrite Htr. change [HChain (Ev (owner_call goldstem) rsafe)]
        with (HChain (Ev (owner_call goldstem) rsafe) :: map HChain []).
      rewrite accounts_stage, bound_contracts_stage, chain_trace_stage, Hbc.
      by do 5 (split; [done|]). }
  destruct Hst as (evs1 & rs1 & Hsub1 & Hst).
  destruct rs1 as [e1|rc1].
  { destruct Hst as [Htr Hres]. exists evs1.
    rewrite Htr, accounts_stage, bound_contracts_stage, chain_trace_stage, Hbc.
    do 5 (split; [done|]). exists evs1, (inl e1), [].
    by rewrite app_nil_r. }
  destruct Hst as (evs2 & rs2 & Hsub2 & Hst).
  destruct rs2 as [e2|rc2].
  { destruct Hst as [Htr Hres]. exists (evs1 ++ evs2).
    rewrite Htr, accounts_stage, bound_contracts_stage, chain_trace_stage, Hbc.
    do 5 (split; [done|]). exists evs1, (inr rc1), evs2.
    do 2 (split; [done|]). exists evs2, (inl e2), [].
    by rewrite app_nil_r. }
  destruct ofe as [fe|]; cbn in Hofe; rewrite <- Hofe in Hlen |- *.
  - destruct Hst as (wf & Hst). cbn zeta in Hst. destruct Hst as [Htr Hres].
    exists (evs1 ++ evs2
            ++ (flashloan_and_arb (flow_config mc) seed root fe goldstem
                  (wf, [])).2.2).
    rewrite Htr, accounts_stage, bound_contracts_stage, chain_trace_stage, Hbc.
    do 5 (split; [done|]).
    exists evs1, (inr rc1),
      (evs2 ++ (flashloan_and_arb (flow_config mc) seed root fe goldstem
                  (wf, [])).2.2).
    do 2 (split; [done|]).
    exists evs2, (inr rc2),
      (flashloan_and_arb (flow_config mc) seed root fe goldstem (wf, [])).2.2.
    do 2 (split; [done|]). by exists fe, wf.
  - destruct Hst as [Htr Hres]. exists (evs1 ++ evs2).
    rewrite Htr, accounts_stage, bound_contracts_stage, chain_trace_stage, Hbc.
    do 5 (split; [done|]). exists evs1, (inr rc1), evs2.
    do 2 (split; [done|]). exists evs2, (inr rc2), [].
    by rewrite app_nil_r.
Qed.

Lemma owner_reads_app tr1 tr2 :
  owner_reads (tr1 ++ tr2) = owner_reads tr1 ++ owner_reads tr2.
Proof. apply omap_app. Qed.

Lemma nonce_queries_app tr1 tr2 :
  nonce_queries (tr1 ++ tr2) = nonce_queries tr1 ++ nonce_queries tr2.
Proof. apply omap_app. Qed.

Lemma signings_app tr1 tr2 :
  signings (tr1 ++ tr2) = signings tr1 ++ signings tr2.
Proof. apply omap_app. Qed.

Lemma broadcasts_app tr1 tr2 :
  broadcasts (tr1 ++ tr2) = broadcasts tr1 ++ broadcasts tr2.
Proof. apply omap_app. Qed.

Lemma quotes_app tr1 tr2 : quotes (tr1 ++ tr2) = quotes tr1 ++ quotes tr2.
Proof. apply omap_app. Qed.

Lemma builds_app tr1 tr2 : builds (tr1 ++ tr2) = builds tr1 ++ builds tr2.
Proof. apply omap_app. Qed.

(** The safety read is the read number [k] of a run that reached it, where
    [k] is 1 with an executor configured and 0 without. *)
Lemma main_safety_read (mc : main_config) (w : W) c r :
  let out := main mc (w, []) in
  owner_reads (chain_trace out.2.2)
    !! (if truthy (FLASH_EXECUTOR_ADDRESS (flow_config mc)) then 1 else 0)%nat
  = Some (c, r) ->
  exists seed root pre evs,
    accounts out.2.2 = [seed; root]
    /\ chain_trace out.2.2 = pre ++ Ev (owner_call c) r :: evs
    /\ quiet pre
    /\ length (owner_reads pre)
       = (if truthy (FLASH_EXECUTOR_ADDRESS (flow_config mc)) then 1 else 0)%nat
    /\ if match r with
          | inr owner => String.eqb owner (address root)
          | inl _ => true
          end
       then
         exists evs1 rs1 rest,
           evs = evs1 ++ rest
           /\ submission seed
                (transfer_tx (address seed) (address root) 30000000000000)
                evs1 rs1
       else evs = [] /\ out.1 = inr tt.
Proof.
  cbn zeta. intros Hk.
  destruct (main_reached_safety mc w)
    as [(_ & _ & Hlen)
       | (seed & root & goldstem & pre & rsafe & evs
          & Hacc & Hbc & Htr & Hq & Hlen & Hst)].
  { apply lookup_lt_Some in Hk. lia. }
  rewrite Htr, owner_reads_app in Hk.
  rewrite lookup_app_r in Hk by lia.
  rewrite Hlen, Nat.sub_diag in Hk. cbn in Hk.
  assert (goldstem = c /\ rsafe = r) as [-> ->] by (split; congruence).
  exists seed, root, pre, evs. do 4 (split; [done|]).
  destruct (match r with
            | inl _ => true
            | inr owner => String.eqb owner (address root)
            end); [|done].
  destruct Hst as (evs1 & rs1 & rest & -> & Hsub & _).
  by exists evs1, rs1, rest.
Qed.

(** X18. The safety check fails closed on a foreign owner.  When the owner
    read of the splitter contract (the read number [k], after the
    executor's if one is configured) answers an address other than the
    operating account's, [main] returns at once: no call to [send_tx], no
    nonce asked, nothing signed, nothing broadcast, no quote, and no further
    owner read. *)
Theorem main_owner_mismatch_stops
    (mc : main_config) (w w' : W) (res : host_result unit)
    (tr : list host_event) (seed root : account) (c : contract)
    (owner : string) :
  main mc (w, []) = (res, (w', tr)) ->
  accounts tr = [seed; root] ->
  owner_reads (chain_trace tr)
    !! (if truthy (FLASH_EXECUTOR_ADDRESS (flow_config mc)) then 1 else 0)%nat
  = Some (c, inr owner) ->
  owner <> address root ->
  res = inr tt
  /\ quiet (chain_trace tr)
  /\ length (owner_reads (chain_trace tr))
     = S (if truthy (FLASH_EXECUTOR_ADDRESS (flow_config mc)) then 1 else 0).
Proof.
  intros Hrun Hacc Hk Hne.
  pose proof (main_safety_read mc w c (inr owner)) as H.
  rewrite Hrun in H. cbn [fst snd] in H.
  destruct (H Hk) as (seed' & root' & pre & evs & Hacc' & Htr & Hq & Hlen & Hst).
  rewrite Hacc in Hacc'.
  assert (root' = root) as -> by congruence.
  apply String.eqb_neq in Hne. rewrite Hne in Hst.
  destruct Hst as [-> ->]. split; [done|].
  rewrite Htr. destruct Hq as (Q1 & Q2 & Q3 & Q4 & Q5 & Q6 & Q7 & Q8).
  split.
  - unfold quiet.
    rewrite submitter_invocations_app, nonce_queries_app, signings_app,
      broadcasts_app, receipts_app, quotes_app, builds_app, decodings_app.
    rewrite Q1, Q2, Q3, Q4, Q5, Q6, Q7, Q8. by cbn.
  - rewrite owner_reads_app, length_app, Hlen. cbn. lia.
Qed.

(** X19. The safety check fails open.  When the owner read of the splitter
    contract raises, or answers the operating account's address, [main] goes
    on to the dust test: the next thing it does on the chain is to ask the
    nonce of the funding account, inside one call to [send_tx]. *)
Theorem main_owner_unreadable_proceeds
    (mc : main_config) (w w' : W) (res : host_result unit)
    (tr : list host_event) (seed root : account) (c : contract)
    (r : result string) :
  main mc (w, []) = (res, (w', tr)) ->
  accounts tr = [seed; root] ->
  owner_reads (chain_trace tr)
    !! (if truthy (FLASH_EXECUTOR_ADDRESS (flow_config mc)) then 1 else 0)%nat
  = Some (c, r) ->
  match r with inr owner => owner = address root | inl _ => True end ->
  (1 <= submitter_invocations (chain_trace tr))%nat
  /\ exists rn rest,
       nonce_queries (chain_trace tr) = (address seed, rn) :: rest.
Proof.
  intros Hrun Hacc Hk Hr.
  pose proof (main_safety_read mc w c r) as H.
  rewrite Hrun in H. cbn [fst snd] in H.
  destruct (H Hk) as (seed' & root' & pre & evs & Hacc' & Htr & Hq & Hlen & Hst).
  rewrite Hacc in Hacc'.
  assert (seed' = seed /\ root' = root) as [-> ->] by (split; congruence).
  assert (match r with
          | inl _ => true
          | inr owner => String.eqb owner (address root)
          end = true) as Hgo.
  { destruct r as [e|owner]; [done|]. by apply String.eqb_eq. }
  rewrite Hgo in Hst. destruct Hst as (evs1 & rs1 & rest & -> & Hsub).
  destruct Hq as (Q1 & Q2 & _).
  destruct Hsub as (Hn & (rn & Hnq) & _).
  rewrite Htr.
  change (Ev (owner_call c) r :: evs1 ++ rest)
    with ([Ev (owner_call c) r] ++ evs1 ++ rest).
  rewrite !submitter_invocations_app, !nonce_queries_app, Q1, Q2, Hn, Hnq.
  cbn. split; [lia|]. by eexists _, _.
Qed.

Lemma prefix_keys {A B} (f : A -> B) (l : list A) (b : B) (n : nat) :
  Forall (fun x => f x = b) l -> (length l <= n)%nat ->
  map f l `prefix_of` replicate n b.
Proof.
  intros Hf Hn. exists (replicate (n - length l) b).
  replace (map f l) with (replicate (length l) b).
  - rewrite <- replicate_add. f_equal. lia.
  - clear Hn. induction Hf as [|x l Hx _ IH]; [done|]. cbn in *. congruence.
Qed.

(** What a run of [main] leaves on the chain trace, in numbers. *)
Lemma main_chain_counts (mc : main_config) (w : W) :
  let tr := chain_trace (main mc (w, [])).2.2 in
  let exec := truthy (FLASH_EXECUTOR_ADDRESS (flow_config mc)) in
  (submitter_invocations tr <= S (length (receipts tr)))%nat
  /\ (submitter_invocations tr <= if exec then 4 else 2)%nat
  /\ (length (owner_reads tr) <= if exec then 3 else 1)%nat
  /\ (exec = false -> quotes tr = [] /\ builds tr = [] /\ decodings tr = [])
  /\ ((length (receipts tr) < 2)%nat ->
      quotes tr = [] /\ builds tr = [] /\ decodings tr = []
      /\ (length (owner_reads tr) <= if exec then 2 else 1)%nat
      /\ (submitter_invocations tr <= 2)%nat).
Proof.
  cbn zeta.
  destruct (main_reached_safety mc w)
    as [(_ & (Q1 & Q2 & Q3 & Q4 & Q5 & Q6 & Q7 & Q8) & Hlen)
       | (seed & root & goldstem & pre & rsafe & evs
          & Hacc & Hbc & Htr & (Q1 & Q2 & Q3 & Q4 & Q5 & Q6 & Q7 & Q8) & Hlen & Hst)].
  { rewrite Q1, Q5, Q6, Q7, Q8. cbn.
    repeat split; try lia; destruct (truthy _); lia. }
  rewrite Htr, cons_middle.
  rewrite !submitter_invocations_app, !receipts_app, !owner_reads_app,
    !quotes_app, !builds_app, !decodings_app, !length_app.
  rewrite Q1, Q5, Q6, Q7, Q8, Hlen. cbn [app length Nat.add].
  change (submitter_invocations [Ev (owner_call goldstem) rsafe]) with 0%nat.
  change (receipts [Ev (owner_call goldstem) rsafe]) with (@nil receipt).
  change (owner_reads [Ev (owner_call goldstem) rsafe])
    with [(goldstem, rsafe)].
  change (quotes [Ev (owner_call goldstem) rsafe])
    with (@nil (string * bytes * Z * result quote_result)).
  rewrite (eq_refl : builds [Ev (owner_call goldstem) rsafe] = []).
  rewrite (eq_refl : decodings [Ev (owner_call goldstem) rsafe] = []).
  cbn [app length Nat.add].
  destruct (match rsafe with
            | inl _ => true
            | inr owner => String.eqb owner (address root)
            end).
  2:{ destruct Hst as [-> _]. cbn.
      repeat split; try lia; destruct (truthy _); lia. }
  destruct Hst as (evs1 & rs1 & rest & -> & Hsub1 & Hst).
  pose proof (submission_receipts _ _ _ _ Hsub1) as Hr1.
  destruct Hsub1 as (Hn1 & _ & Ho1 & Hq1 & Hb1 & Hd1 & _).
  rewrite !submitter_invocations_app, !receipts_app, !owner_reads_app,
    !quotes_app, !builds_app, !decodings_app, !length_app.
  rewrite Hn1, Ho1, Hq1, Hb1, Hd1, Hr1. cbn [app length Nat.add].
  destruct rs1 as [e1|rc1].
  { destruct Hst as [-> _]. cbn.
    repeat split; try lia; destruct (truthy _); lia. }
  destruct Hst as (evs2 & rs2 & evsf & -> & Hsub2 & Hst).
  pose proof (submission_receipts _ _ _ _ Hsub2) as Hr2.
  destruct Hsub2 as (Hn2 & _ & Ho2 & Hq2 & Hb2 & Hd2 & _).
  rewrite !submitter_invocations_app, !receipts_app, !owner_reads_app,
    !quotes_app, !builds_app, !decodings_app, !length_app.
  rewrite Hn2, Ho2, Hq2, Hb2, Hd2, Hr2. cbn [app length Nat.add].
  destruct rs2 as [e2|rc2].
  { destruct Hst as [-> _]. cbn.
    repeat split; try lia; destruct (truthy _); lia. }
  destruct (truthy (FLASH_EXECUTOR_ADDRESS (flow_config mc))).
  2:{ destruct Hst as [-> _]. cbn. repeat split; try lia; try done. }
  destruct Hst as (fe & wf & ->).
  destruct (flash_trace_bounds (flow_config mc) seed root fe goldstem wf)
    as (F1 & F2 & F3 & F4 & F5 & F6 & F7 & F8 & F9 & F10 & F11).
  cbn zeta in *. cbn [length app Nat.add].
  repeat split; try lia; try done; intros; exfalso; lia.
Qed.

(** X20. [main] never submits after a failed submission.  In any run, every
    call to [send_tx] except possibly the last came back with a receipt;
    there are at most four such calls (two dust transfers, the flash
    transaction and the routing of its profit), and at most three owner
    reads. *)
Theorem main_send_tx_bounds (mc : main_config) (w : W) :
  let tr := chain_trace (main mc (w, [])).2.2 in
  (submitter_invocations tr <= S (length (receipts tr)))%nat
  /\ (submitter_invocations tr <= 4)%nat
  /\ (length (owner_reads tr) <= 3)%nat.
Proof.
  cbn zeta. destruct (main_chain_counts mc w) as (H1 & H2 & H3 & _).
  cbn zeta in *. split; [done|].
  destruct (truthy (FLASH_EXECUTOR_ADDRESS (flow_config mc))); lia.
Qed.

(** X21. Without [FLASH_EXECUTOR_ADDRESS] the process is the safety check and
    the dust test only: it asks for no quote, builds no flash transaction,
    decodes no event, reads [owner()] at most once and calls [send_tx] at
    most twice. *)
Theorem main_without_executor
    (mc : main_config) (w w' : W) (res : host_result unit)
    (tr : list host_event) :
  main mc (w, []) = (res, (w', tr)) ->
  truthy (FLASH_EXECUTOR_ADDRESS (flow_config mc)) = false ->
  quotes (chain_trace tr) = []
  /\ builds (chain_trace tr) = []
  /\ decodings (chain_trace tr) = []
  /\ (length (owner_reads (chain_trace tr)) <= 1)%nat
  /\ (submitter_invocations (chain_trace tr) <= 2)%nat.
Proof.
  intros Hrun Hex.
  destruct (main_chain_counts mc w) as (_ & H2 & H3 & H4 & _).
  cbn zeta in *. rewrite Hrun, Hex in *. cbn [fst snd] in *.
  destruct (H4 eq_refl) as (? & ? & ?). by repeat split.
Qed.

(** X22. The flash flow starts only after both dust transfers came back with
    a receipt.  A run with fewer than two receipts asked for no quote, built
    no flash transaction, never read the executor's owner inside the flash
    flow, and made at most two calls to [send_tx]. *)
Theorem main_flash_after_dust_test
    (mc : main_config) (w w' : W) (res : host_result unit)
    (tr : list host_event) :
  main mc (w, []) = (res, (w', tr)) ->
  (length (receipts (chain_trace tr)) < 2)%nat ->
  quotes (chain_trace tr) = []
  /\ builds (chain_trace tr) = []
  /\ decodings (chain_trace tr) = []
  /\ (length (owner_reads (chain_trace tr))
      <= if truthy (FLASH_EXECUTOR_ADDRESS (flow_config mc)) then 2 else 1)%nat
  /\ (submitter_invocations (chain_trace tr) <= 2)%nat.
Proof.
  intros Hrun Hlt.
  destruct (main_chain_counts mc w) as (_ & _ & _ & _ & H5).
  cbn zeta in *. rewrite Hrun in *. cbn [fst snd] in *. by apply H5.
Qed.

(** X23. Who signs what.  With [seed] and [root] the two accounts the process
    loaded, the nonces [main] asks for are, in order, the funding account's
    once and then the operating account's, and the keys it signs with are
    the funding key once and then the operating key: the funding key signs
    nothing but the first dust transfer. *)
Theorem main_submission_order
    (mc : main_config) (w w' : W) (res : host_result unit)
    (tr : list host_event) (seed root : account) :
  main mc (w, []) = (res, (w', tr)) ->
  accounts tr = [seed; root] ->
  map fst (nonce_queries (chain_trace tr))
    `prefix_of` address seed :: replicate 3 (address root)
  /\ map (fun x => x.1.2) (signings (chain_trace tr))
       `prefix_of` key seed :: replicate 3 (key root).
Proof.
  intros Hrun Hacc.
  destruct (main_reached_safety mc w)
    as [(_ & (Q1 & Q2 & Q3 & Q4 & Q5 & Q6 & Q7 & Q8) & Hlen)
       | (seed' & root' & goldstem & pre & rsafe & evs
          & Hacc' & Hbc & Htr & (Q1 & Q2 & Q3 & Q4 & Q5 & Q6 & Q7 & Q8) & Hlen & Hst)];
    rewrite Hrun in *; cbn [fst snd] in *.
  { rewrite Q2, Q3. split; apply prefix_nil. }
  rewrite Hacc in Hacc'.
  assert (seed' = seed /\ root' = root) as [-> ->] by (split; congruence).
  rewrite Htr, cons_middle.
  rewrite !nonce_queries_app, !signings_app, Q2, Q3.
  rewrite (eq_refl : nonce_queries [Ev (owner_call goldstem) rsafe] = []).
  rewrite (eq_refl : signings [Ev (owner_call goldstem) rsafe] = []).
  cbn [app].
  destruct (match rsafe with
            | inl _ => true
            | inr owner => String.eqb owner (address root)
            end).
  2:{ destruct Hst as [-> _]. split; apply prefix_nil. }
  destruct Hst as (evs1 & rs1 & rest & -> & Hsub1 & Hst).
  pose proof (submission_keys _ _ _ _ Hsub1) as Hk1.
  destruct Hsub1 as (_ & (rn1 & Hnq1) & _ & _ & _ & _ & Hs1 & _ & _ & Hm1).
  rewrite !nonce_queries_app, !signings_app, Hnq1, !map_app.
  destruct rs1 as [e1|rc1].
  { destruct Hst as [-> _]. cbn [nonce_queries signings omap list_omap map app].
    rewrite !app_nil_r. split.
    - by apply prefix_cons, prefix_nil.
    - destruct (signings evs1) as [|x [|y l]]; cbn in Hs1; try lia.
      + apply prefix_nil.
      + apply Forall_cons_1 in Hk1 as [Hx _]. cbn [map]. rewrite Hx.
        apply prefix_cons, prefix_nil. }
  destruct Hm1 as (_ & Hl1 & _).
  destruct (signings evs1) as [|x [|y l]]; cbn in Hl1; try lia.
  apply Forall_cons_1 in Hk1 as [Hx _]. cbn [map app]. rewrite Hx.
  destruct Hst as (evs2 & rs2 & evsf & -> & Hsub2 & Hst).
  pose proof (submission_keys _ _ _ _ Hsub2) as Hk2.
  destruct Hsub2 as (_ & (rn2 & Hnq2) & _ & _ & _ & _ & Hs2 & _ & _ & Hm2).
  rewrite !nonce_queries_app, !signings_app, Hnq2, !map_app.
  cbn [map app fst].
  destruct rs2 as [e2|rc2].
  { destruct Hst as [-> _]. cbn [nonce_queries signings omap list_omap map app].
    rewrite !app_nil_r. split.
    - apply prefix_cons. by apply prefix_cons, prefix_nil.
    - apply prefix_cons. apply (prefix_keys _ _ _ 3); [done|lia]. }
  destruct Hm2 as (_ & Hl2 & _).
  destruct (signings evs2) as [|x2 [|y2 l2]]; cbn in Hl2; try lia.
  apply Forall_cons_1 in Hk2 as [Hx2 _]. cbn [map app]. rewrite Hx2.
  assert (Forall (fun x : txdict * bytes * result signed_tx => x.1.2 = key root)
            (signings evsf)
          /\ Forall (fun x : string * result Z => x.1 = address root)
               (nonce_queries evsf)
          /\ (length (signings evsf) <= 2)%nat
          /\ (length (nonce_queries evsf) <= 2)%nat) as (G1 & G2 & G3 & G4).
  { destruct (truthy (FLASH_EXECUTOR_ADDRESS (flow_config mc))).
    2:{ destruct Hst as [-> _]. cbn. repeat split; (lia || constructor). }
    destruct Hst as (fe & wf & ->).
    destruct (flash_trace_bounds (flow_config mc) seed root fe goldstem wf)
      as (F1 & F2 & F3 & F4 & F5 & F6 & F7 & F8 & F9 & F10 & F11).
    cbn zeta in *. repeat split; try done. lia. }
  split; do 2 apply prefix_cons.
  - apply (prefix_keys fst _ _ 2); [done|lia].
  - apply (prefix_keys (fun x => x.1.2) _ _ 2); [done|lia].
Qed.

(** X24. Nothing is touched before the settings are complete.  If the RPC
    URL, one of the two keys or the splitter address is missing, [main]
    raises, and up to then it has opened no artifact file, bound no
    contract, read no owner, and made no call to [send_tx]: the only chain
    request it can have made is the chain id it prints. *)
Theorem main_missing_settings
    (mc : main_config) (w w' : W) (res : host_result unit)
    (tr : list host_event) :
  main mc (w, []) = (res, (w', tr)) ->
  main_configured mc = false ->
  (exists e, res = inl e)
  /\ files_read tr = []
  /\ bound_contracts tr = []
  /\ owner_reads (chain_trace tr) = []
  /\ quiet (chain_trace tr).
Proof.
  intros Hrun Hc.
  cut (let out := main mc (w, []) in
       (exists e, out.1 = inl e)
       /\ files_read out.2.2 = []
       /\ bound_contracts out.2.2 = []
       /\ owner_reads (chain_trace out.2.2) = []
       /\ quiet (chain_trace out.2.2)).
  { by rewrite Hrun. }
  clear Hrun. cbn zeta. unfold main_configured in Hc. unfold main.
  destruct (truthy (RPC_URL mc)); cbn [negb andb orb] in *.
  2:{ open_HM. cbn. split; [by eexists|]. by repeat split. }
  open_HM. cbn [fst snd].
  host_answer e connected.
  { cbn. split; [by eexists|]. by repeat split. }
  destruct connected; cbn [negb].
  2:{ cbn. split; [by eexists|]. by repeat split. }
  cbn [fst snd app]. chain_answer e cid.
  { cbn. split; [by eexists|]. by repeat split. }
  destruct (truthy (SEED_KEY mc)); cbn [negb andb orb] in *.
  2:{ cbn. split; [by eexists|]. by repeat split. }
  destruct (truthy (ROOT_KEY mc)); cbn [negb andb orb] in *.
  2:{ cbn. split; [by eexists|]. by repeat split. }
  cbn [fst snd app]. host_answer e seed.
  { cbn. split; [by eexists|]. by repeat split. }
  host_answer e root.
  { cbn. split; [by eexists|]. by repeat split. }
  rewrite Hc. cbn. split; [by eexists|]. by repeat split.
Qed.

(** X25. What the dust test can move.  With [seed] and [root] the accounts
    loaded and [goldstem] the first contract bound, the first transaction
    [main] signs sends 0.00003 ETH (30000000000000 wei) from the funding
    account to the operating account, and the second sends 0.00002 ETH
    (20000000000000 wei) from the operating account to the splitter
    contract. *)
Theorem main_dust_transfers
    (mc : main_config) (w w' : W) (res : host_result unit)
    (tr : list host_event) (seed root : account) (goldstem : contract) :
  main mc (w, []) = (res, (w', tr)) ->
  accounts tr = [seed; root] ->
  head (bound_contracts tr) = Some goldstem ->
  (forall x, signings (chain_trace tr) !! 0%nat = Some x ->
     x.1.2 = key seed
     /\ transfers x.1.1 (address seed) (address root) 30000000000000)
  /\ (forall x, signings (chain_trace tr) !! 1%nat = Some x ->
        x.1.2 = key root
        /\ transfers x.1.1 (address root) (contract_address goldstem)
             20000000000000).
Proof.
  intros Hrun Hacc Hgs.
  destruct (main_reached_safety mc w)
    as [(_ & (Q1 & Q2 & Q3 & Q4 & Q5 & Q6 & Q7 & Q8) & Hlen)
       | (seed' & root' & goldstem' & pre & rsafe & evs
          & Hacc' & Hbc & Htr & (Q1 & Q2 & Q3 & Q4 & Q5 & Q6 & Q7 & Q8)
          & Hlen & Hst)];
    rewrite Hrun in *; cbn [fst snd] in *.
  { rewrite Q3. by split. }
  rewrite Hacc in Hacc'. rewrite Hgs in Hbc.
  assert (seed' = seed /\ root' = root /\ goldstem' = goldstem)
    as (-> & -> & ->) by (repeat split; congruence).
  rewrite Htr, cons_middle.
  rewrite !signings_app, Q3.
  rewrite (eq_refl : signings [Ev (owner_call goldstem) rsafe] = []).
  cbn [app].
  destruct (match rsafe with
            | inl _ => true
            | inr owner => String.eqb owner (address root)
            end).
  2:{ destruct Hst as [-> _]. by split. }
  destruct Hst as (evs1 & rs1 & rest & -> & Hsub1 & Hst).
  pose proof (submission_transfers _ _ _ _ _ _ Hsub1) as Hf1.
  destruct Hsub1 as (_ & _ & _ & _ & _ & _ & Hs1 & _ & _ & Hm1).
  rewrite signings_app.
  destruct rs1 as [e1|rc1].
  { destruct Hst as [-> _]. cbn [signings omap list_omap]. rewrite app_nil_r.
    destruct (signings evs1) as [|x1 [|y1 l1]]; cbn in Hs1; try lia.
    - by split.
    - apply Forall_cons_1 in Hf1 as [Hx1 _]. split; [|done].
      intros x [= <-]. exact Hx1. }
  destruct Hm1 as (_ & Hl1 & _).
  destruct (signings evs1) as [|x1 [|y1 l1]]; cbn in Hl1; try lia.
  apply Forall_cons_1 in Hf1 as [Hx1 _]. cbn [app].
  split; [intros x [= <-]; exact Hx1|].
  destruct Hst as (evs2 & rs2 & evsf & -> & Hsub2 & Hst).
  pose proof (submission_transfers _ _ _ _ _ _ Hsub2) as Hf2.
  destruct Hsub2 as (_ & _ & _ & _ & _ & _ & Hs2 & _ & _ & Hm2).
  rewrite signings_app.
  destruct (signings evs2) as [|x2 l2] eqn:E2.
  - destruct rs2 as [e2|rc2].
    + destruct Hst as [-> _]. done.
    + destruct Hm2 as (_ & Hl2 & _). cbn in Hl2. lia.
  - apply Forall_cons_1 in Hf2 as [Hx2 _]. intros x [= <-]. exact Hx2.
Qed.

End MainProperties.

(** * The further properties at work on the scripted world *)

Lemma fee3_three_bytes_roundtrip_witness :
  _fee3 500 = inr [x00; x01; xf4]
  /\ fee_fits 500
  /\ length [x00; x01; xf4] = 3%nat
  /\ int_from_bytes [x00; x01; xf4] = 500.
Proof.
  assert (H : _fee3 500 = inr [x00; x01; xf4]) by (vm_compute; reflexivity).
  split; [exact H|].
  exact (fee3_three_bytes_roundtrip 500 [x00; x01; xf4] H).
Defined.

Lemma to_checksum_idempotent_witness :
  to_checksum (w3 := mock_w3) WETH
  = inr "0x82af49447d8a07e3bd95bd0d56f35241523fbab1"
  /\ is_address "0x82af49447d8a07e3bd95bd0d56f35241523fbab1" = true
  /\ to_checksum (w3 := mock_w3) "0x82af49447d8a07e3bd95bd0d56f35241523fbab1"
     = inr "0x82af49447d8a07e3bd95bd0d56f35241523fbab1".
Proof.
  assert (H : to_checksum (w3 := mock_w3) WETH
              = inr "0x82af49447d8a07e3bd95bd0d56f35241523fbab1")
    by (vm_compute; reflexivity).
  split; [exact H|].
  exact (to_checksum_idempotent (w3 := mock_w3) WETH _ H).
Defined.

Lemma to20_same_bytes_same_address_witness :
  exists a,
    _to20 (w3 := mock_w3) WETH = inr a
    /\ _to20 (w3 := mock_w3) "82AF49447D8A07E3BD95BD0D56F35241523FBAB1" = inr a
    /\ to_checksum (w3 := mock_w3) WETH
       = to_checksum (w3 := mock_w3) "82AF49447D8A07E3BD95BD0D56F35241523FBAB1".
Proof.
  eexists.
  assert (H1 : _to20 (w3 := mock_w3) WETH = inr _) by (vm_compute; reflexivity).
  assert (H2 : _to20 (w3 := mock_w3) "82AF49447D8A07E3BD95BD0D56F35241523FBAB1"
               = inr _) by (vm_compute; reflexivity).
  split; [exact H1|]. split; [exact H2|].
  exact (proj1 (proj1 (to20_same_bytes_same_address (w3 := mock_w3)
                         _ _ _ _ H1 H2)) eq_refl).
Defined.

Lemma encode_v3_path_returns_well_formed_witness :
  exists p,
    encode_v3_path (w3 := mock_w3) [WETH; USDC cfg0; WETH] [500; 3000] = inr p
    /\ length p = 66%nat
    /\ exists addrs,
         decode_v3_path p = Some (addrs, [500; 3000]) /\ length addrs = 3%nat.
Proof.
  eexists.
  assert (H : encode_v3_path (w3 := mock_w3) [WETH; USDC cfg0; WETH] [500; 3000]
              = inr _) by (vm_compute; reflexivity).
  split; [exact H|].
  destruct (encode_v3_path_returns_well_formed (w3 := mock_w3) _ _ _ H)
    as (_ & _ & _ & _ & Hl & Hd).
  split; [exact Hl|exact Hd].
Defined.

Lemma encode_v3_path_injective_witness :
  exists p,
    encode_v3_path (w3 := mock_w3) [WETH; USDC cfg0; WETH] [500; 3000] = inr p
    /\ encode_v3_path (w3 := mock_w3)
         ["0x82af49447d8a07e3bd95bd0d56f35241523fbab1";
          "AF88D065E77C8CC2239327C5EDB3A432268E5831"; WETH] [500; 3000] = inr p
    /\ Forall2 (fun t1 t2 => to_checksum (w3 := mock_w3) t1
                             = to_checksum (w3 := mock_w3) t2)
         [WETH; USDC cfg0; WETH]
         ["0x82af49447d8a07e3bd95bd0d56f35241523fbab1";
          "AF88D065E77C8CC2239327C5EDB3A432268E5831"; WETH].
Proof.
  eexists.
  assert (H1 : encode_v3_path (w3 := mock_w3) [WETH; USDC cfg0; WETH] [500; 3000]
               = inr _) by (vm_compute; reflexivity).
  assert (H2 : encode_v3_path (w3 := mock_w3)
                 ["0x82af49447d8a07e3bd95bd0d56f35241523fbab1";
                  "AF88D065E77C8CC2239327C5EDB3A432268E5831"; WETH] [500; 3000]
               = inr _) by (vm_compute; reflexivity).
  split; [exact H1|]. split; [exact H2|].
  exact (proj2 (encode_v3_path_injective (w3 := mock_w3) _ _ _ _ _ H1 H2)).
Defined.


Lemma flashloan_and_arb_stops_before_build_witness :
  builds (trace_of mock_quote_down) = []
  /\ result_of mock_quote_down = inr tt
  /\ submitter_invocations (trace_of mock_quote_down) = 0%nat
  /\ signings (trace_of mock_quote_down) = [].
Proof.
  assert (Hrun : flashloan_and_arb (w3 := mock_w3) cfg0 seed0 root0 executor0
                   goldstem0 (mock_quote_down, [])
                 = (result_of mock_quote_down,
                    (mock_quote_down, trace_of mock_quote_down)))
    by (vm_compute; reflexivity).
  assert (Hb : builds (trace_of mock_quote_down) = []) by (vm_compute; reflexivity).
  split; [exact Hb|].
  destruct (flashloan_and_arb_stops_before_build (w3 := mock_w3) cfg0
              _ _ _ _ _ _ _ _ Hrun Hb) as (Hres & Hn & Hs & _).
  split; [exact Hres|]. split; [exact Hn|exact Hs].
Defined.

Lemma flashloan_and_arb_build_request_witness :
  exists asset amount params overrides,
    In (asset, amount, params, overrides)
      (builds (trace_of (mock_profit 1002000000000000000 500)))
    /\ owner_reads (trace_of (mock_profit 1002000000000000000 500))
       = [(executor0, inr (address root0))]
    /\ amount = 1000000000000000000
    /\ to_checksum (w3 := mock_w3) WETH = inr asset
    /\ params_min_out params = min_out 1000000000000000000 500000000000 30
    /\ length params = 192%nat.
Proof.
  assert (Hrun : flashloan_and_arb (w3 := mock_w3) cfg0 seed0 root0 executor0
                   goldstem0 (mock_profit 1002000000000000000 500, [])
                 = (result_of (mock_profit 1002000000000000000 500),
                    (mock_profit 1002000000000000000 500,
                     trace_of (mock_profit 1002000000000000000 500))))
    by (vm_compute; reflexivity).
  assert (Hlen : length (builds (trace_of (mock_profit 1002000000000000000 500)))
                 = 1%nat) by (vm_compute; reflexivity).
  destruct (builds (trace_of (mock_profit 1002000000000000000 500)))
    as [|[[[asset amount] params] overrides] l] eqn:E.
  { discriminate Hlen. }
  clear Hlen.
  exists asset, amount, params, overrides.
  assert (Hin : In (asset, amount, params, overrides)
                  (builds (trace_of (mock_profit 1002000000000000000 500))))
    by (rewrite E; left; reflexivity).
  rewrite <- E. split; [exact Hin|].
  destruct (flashloan_and_arb_build_request (w3 := mock_w3) cfg0
              seed0 root0 executor0 goldstem0 _ _ _ _ _ _ _ _ Hrun Hin)
    as (Ho & Hamt & Ha & _ & (mid & quoter & path & q & _ & _ & _ & _ & _ & Hm & Hl)).
  split; [exact Ho|]. split; [exact Hamt|]. split; [exact Ha|].
  split; [|exact Hl].
  exact (eq_trans Hm (f_equal (fun a => min_out a 500000000000 30) Hamt)).
Defined.

Lemma flashloan_and_arb_submission_failure_witness :
  builds (trace_of mock_receipt_lost) <> []
  /\ receipts (trace_of mock_receipt_lost) = []
  /\ (exists e, result_of mock_receipt_lost = inl e)
  /\ decodings (trace_of mock_receipt_lost) = []
  /\ (submitter_invocations (trace_of mock_receipt_lost) <= 1)%nat.
Proof.
  assert (Hrun : flashloan_and_arb (w3 := mock_w3) cfg0 seed0 root0 executor0
                   goldstem0 (mock_receipt_lost, [])
                 = (result_of mock_receipt_lost,
                    (mock_receipt_lost, trace_of mock_receipt_lost)))
    by (vm_compute; reflexivity).
  assert (Hb : builds (trace_of mock_receipt_lost) <> []).
  { assert (Hlen : length (builds (trace_of mock_receipt_lost)) = 1%nat)
      by (vm_compute; reflexivity).
    intros E. rewrite E in Hlen. discriminate Hlen. }
  assert (Hr : receipts (trace_of mock_receipt_lost) = [])
    by (vm_compute; reflexivity).
  split; [exact Hb|]. split; [exact Hr|].
  destruct (flashloan_and_arb_submission_failure (w3 := mock_w3) cfg0
              _ _ _ _ _ _ _ _ Hrun Hb Hr) as (Hres & Hd & Hn & _).
  split; [exact Hres|]. split; [exact Hd|exact Hn].
Defined.

Lemma main_owner_mismatch_stops_witness :
  accounts (run_main mock_foreign_owner).2.2 = [seed0; root0]
  /\ owner_reads (chain_trace (run_main mock_foreign_owner).2.2) !! 1%nat
     = Some (goldstem0, inr (address seed0))
  /\ address seed0 <> address root0
  /\ (run_main mock_foreign_owner).1 = inr tt
  /\ quiet (chain_trace (run_main mock_foreign_owner).2.2)
  /\ length (owner_reads (chain_trace (run_main mock_foreign_owner).2.2)) = 2%nat.
Proof.
  assert (Hrun : main (host := mock_host) main_cfg0 (mock_foreign_owner, [])
                 = ((run_main mock_foreign_owner).1,
                    (mock_foreign_owner, (run_main mock_foreign_owner).2.2)))
    by (vm_compute; reflexivity).
  assert (Hacc : accounts (run_main mock_foreign_owner).2.2 = [seed0; root0])
    by (vm_compute; reflexivity).
  assert (Hk : owner_reads (chain_trace (run_main mock_foreign_owner).2.2) !! 1%nat
               = Some (goldstem0, inr (address seed0)))
    by (vm_compute; reflexivity).
  assert (Hne : address seed0 <> address root0) by discriminate.
  split; [exact Hacc|]. split; [exact Hk|]. split; [exact Hne|].
  exact (main_owner_mismatch_stops (host := mock_host) main_cfg0
           mock_foreign_owner mock_foreign_owner _ _ seed0 root0 goldstem0
           (address seed0) Hrun Hacc Hk Hne).
Defined.

Lemma main_owner_unreadable_proceeds_witness :
  accounts (run_main mock_owner_unreadable).2.2 = [seed0; root0]
  /\ owner_reads (chain_trace (run_main mock_owner_unreadable).2.2) !! 1%nat
     = Some (goldstem0, inl (TransportError "execution reverted"))
  /\ (1 <= submitter_invocations
             (chain_trace (run_main mock_owner_unreadable).2.2))%nat
  /\ exists rn rest,
       nonce_queries (chain_trace (run_main mock_owner_unreadable).2.2)
       = (address seed0, rn) :: rest.
Proof.
  assert (Hrun : main (host := mock_host) main_cfg0 (mock_owner_unreadable, [])
                 = ((run_main mock_owner_unreadable).1,
                    (mock_owner_unreadable, (run_main mock_owner_unreadable).2.2)))
    by (vm_compute; reflexivity).
  assert (Hacc : accounts (run_main mock_owner_unreadable).2.2 = [seed0; root0])
    by (vm_compute; reflexivity).
  assert (Hk : owner_reads (chain_trace (run_main mock_owner_unreadable).2.2)
                 !! 1%nat
               = Some (goldstem0, inl (TransportError "execution reverted")))
    by (vm_compute; reflexivity).
  split; [exact Hacc|]. split; [exact Hk|].
  exact (main_owner_unreadable_proceeds (host := mock_host) main_cfg0
           mock_owner_unreadable mock_owner_unreadable _ _ seed0 root0 goldstem0
           (inl (TransportError "execution reverted")) Hrun Hacc Hk I).
Defined.

Lemma main_without_executor_witness :
  truthy (FLASH_EXECUTOR_ADDRESS (flow_config main_cfg_dust_only)) = false
  /\ quotes (chain_trace
               (run_main_with main_cfg_dust_only (mock_profit 1002000 500)).2.2)
     = []
  /\ builds (chain_trace
               (run_main_with main_cfg_dust_only (mock_profit 1002000 500)).2.2)
     = []
  /\ (submitter_invocations
        (chain_trace
           (run_main_with main_cfg_dust_only (mock_profit 1002000 500)).2.2)
      <= 2)%nat.
Proof.
  assert (Hrun : main (host := mock_host) main_cfg_dust_only
                   (mock_profit 1002000 500, [])
                 = ((run_main_with main_cfg_dust_only (mock_profit 1002000 500)).1,
                    (mock_profit 1002000 500,
                     (run_main_with main_cfg_dust_only
                        (mock_profit 1002000 500)).2.2)))
    by (vm_compute; reflexivity).
  assert (Hex : truthy (FLASH_EXECUTOR_ADDRESS (flow_config main_cfg_dust_only))
                = false) by reflexivity.
  split; [exact Hex|].
  destruct (main_without_executor (host := mock_host) main_cfg_dust_only
              (mock_profit 1002000 500) (mock_profit 1002000 500) _ _ Hrun Hex)
    as (Hq & Hb & _ & _ & Hn).
  split; [exact Hq|]. split; [exact Hb|exact Hn].
Defined.

Lemma main_flash_after_dust_test_witness :
  (length (receipts (chain_trace (run_main mock_receipt_lost).2.2)) < 2)%nat
  /\ quotes (chain_trace (run_main mock_receipt_lost).2.2) = []
  /\ builds (chain_trace (run_main mock_receipt_lost).2.2) = []
  /\ (submitter_invocations (chain_trace (run_main mock_receipt_lost).2.2)
      <= 2)%nat.
Proof.
  assert (Hrun : main (host := mock_host) main_cfg0 (mock_receipt_lost, [])
                 = ((run_main mock_receipt_lost).1,
                    (mock_receipt_lost, (run_main mock_receipt_lost).2.2)))
    by (vm_compute; reflexivity).
  assert (Hlt : (length (receipts (chain_trace (run_main mock_receipt_lost).2.2))
                 < 2)%nat)
    by (vm_compute; lia).
  split; [exact Hlt|].
  destruct (main_flash_after_dust_test (host := mock_host) main_cfg0
              mock_receipt_lost mock_receipt_lost _ _ Hrun Hlt)
    as (Hq & Hb & _ & _ & Hn).
  split; [exact Hq|]. split; [exact Hb|exact Hn].
Defined.

Lemma main_submission_order_witness :
  accounts (run_main (mock_profit 1002000000000000000 500)).2.2 = [seed0; root0]
  /\ map fst (nonce_queries
                (chain_trace
                   (run_main (mock_profit 1002000000000000000 500)).2.2))
       `prefix_of` address seed0 :: replicate 3 (address root0)
  /\ map (fun x => x.1.2)
       (signings
          (chain_trace (run_main (mock_profit 1002000000000000000 500)).2.2))
       `prefix_of` key seed0 :: replicate 3 (key root0).
Proof.
  assert (Hrun : main (host := mock_host) main_cfg0
                   (mock_profit 1002000000000000000 500, [])
                 = ((run_main (mock_profit 1002000000000000000 500)).1,
                    (mock_profit 1002000000000000000 500,
                     (run_main (mock_profit 1002000000000000000 500)).2.2)))
    by (vm_compute; reflexivity).
  assert (Hacc : accounts (run_main (mock_profit 1002000000000000000 500)).2.2
                 = [seed0; root0]) by (vm_compute; reflexivity).
  split; [exact Hacc|].
  exact (main_submission_order (host := mock_host) main_cfg0
           (mock_profit 1002000000000000000 500)
           (mock_profit 1002000000000000000 500) _ _ seed0 root0 Hrun Hacc).
Defined.

Lemma main_missing_settings_witness :
  main_configured main_cfg_no_root_key = false
  /\ (exists e,
        (run_main_with main_cfg_no_root_key (mock_profit 1002000 500)).1 = inl e)
  /\ files_read (run_main_with main_cfg_no_root_key (mock_profit 1002000 500)).2.2
     = []
  /\ bound_contracts
       (run_main_with main_cfg_no_root_key (mock_profit 1002000 500)).2.2 = []
  /\ quiet (chain_trace
              (run_main_with main_cfg_no_root_key (mock_profit 1002000 500)).2.2).
Proof.
  assert (Hrun : main (host := mock_host) main_cfg_no_root_key
                   (mock_profit 1002000 500, [])
                 = ((run_main_with main_cfg_no_root_key
                       (mock_profit 1002000 500)).1,
                    (mock_profit 1002000 500,
                     (run_main_with main_cfg_no_root_key
                        (mock_profit 1002000 500)).2.2)))
    by (vm_compute; reflexivity).
  assert (Hc : main_configured main_cfg_no_root_key = false) by reflexivity.
  split; [exact Hc|].
  destruct (main_missing_settings (host := mock_host) main_cfg_no_root_key
              (mock_profit 1002000 500) (mock_profit 1002000 500) _ _ Hrun Hc)
    as (Hres & Hf & Hb & _ & Hq).
  split; [exact Hres|]. split; [exact Hf|]. split; [exact Hb|exact Hq].
Defined.

Lemma main_dust_transfers_witness :
  accounts (run_main (mock_profit 1002000000000000000 500)).2.2 = [seed0; root0]
  /\ head (bound_contracts (run_main (mock_profit 1002000000000000000 500)).2.2)
     = Some goldstem0
  /\ length (signings
               (chain_trace
                  (run_main (mock_profit 1002000000000000000 500)).2.2))
     = 4%nat
  /\ (forall x,
        signings
          (chain_trace (run_main (mock_profit 1002000000000000000 500)).2.2)
          !! 0%nat = Some x ->
        x.1.2 = key seed0
        /\ transfers x.1.1 (address seed0) (address root0) 30000000000000)
  /\ (forall x,
        signings
          (chain_trace (run_main (mock_profit 1002000000000000000 500)).2.2)
          !! 1%nat = Some x ->
        x.1.2 = key root0
        /\ transfers x.1.1 (address root0) (contract_address goldstem0)
             20000000000000).
Proof.
  assert (Hrun : main (host := mock_host) main_cfg0
                   (mock_profit 1002000000000000000 500, [])
                 = ((run_main (mock_profit 1002000000000000000 500)).1,
                    (mock_profit 1002000000000000000 500,
                     (run_main (mock_profit 1002000000000000000 500)).2.2)))
    by (vm_compute; reflexivity).
  assert (Hacc : accounts (run_main (mock_profit 1002000000000000000 500)).2.2
                 = [seed0; root0]) by (vm_compute; reflexivity).
  assert (Hgs : head (bound_contracts
                        (run_main (mock_profit 1002000000000000000 500)).2.2)
                = Some goldstem0) by (vm_compute; reflexivity).
  split; [exact Hacc|]. split; [exact Hgs|].
  split; [vm_compute; reflexivity|].
  exact (main_dust_transfers (host := mock_host) main_cfg0
           (mock_profit 1002000000000000000 500)
           (mock_profit 1002000000000000000 500) _ _ seed0 root0 goldstem0
           Hrun Hacc Hgs).
Defined.
